(** * ekko-convert: the conversion orchestration core of [cmd/server/main.go]

    A shallow embedding of the Go backend's progress normaliser, duration and
    frame estimator, job registry and the terminal part of [handleConvert],
    with the properties the specification states about them.

    Conventions.
    - Go [string] is a byte sequence: Rocq [string] (one [ascii] per byte).
    - Go [float64] is IEEE 754 binary64: Rocq's primitive [float]; [+], [*],
      [/] and the comparisons are the primitive ones, evaluated one by one
      (no fused multiply-add).
    - Go [int] is the 64-bit signed integer of the amd64 and arm64 ports: a [Z]
      with the wrap-around written out where the code adds.
    - The Go library functions the code calls ([strings.Contains],
      [strings.Split], [strings.SplitN], [strings.TrimSpace],
      [strconv.ParseFloat], [math.Round], the conversion [int(f)]) are
      modelled from their documented behaviour in the first part of the file. *)

From Stdlib Require Import ZArith String Ascii List Floats Lia Bool Sorted DecimalString.
From stdpp Require Import gmap strings functions.
Import ListNotations.
Open Scope string_scope.
Open Scope Z_scope.

(* ===================================================================== *)
(** * Part 1: the Go library functions used by the code                   *)
(* ===================================================================== *)

Module GoLib.

(** ** Bytes *)

Definition code (c : ascii) : Z := Z.of_N (N_of_ascii c).

Definition byte_of (n : Z) : ascii := ascii_of_N (Z.to_N n).

Definition bytes (l : list Z) : string :=
  fold_right (fun n s => String (byte_of n) s) EmptyString l.

(** [lower(c)] of package strconv: [c | ('x' - 'X')]. *)
Definition lower (c : ascii) : ascii := byte_of (Z.lor (code c) 32).

Definition isDigit (c : ascii) : bool := (48 <=? code c) && (code c <=? 57).

Definition isHexLetter (c : ascii) : bool :=
  (97 <=? code (lower c)) && (code (lower c) <=? 102).

(** ** Package strings *)

Fixpoint HasPrefix (s prefix : string) : bool :=
  match prefix with
  | EmptyString => true
  | String p prefix' =>
      match s with
      | EmptyString => false
      | String c s' => Ascii.eqb c p && HasPrefix s' prefix'
      end
  end.

(** [strings.Contains(s, substr)]: [substr] occurs in [s]. *)
Fixpoint Contains (s substr : string) : bool :=
  HasPrefix s substr ||
  match s with
  | EmptyString => false
  | String _ s' => Contains s' substr
  end.

(** [genSplit] of package strings for a separator that is not empty (the
    code only splits on ":", "/" and "="). [cuts] is the number of cuts
    still allowed ([None]: no limit), [skip] the number of bytes of a
    separator just matched that are still to be dropped, [piece] the
    substring being collected. *)
Fixpoint genSplit (sep : string) (cuts : option nat) (skip : nat)
    (piece : string) (s : string) : list string :=
  match s with
  | EmptyString => [piece]
  | String c rest =>
      match skip with
      | S k => genSplit sep cuts k piece rest
      | O =>
          let allowed := match cuts with Some O => false | _ => true end in
          if allowed && HasPrefix s sep
          then piece :: genSplit sep (option_map Nat.pred cuts)
                          (Nat.pred (String.length sep)) EmptyString rest
          else genSplit sep cuts O (piece ++ String c EmptyString)%string rest
      end
  end.

(** [strings.Split(s, sep)]. *)
Definition Split (s sep : string) : list string :=
  genSplit sep None O EmptyString s.

(** [strings.SplitN(s, sep, n)]: [n = 0] gives no substring, [n < 0] all of
    them, [n > 0] at most [n], the last one being the unsplit rest. *)
Definition SplitN (s sep : string) (n : Z) : list string :=
  if n =? 0 then []
  else if n <? 0 then Split s sep
  else genSplit sep (Some (Nat.pred (Z.to_nat n))) O EmptyString s.

(** The UTF-8 encodings of the code points [unicode.IsSpace] accepts:
    tab, LF, VT, FF, CR, space, U+0085, U+00A0, U+1680, U+2000..U+200A,
    U+2028, U+2029, U+202F, U+205F, U+3000. *)
Definition spaceEncodings : list string :=
  map bytes
    ([ [9]; [10]; [11]; [12]; [13]; [32]; [194; 133]; [194; 160];
       [225; 154; 128] ]
     ++ map (fun k => [226; 128; 128 + k]) [0; 1; 2; 3; 4; 5; 6; 7; 8; 9; 10]
     ++ [ [226; 128; 168]; [226; 128; 169]; [226; 128; 175];
          [226; 129; 159]; [227; 128; 128] ])%list.

Fixpoint dropBytes (n : nat) (s : string) : string :=
  match n, s with
  | S k, String _ s' => dropBytes k s'
  | _, _ => s
  end.

Fixpoint revString (acc s : string) : string :=
  match s with
  | EmptyString => acc
  | String c s' => revString (String c acc) s'
  end.

Fixpoint trimLeading (fuel : nat) (encodings : list string) (s : string) : string :=
  match fuel with
  | O => s
  | S fuel' =>
      match List.find (HasPrefix s) encodings with
      | Some w => trimLeading fuel' encodings (dropBytes (String.length w) s)
      | None => s
      end
  end.

(** [strings.TrimSpace(s)]: leading, then trailing white space removed. *)
Definition TrimSpace (s : string) : string :=
  let s1 := trimLeading (String.length s) spaceEncodings s in
  let r := revString EmptyString s1 in
  let r1 := trimLeading (String.length r)
              (map (revString EmptyString) spaceEncodings) r in
  revString EmptyString r1.

(** ** Package strconv: [ParseFloat(s, 64)] *)

(** The binary64 value nearest to [n / d] (ties to even), as the reference
    division of the Standard Library computes it; an overflow gives an
    infinity. *)
Definition round_ratio (neg : bool) (n d : positive) : spec_float :=
  SFdiv prec emax (S754_finite neg n 0) (S754_finite false d 0).

(** The binary64 value nearest to [m * base ^ exp]. *)
Definition round_scaled (neg : bool) (m base exp : Z) : spec_float :=
  match m with
  | Zpos p =>
      if 0 <=? exp
      then round_ratio neg (Z.to_pos (Zpos p * base ^ exp)) 1
      else round_ratio neg p (Z.to_pos (base ^ (- exp)))
  | _ => S754_zero neg
  end.

Definition toLowerAZ (c : ascii) : ascii :=
  if (65 <=? code c) && (code c <=? 90) then byte_of (code c + 32) else c.

Fixpoint commonPrefixLenIgnoreCase (s prefix : string) : nat :=
  match s, prefix with
  | String c s', String p prefix' =>
      if Ascii.eqb (toLowerAZ c) p
      then S (commonPrefixLenIgnoreCase s' prefix')
      else O
  | _, _ => O
  end.

(** [special]: the value and the length of a prefix of [s] that spells an
    optionally signed "inf" or "infinity", or "nan", in any letter case. *)
Definition special (s : string) : option (float * nat) :=
  let infinityCase (neg : bool) (nsign : nat) (s' : string) :=
    let n := commonPrefixLenIgnoreCase s' "infinity" in
    let n := if (3 <? n)%nat && (n <? 8)%nat then 3%nat else n in
    if (n =? 3)%nat || (n =? 8)%nat
    then Some (if neg then neg_infinity else infinity, (nsign + n)%nat)
    else None in
  match s with
  | EmptyString => None
  | String c rest =>
      if (code c =? 43) || (code c =? 45) then infinityCase (code c =? 45) 1%nat rest
      else if (code c =? 105) || (code c =? 73) then infinityCase false O s
      else if (code c =? 110) || (code c =? 78) then
        if (commonPrefixLenIgnoreCase s "nan" =? 3)%nat then Some (nan, 3%nat) else None
      else None
  end.

(** The state of [readFloat]'s loop over the digits. [mantissa] keeps every
    digit (the Go code keeps 19 and a truncation flag, and then rounds the
    full decimal correctly; [nd] counts the digits after the leading zeros
    and [dp] is the position of the point among them). *)
Record mantState := MantState {
  sawdot : bool;
  sawdigits : bool;
  nd : Z;
  dp : Z;
  mantissa : Z;
  underscores : bool
}.

Fixpoint readMantissa (hex : bool) (st : mantState) (s : string)
    : mantState * string :=
  match s with
  | EmptyString => (st, s)
  | String c rest =>
      if code c =? 95 then
        readMantissa hex
          (MantState (sawdot st) (sawdigits st) (nd st) (dp st) (mantissa st) true) rest
      else if code c =? 46 then
        if sawdot st then (st, s)
        else readMantissa hex
               (MantState true (sawdigits st) (nd st) (nd st) (mantissa st)
                  (underscores st)) rest
      else if isDigit c then
        if (code c =? 48) && (nd st =? 0) then
          readMantissa hex
            (MantState (sawdot st) true (nd st) (dp st - 1) (mantissa st)
               (underscores st)) rest
        else
          readMantissa hex
            (MantState (sawdot st) true (nd st + 1) (dp st)
               (mantissa st * (if hex then 16 else 10) + (code c - 48))
               (underscores st)) rest
      else if hex && isHexLetter c then
        readMantissa hex
          (MantState (sawdot st) true (nd st + 1) (dp st)
             (mantissa st * 16 + (code (lower c) - 97 + 10))
             (underscores st)) rest
      else (st, s)
  end.

(** The digits of the exponent; the value stops growing at 10000. *)
Fixpoint readExpDigits (e : Z) (us : bool) (s : string) : Z * bool * string :=
  match s with
  | EmptyString => (e, us, s)
  | String c rest =>
      if code c =? 95 then readExpDigits e true rest
      else if isDigit c then
        readExpDigits (if e <? 10000 then e * 10 + (code c - 48) else e) us rest
      else (e, us, s)
  end.

(** [underscoreOK]: an underscore only between digits, or between a base
    prefix and a digit. [saw] is the last byte class seen: 0 start, 1 digit
    or base prefix, 2 underscore, 3 anything else. *)
Fixpoint underscoreLoop (hex : bool) (saw : nat) (s : string) : bool :=
  match s with
  | EmptyString => negb (saw =? 2)%nat
  | String c rest =>
      if isDigit c || (hex && isHexLetter c) then underscoreLoop hex 1 rest
      else if code c =? 95 then
        if (saw =? 1)%nat then underscoreLoop hex 2 rest else false
      else if (saw =? 2)%nat then false
      else underscoreLoop hex 3 rest
  end.

Definition underscoreOK (s : string) : bool :=
  let s :=
    match s with
    | String c rest => if (code c =? 45) || (code c =? 43) then rest else s
    | EmptyString => s
    end in
  match s with
  | String c0 (String c1 rest) =>
      let l := code (lower c1) in
      if (code c0 =? 48) && ((l =? 98) || (l =? 111) || (l =? 120))
      then underscoreLoop (l =? 120) 1 rest
      else underscoreLoop false 0 s
  | _ => underscoreLoop false 0 s
  end.

(** What [readFloat] reads: the sign, the base, every digit of the mantissa
    and the exponent of the base (10, or 2 for a hexadecimal mantissa). *)
Record floatParts := FloatParts {
  fneg : bool;
  fhex : bool;
  fmantissa : Z;
  fexp : Z
}.

(** [readFloat] on a whole string: [None] when [s] is not, from its first to
    its last byte, a decimal or hexadecimal floating-point number. *)
Definition readFloat (s : string) : option floatParts :=
  match s with
  | EmptyString => None
  | String c0 rest0 =>
      let neg := code c0 =? 45 in
      let s1 := if (code c0 =? 43) || (code c0 =? 45) then rest0 else s in
      let '(hex, s2) :=
        match s1 with
        | String z (String x (String c more)) =>
            if (code z =? 48) && (code (lower x) =? 120)
            then (true, String c more) else (false, s1)
        | _ => (false, s1)
        end in
      let '(st, s3) := readMantissa hex (MantState false false 0 0 0 false) s2 in
      if negb (sawdigits st) then None
      else
        let dp1 := if sawdot st then dp st else nd st in
        let dp2 := if hex then dp1 * 4 else dp1 in
        let ndm := if hex then nd st * 4 else nd st in
        let finish (dp3 : Z) (us : bool) (s4 : string) :=
          match s4 with
          | EmptyString =>
              if us && negb (underscoreOK s) then None
              else Some (FloatParts neg hex (mantissa st)
                           (if mantissa st =? 0 then 0 else dp3 - ndm))
          | _ => None
          end in
        match s3 with
        | String c rest =>
            if code (lower c) =? (if hex then 112 else 101) then
              match rest with
              | EmptyString => None
              | String sg rest' =>
                  let esign := if code sg =? 45 then (-1) else 1 in
                  let s5 := if (code sg =? 43) || (code sg =? 45) then rest' else rest in
                  match s5 with
                  | String d _ =>
                      if isDigit d then
                        let '(e, us, s6) := readExpDigits 0 (underscores st) s5 in
                        finish (dp2 + e * esign) us s6
                      else None
                  | EmptyString => None
                  end
              end
            else if hex then None
            else finish dp2 (underscores st) s3
        | EmptyString =>
            if hex then None else finish dp2 (underscores st) s3
        end
  end.

(** [strconv.ParseFloat(s, 64)]: [Some f] when the error is nil. A string
    that is not well formed (ErrSyntax) and a number beyond the largest
    binary64 value (ErrRange) both give [None]: the code only tests
    [err != nil]. *)
Definition ParseFloat (s : string) : option float :=
  match special s with
  | Some (f, n) => if (n =? String.length s)%nat then Some f else None
  | None =>
      match readFloat s with
      | None => None
      | Some p =>
          match round_scaled (fneg p) (fmantissa p)
                  (if fhex p then 2 else 10) (fexp p) with
          | S754_infinity _ => None
          | r => Some (SF2Prim r)
          end
      end
  end.

(** The value [strconv.ParseInt(s, 10, 64)] returns, whatever its error:
    0 for a string that is not an optionally signed run of decimal digits,
    and the nearest bound for a number that does not fit. *)
Fixpoint digitsValue (acc : Z) (s : string) : option Z :=
  match s with
  | EmptyString => Some acc
  | String c rest =>
      if isDigit c then digitsValue (acc * 10 + (code c - 48)) rest else None
  end.

Definition ParseInt (s : string) : Z :=
  match s with
  | EmptyString => 0
  | String c rest =>
      let neg := code c =? 45 in
      let digits := if (code c =? 43) || (code c =? 45) then rest else s in
      match digits with
      | EmptyString => 0
      | _ =>
          match digitsValue 0 digits with
          | None => 0
          | Some un => if neg then Z.max (- un) (- 2 ^ 63) else Z.min un (2 ^ 63 - 1)
          end
      end
  end.

(** [fmt.Sprintf("%d", n)]. *)
Definition formatInt (n : Z) : string := NilZero.string_of_int (Z.to_int n).

(** ** Package math and the conversion to [int] *)

(** [math.Round(x)]: the nearest integer, halves away from zero; zeros,
    infinities and NaN are returned as they are. *)
Definition Round (x : float) : float :=
  match Prim2SF x with
  | S754_finite s m e =>
      if 0 <=? e then x
      else
        let q := (Zpos m + 2 ^ (- e - 1)) / 2 ^ (- e) in
        let f := SF2Prim (binary_normalize prec emax q 0 false) in
        if s then (- f)%float else f
  | _ => x
  end.

Definition minInt64 : Z := - 2 ^ 63.
Definition maxInt64 : Z := 2 ^ 63 - 1.

(** The integer a finite float truncates to (towards zero). *)
Definition truncate (x : float) : option Z :=
  match Prim2SF x with
  | S754_zero _ => Some 0
  | S754_finite s m e =>
      let a := if 0 <=? e then Zpos m * 2 ^ e else Zpos m / 2 ^ (- e) in
      Some (if s then - a else a)
  | _ => None
  end.

(** The conversion [int(x)] of a [float64]: the fraction is discarded; when
    the result does not fit the type (and for NaN and the infinities) the
    language leaves the value to the implementation, here [indef x]. *)
Definition float64_to_int (indef : float -> Z) (x : float) : Z :=
  match truncate x with
  | Some v => if (minInt64 <=? v) && (v <=? maxInt64) then v else indef x
  | None => indef x
  end.

(** What the amd64 port gives where the language leaves the value open. *)
Definition indef_amd64 (x : float) : Z := minInt64.

(** [int] addition with its wrap-around. *)
Definition wrap64 (z : Z) : Z := (z + 2 ^ 63) mod 2 ^ 64 - 2 ^ 63.

End GoLib.

Import GoLib.

(* ===================================================================== *)
(** * Part 2: data model                                                  *)
(* ===================================================================== *)

(** [progressBroadcastStep]: emit every 5%. *)
Definition progressBroadcastStep : Z := 5.

Record ffprobeStream := {
  CodecName : string;
  Width : Z;
  Height : Z;
  Duration : string;
  NbFrames : string;
  AvgFrameRate : string
}.

(** The anonymous struct of [ffprobeData.Format]. *)
Record ffprobeFormat := {
  FormatDuration : string;
  FormatSize : string;
  FormatBitRate : string
}.

Record ffprobeData := {
  Format : ffprobeFormat;
  Streams : list ffprobeStream
}.

(* ===================================================================== *)
(** * Part 3: duration and frame estimator                                *)
(* ===================================================================== *)

Definition clamp (value min max : Z) : Z :=
  if value <? min then min
  else if value >? max then max
  else value.

Definition parseColonDuration (raw : string) : float :=
  match Split raw ":" with
  | [p0; p1; p2] =>
      match ParseFloat p0 with
      | None => 0%float
      | Some hours =>
          match ParseFloat p1 with
          | None => 0%float
          | Some minutes =>
              match ParseFloat p2 with
              | None => 0%float
              | Some seconds => (hours * 3600 + minutes * 60 + seconds)%float
              end
          end
      end
  | _ => 0%float
  end.

Definition parseDurationSeconds (raw : string) : float :=
  if String.eqb raw "" then 0%float
  else
    match ParseFloat raw with
    | None => if Contains raw ":" then parseColonDuration raw else 0%float
    | Some value => value
    end.

Definition parseFraction (raw : string) : float :=
  if String.eqb raw "" then 0%float
  else if negb (Contains raw "/") then
    match ParseFloat raw with
    | None => 0%float
    | Some value => value
    end
  else
    match SplitN raw "/" 2 with
    | [p0; p1] =>
        match ParseFloat p0 with
        | None => 0%float
        | Some numerator =>
            match ParseFloat p1 with
            | None => 0%float
            | Some denominator =>
                if (denominator =? 0)%float then 0%float
                else (numerator / denominator)%float
            end
        end
    | _ => 0%float
    end.

(** [stream == nil] is [None]. *)
Definition parseFrameCount (stream : option ffprobeStream) : float :=
  match stream with
  | None => 0%float
  | Some stream =>
      let byRate :=
        let rate := parseFraction (AvgFrameRate stream) in
        if (rate <=? 0)%float then 0%float
        else
          let duration := parseDurationSeconds (Duration stream) in
          if (duration <=? 0)%float then 0%float
          else (duration * rate)%float in
      match ParseFloat (NbFrames stream) with
      | Some frames => if (0 <? frames)%float then frames else byRate
      | None => byRate
      end
  end.

Definition durationFromFrames (nbFrames avgFrameRate : string) : float :=
  match ParseFloat nbFrames with
  | None => 0%float
  | Some frames =>
      if (frames <=? 0)%float then 0%float
      else
        let rate := parseFraction avgFrameRate in
        if (rate <=? 0)%float then 0%float
        else (frames / rate)%float
  end.

(** The result is the selected element of the slice ([None] for nil). *)
Definition firstVideoStream (streams : list ffprobeStream) : option ffprobeStream :=
  match List.find (fun stream => (Width stream >? 0) || (Height stream >? 0)) streams with
  | Some stream => Some stream
  | None => List.head streams
  end.

(** The duration [handleConvert] computes from the probe of the input
    (lines 293 to 300 of main.go). *)
Definition estimateDuration (metadata : ffprobeData) : float :=
  let durationSeconds := parseDurationSeconds (FormatDuration (Format metadata)) in
  match firstVideoStream (Streams metadata) with
  | Some primaryStream =>
      if (durationSeconds <=? 0)%float then
        let durationSeconds := parseDurationSeconds (Duration primaryStream) in
        if (durationSeconds <=? 0)%float
        then durationFromFrames (NbFrames primaryStream) (AvgFrameRate primaryStream)
        else durationSeconds
      else durationSeconds
  | None => durationSeconds
  end.

(** [totalFrames] of [handleConvert] (line 301). *)
Definition estimateFrames (metadata : ffprobeData) : float :=
  parseFrameCount (firstVideoStream (Streams metadata)).

(* ===================================================================== *)
(** * Part 4: progress normaliser                                         *)
(* ===================================================================== *)

Definition shouldEmitProgress (current last : Z) : bool :=
  if current <=? last then false
  else if current >=? 100 then true
  else current >=? wrap64 (last + progressBroadcastStep).

Section Normalizer.

(** The value of [int(x)] where the language leaves it to the
    implementation (see [float64_to_int]). *)
Variable indef : float -> Z.

(** [int(math.Round(x))]. *)
Definition roundToInt (x : float) : Z := float64_to_int indef (Round x).

Definition progressFromTimestamp (value : string)
    (durationSeconds unitsPerSecond : float) : Z :=
  if ((durationSeconds <=? 0) || (unitsPerSecond <=? 0))%float then 0
  else
    match ParseFloat value with
    | None => 0
    | Some raw =>
        let seconds := (raw / unitsPerSecond)%float in
        let percent := roundToInt ((seconds / durationSeconds) * 100)%float in
        clamp percent 0 100
    end.

Definition progressFromTimecode (value : string) (durationSeconds : float) : Z :=
  if (durationSeconds <=? 0)%float then 0
  else
    let seconds := parseDurationSeconds value in
    if (seconds <=? 0)%float then 0
    else
      let percent := roundToInt ((seconds / durationSeconds) * 100)%float in
      clamp percent 0 100.

Definition progressFromFrame (frameValue : string) (totalFrames : float) : Z :=
  if (totalFrames <=? 0)%float then 0
  else
    match ParseFloat frameValue with
    | None => 0
    | Some currentFrame =>
        let percent := roundToInt ((currentFrame / totalFrames) * 100)%float in
        clamp percent 0 100
    end.

End Normalizer.

(* ===================================================================== *)
(** * Part 5: the world the handlers run in                               *)
(* ===================================================================== *)

(** Addresses of [conversionProcess] values, and process ids. *)
Abbreviation loc := nat.
Abbreviation pid := nat.

(** [exec.Cmd], as far as the code looks at it: [Process] is nil until
    [Start] has succeeded. *)
Record Cmd := { Process : option pid }.

Record conversionProcess := {
  cmd : Cmd;
  cancelled : bool
}.

Record cancelPayload := { payloadFileName : string }.

Record conversionProgress := {
  FileName : string;
  Progress : Z;
  OutputName : string;
  Completed : bool
}.

(** The fields are [FileName] and [Error] in the source. *)
Record conversionError := {
  errorFileName : string;
  Error : string
}.

(** What [BroadcastToNamespace] sends: a "conversion-progress" or a
    "conversion-error" event with its payload. *)
Inductive Broadcast :=
  | ConversionProgress (payload : conversionProgress)
  | ConversionError (payload : conversionError).

(** The state shared by the handlers: the socket server of [serverState]
    ([None] is nil) with the events broadcast so far, the registry
    [conversionManager.conversions] with the [conversionProcess] values its
    pointers refer to, the paths that exist on disk, and the child processes
    that were already waited for or were sent a kill signal. Each function
    below runs as one step: the registry's methods hold its mutex from their
    first to their last statement. *)
Record World := {
  socket : option (list Broadcast);
  heap : loc -> conversionProcess;
  next : loc;
  conversions : gmap string loc;
  files : gset string;
  reaped : gset pid;
  killed : gset pid
}.

Definition setSocket (w : World) (v : option (list Broadcast)) : World :=
  {| socket := v; heap := heap w; next := next w; conversions := conversions w;
     files := files w; reaped := reaped w; killed := killed w |}.

Definition setHeap (w : World) (h : loc -> conversionProcess) (n : loc) : World :=
  {| socket := socket w; heap := h; next := n; conversions := conversions w;
     files := files w; reaped := reaped w; killed := killed w |}.

Definition setConversions (w : World) (m : gmap string loc) : World :=
  {| socket := socket w; heap := heap w; next := next w; conversions := m;
     files := files w; reaped := reaped w; killed := killed w |}.

Definition setFiles (w : World) (f : gset string) : World :=
  {| socket := socket w; heap := heap w; next := next w; conversions := conversions w;
     files := f; reaped := reaped w; killed := killed w |}.

Definition setReaped (w : World) (r : gset pid) : World :=
  {| socket := socket w; heap := heap w; next := next w; conversions := conversions w;
     files := files w; reaped := r; killed := killed w |}.

Definition setKilled (w : World) (k : gset pid) : World :=
  {| socket := socket w; heap := heap w; next := next w; conversions := conversions w;
     files := files w; reaped := reaped w; killed := k |}.

(** [os.Remove(path)]; its error is ignored by every caller. *)
Definition osRemove (path : string) (w : World) : World :=
  setFiles w (files w ∖ {[ path ]}).

(** [Process.Kill()]: [true] when the error is nil. The signal cannot be
    delivered to a child that was already waited for. *)
Definition Kill (p : pid) (w : World) : bool * World :=
  if decide (p ∈ reaped w) then (false, w)
  else (true, setKilled w ({[ p ]} ∪ killed w)).

(** ** Event channel *)

Definition emitProgress (fileName : string) (progress : Z) (outputName : string)
    (completed : bool) (w : World) : World :=
  match socket w with
  | None => w
  | Some sent =>
      let payload := {| FileName := fileName; Progress := clamp progress 0 100;
                        OutputName := outputName; Completed := completed |} in
      setSocket w (Some (sent ++ [ConversionProgress payload])%list)
  end.

Definition emitError (fileName message : string) (w : World) : World :=
  match socket w with
  | None => w
  | Some sent =>
      let payload := {| errorFileName := fileName; Error := message |} in
      setSocket w (Some (sent ++ [ConversionError payload])%list)
  end.

(** ** Job registry *)

Definition store (name : string) (c : Cmd) (w : World) : loc * World :=
  let proc := next w in
  let w1 := setHeap w (<[ proc := {| cmd := c; cancelled := false |} ]> (heap w)) (S proc) in
  (proc, setConversions w1 (<[ name := proc ]> (conversions w1))).

Definition remove (name : string) (w : World) : World :=
  setConversions w (delete name (conversions w)).

(** [cancel]: the pointer returned ([None] is nil) and [ok]. *)
Definition cancel (name : string) (w : World) : option loc * bool * World :=
  match conversions w !! name with
  | None => (None, false, w)
  | Some proc =>
      match Process (cmd (heap w proc)) with
      | None => (None, false, w)
      | Some p =>
          match Kill p w with
          | (false, w1) => (Some proc, false, w1)
          | (true, w1) =>
              let w2 := setHeap w1
                          (<[ proc := {| cmd := cmd (heap w1 proc); cancelled := true |} ]> (heap w1))
                          (next w1) in
              (Some proc, true, setConversions w2 (delete name (conversions w2)))
          end
      end
  end.

(** The handler of the "cancel-conversion" socket event. *)
Definition onCancelConversion (payload : cancelPayload) (w : World) : World :=
  if String.eqb (payloadFileName payload) "" then w
  else
    match cancel (payloadFileName payload) w with
    | (_, true, w1) => emitError (payloadFileName payload) "Conversion cancelled by user" w1
    | (_, false, w1) => w1
    end.

(* ===================================================================== *)
(** * Part 6: the progress reader                                         *)
(* ===================================================================== *)

Section Orchestrator.

Variable indef : float -> Z.

(** One iteration of the reader's loop over the lines of ffmpeg's progress
    output: the new [lastReported] and the world after the emission. *)
Definition readerStep (originalName outputName : string)
    (durationSeconds totalFrames : float)
    (st : Z * World) (line : string) : Z * World :=
  let '(lastReported, w) := st in
  let forward (currentProgress : Z) :=
    if shouldEmitProgress currentProgress lastReported
    then (currentProgress, emitProgress originalName currentProgress outputName false w)
    else (lastReported, w) in
  match SplitN line "=" 2 with
  | [p0; p1] =>
      let key := TrimSpace p0 in
      let value := TrimSpace p1 in
      if String.eqb key "frame" then
        forward (progressFromFrame indef value totalFrames)
      else if String.eqb key "out_time_ms" then
        forward (progressFromTimestamp indef value durationSeconds 1000)
      else if String.eqb key "out_time_us" then
        forward (progressFromTimestamp indef value durationSeconds 1000000)
      else if String.eqb key "out_time" then
        forward (progressFromTimecode indef value durationSeconds)
      else if String.eqb key "progress" then
        if String.eqb value "end"
        then (lastReported, emitProgress originalName 100 outputName true w)
        else st
      else st
  | _ => st
  end.

(** The reader goroutine over the lines [scanner.Scan()] yields. *)
Definition progressReader (originalName outputName : string)
    (durationSeconds totalFrames : float) (lines : list string) (w : World) : Z * World :=
  fold_left (readerStep originalName outputName durationSeconds totalFrames)
    lines (- progressBroadcastStep, w).

End Orchestrator.

(** The candidate a line hands to the throttle, if its key is one of the
    four progress keys. *)
Definition candidateOf (indef : float -> Z) (durationSeconds totalFrames : float)
    (line : string) : option Z :=
  match SplitN line "=" 2 with
  | [p0; p1] =>
      let key := TrimSpace p0 in
      let value := TrimSpace p1 in
      if String.eqb key "frame" then Some (progressFromFrame indef value totalFrames)
      else if String.eqb key "out_time_ms" then
        Some (progressFromTimestamp indef value durationSeconds 1000)
      else if String.eqb key "out_time_us" then
        Some (progressFromTimestamp indef value durationSeconds 1000000)
      else if String.eqb key "out_time" then
        Some (progressFromTimecode indef value durationSeconds)
      else None
  | _ => None
  end.

(** The candidates the throttle forwards, starting from [last]. *)
Fixpoint throttle (last : Z) (candidates : list Z) : list Z :=
  match candidates with
  | [] => []
  | c :: rest =>
      if shouldEmitProgress c last then c :: throttle c rest
      else throttle last rest
  end.

(* ===================================================================== *)
(** * Part 7: handleConvert                                               *)
(* ===================================================================== *)

Definition StatusOK : Z := 200.
Definition StatusBadRequest : Z := 400.
Definition StatusConflict : Z := 409.
Definition StatusInternalServerError : Z := 500.

Definition mapFFmpegError (stderr format : string) : string * Z :=
  if Contains stderr "Unknown encoder" then
    (("Unsupported output format: " ++ format)%string, StatusBadRequest)
  else if Contains stderr "Invalid data found" then
    ("Invalid or corrupted video file", StatusBadRequest)
  else if Contains stderr "No space left" then
    ("Server storage full. Please try again later.", StatusInternalServerError)
  else if Contains stderr "ffmpeg version" then
    ("Conversion failed", StatusInternalServerError)
  else if negb (String.eqb stderr "") then (stderr, StatusInternalServerError)
  else ("Conversion failed", StatusInternalServerError).

(** The body of the successful response. *)
Record convertResponse := {
  name : string;
  outputNameField : string;
  downloadUrl : string;
  duration : float;
  fileSize : Z;
  resolution : string;
  codec : string
}.

(** What the handler writes to the caller: [http.Error(w, message, status)]
    or [writeJSON(w, status, response)]. [writeJSON] writes the header with
    the status and then encodes the response; when the encoding fails the
    error is only logged, and the caller has the header and an empty body. *)
Inductive Response :=
  | HttpError (message : string) (status : Z)
  | WriteJSON (status : Z) (body : convertResponse)
  | WriteJSONFailed (status : Z).

(** [json.NewEncoder(w).Encode] fails on a float that is NaN or an infinity
    (the other fields of the responses are strings and integers, which it
    always encodes), and then writes nothing. *)
Definition writeJSON (status : Z) (payload : convertResponse) : Response :=
  if is_finite (duration payload) then WriteJSON status payload
  else WriteJSONFailed status.

(** The request after the upload was parsed and stored: the names
    [handleConvert] derives from the file name, the format and fresh UUIDs. *)
Record Request := {
  originalName : string;
  format : string;
  inputPath : string;
  outputName : string;
  outputPath : string
}.

Inductive startResult :=
  | Started (p : pid)
  | StartNotFound
  | StartFailed.

(** What the tools outside the program answer during one request:
    [probeFile] on the input and on the output ([None] is an error),
    [cmd.StdoutPipe], [cmd.Start], the lines of ffmpeg's progress output,
    whether ffmpeg created the output file, whether [cmd.Wait] returned an
    error, and what ffmpeg wrote to its standard error. *)
Record Externals := {
  probeInput : option ffprobeData;
  stdoutPipeOk : bool;
  start : startResult;
  progressLines : list string;
  outputWritten : bool;
  waitFailed : bool;
  stderrText : string;
  probeOutput : option ffprobeData
}.

(** What other goroutines do to the shared state while a request waits for
    its ffmpeg: the socket handler of a cancel request, and the registry
    calls of another conversion. Each is taken as one step; the handler's
    broadcast follows its [cancel] at once. *)
Inductive Concurrent :=
  | CancelRequest (payload : cancelPayload)
  | OtherStore (name : string) (c : Cmd)
  | OtherRemove (name : string).

Definition runConcurrent (w : World) (a : Concurrent) : World :=
  match a with
  | CancelRequest payload => onCancelConversion payload w
  | OtherStore n c => snd (store n c w)
  | OtherRemove n => remove n w
  end.

Definition successResponse (rq : Request) (outputMetadata : ffprobeData) : convertResponse :=
  let stream := firstVideoStream (Streams outputMetadata) in
  {| name := originalName rq;
     outputNameField := outputName rq;
     downloadUrl := ("/downloads/" ++ outputName rq)%string;
     duration := parseDurationSeconds (FormatDuration (Format outputMetadata));
     fileSize := ParseInt (FormatSize (Format outputMetadata));
     resolution :=
       match stream with
       | Some st =>
           if (Width st >? 0) && (Height st >? 0)
           then (formatInt (Width st) ++ "x" ++ formatInt (Height st))%string
           else ""
       | None => ""
       end;
     codec := match stream with Some st => CodecName st | None => "" end |}.

(** [handleConvert] from [s.conversions.remove(originalName)] on (lines 390
    to 444): [proc] is the pointer [store] returned. *)
Definition convertFinish (rq : Request) (ex : Externals) (proc : loc) (w : World)
    : Response * World :=
  let w1 := remove (originalName rq) w in
  if cancelled (heap w1 proc) then
    (HttpError "Conversion cancelled by user" StatusConflict,
     osRemove (outputPath rq) w1)
  else if waitFailed ex then
    let '(message, status) := mapFFmpegError (stderrText ex) (format rq) in
    let w2 := emitError (originalName rq) message w1 in
    (HttpError message status, osRemove (outputPath rq) w2)
  else
    match probeOutput ex with
    | None =>
        (HttpError "Conversion completed but metadata lookup failed"
           StatusInternalServerError, w1)
    | Some outputMetadata =>
        (writeJSON StatusOK (successResponse rq outputMetadata), w1)
    end.

Section Handler.

Variable indef : float -> Z.

(** [handleConvert] from the probe of the stored upload on (lines 285 to
    444). The reader goroutine, ffmpeg and the other goroutines run
    concurrently between [store] and the return of [cmd.Wait]; they are put
    in one order here, [during] being what the other goroutines do in that
    time and [late] what they do between the return of [Wait] and [remove].
    The deferred [os.Remove(inputPath)] runs at every return. *)
Definition handleConvert (rq : Request) (ex : Externals)
    (during late : list Concurrent) (w : World) : Response * World :=
  let deferred (r : Response * World) := (fst r, osRemove (inputPath rq) (snd r)) in
  match probeInput ex with
  | None =>
      deferred (HttpError "Failed to analyze source file" StatusInternalServerError,
                osRemove (outputPath rq) w)
  | Some metadata =>
      let durationSeconds := estimateDuration metadata in
      let totalFrames := estimateFrames metadata in
      let w1 := emitProgress (originalName rq) 0 (outputName rq) false w in
      if negb (stdoutPipeOk ex) then
        deferred (HttpError "Failed to start conversion" StatusInternalServerError, w1)
      else
        match start ex with
        | StartNotFound =>
            deferred (HttpError "FFmpeg not found. Please ensure FFmpeg is installed."
                        StatusInternalServerError, w1)
        | StartFailed =>
            deferred (HttpError "Failed to start conversion" StatusInternalServerError, w1)
        | Started p =>
            let '(proc, w2) := store (originalName rq) {| Process := Some p |} w1 in
            let w3 := snd (progressReader indef (originalName rq) (outputName rq)
                             durationSeconds totalFrames (progressLines ex) w2) in
            let w4 := fold_left runConcurrent during w3 in
            let w5 := if outputWritten ex
                      then setFiles w4 ({[ outputPath rq ]} ∪ files w4) else w4 in
            let w6 := setReaped w5 ({[ p ]} ∪ reaped w5) in
            let w7 := fold_left runConcurrent late w6 in
            deferred (convertFinish rq ex proc w7)
        end
  end.

End Handler.

(** The world [main] starts the handlers in: a socket server that has sent
    nothing, an empty registry. *)
Definition initialWorld (onDisk : gset string) : World :=
  {| socket := Some []; heap := fun _ => {| cmd := {| Process := None |}; cancelled := false |};
     next := O; conversions := ∅; files := onDisk; reaped := ∅; killed := ∅ |}.

(* ===================================================================== *)
(** * Part 8: notions the statements use                                  *)
(* ===================================================================== *)

(** A probe result with one video stream. *)
Definition probeOf (formatDuration streamDuration nbFrames avgFrameRate : string)
    : ffprobeData :=
  {| Format := {| FormatDuration := formatDuration; FormatSize := ""; FormatBitRate := "" |};
     Streams := [ {| CodecName := "h264"; Width := 1920; Height := 1080;
                     Duration := streamDuration; NbFrames := nbFrames;
                     AvgFrameRate := avgFrameRate |} ] |}.

(** What the reader does with a line: hand a candidate to the throttle,
    emit the terminal 100, or nothing. *)
Inductive lineKind :=
  | Candidate (c : Z)
  | TerminalMarker
  | Ignored.

Definition classifyLine (indef : float -> Z) (durationSeconds totalFrames : float)
    (line : string) : lineKind :=
  match candidateOf indef durationSeconds totalFrames line with
  | Some c => Candidate c
  | None =>
      match SplitN line "=" 2 with
      | [p0; p1] =>
          if String.eqb (TrimSpace p0) "progress" && String.eqb (TrimSpace p1) "end"
          then TerminalMarker else Ignored
      | _ => Ignored
      end
  end.

(** The percentages a reader emits, each with its [completed] flag. *)
Fixpoint readerTrace (last : Z) (kinds : list lineKind) : list (Z * bool) :=
  match kinds with
  | [] => []
  | Candidate c :: rest =>
      if shouldEmitProgress c last then (c, false) :: readerTrace c rest
      else readerTrace last rest
  | TerminalMarker :: rest => (100, true) :: readerTrace last rest
  | Ignored :: rest => readerTrace last rest
  end.

Definition candidatesOf (kinds : list lineKind) : list Z :=
  flat_map (fun k => match k with Candidate c => [c] | _ => [] end) kinds.

Definition progressEvent (fileName outputName : string) (e : Z * bool) : Broadcast :=
  ConversionProgress {| FileName := fileName; Progress := fst e;
                        OutputName := outputName; Completed := snd e |}.

(** The words of the specification for a normalised percentage: the
    rounded value as the number it is, whatever its size, clamped to 0..100
    ([None] for NaN and the infinities, which have no rounded value). The
    code converts the rounded float to [int] first ([roundToInt]). *)
Definition clampedRound (percent : float) : option Z :=
  option_map (fun rounded => clamp rounded 0 100) (truncate (Round percent)).

Definition cancelledEvent (fileName : string) : Broadcast :=
  ConversionError {| errorFileName := fileName; Error := "Conversion cancelled by user" |}.

(** The events broadcast so far (none without a socket server). *)
Definition sentEvents (w : World) : list Broadcast :=
  match socket w with Some sent => sent | None => [] end.

(** The registry only holds pointers that [store] allocated. *)
Definition registryAllocated (w : World) : Prop :=
  forall (n : string) (l : loc), conversions w !! n = Some l -> (l < next w)%nat.

(** The world after a [cancel] that delivered its signal to [p]. *)
Definition cancelledWorld (name : string) (proc : loc) (p : pid) (w : World) : World :=
  let w1 := setKilled w ({[ p ]} ∪ killed w) in
  let w2 := setHeap w1
              (<[ proc := {| cmd := cmd (heap w proc); cancelled := true |} ]> (heap w))
              (next w) in
  setConversions w2 (delete name (conversions w)).

(** What holds of the job [store] registered under [nm] at address [proc]
    for as long as it runs: the address is allocated, the registry holds
    allocated addresses only and knows [proc] under no other key, and the
    job's flag is set only if the cancellation message was broadcast. *)
Definition jobInv (proc : loc) (nm : string) (w : World) : Prop :=
  (proc < next w)%nat
  /\ registryAllocated w
  /\ (forall n : string, conversions w !! n = Some proc -> n = nm)
  /\ exists sent : list Broadcast,
       socket w = Some sent
       /\ (cancelled (heap w proc) = true -> In (cancelledEvent nm) sent).

(** The socket's log only grows from [w] to [w']. *)
Definition logGrows (w w' : World) : Prop :=
  forall sent : list Broadcast,
    socket w = Some sent -> exists more : list Broadcast, socket w' = Some (sent ++ more)%list.

(** [handleConvert] once ffmpeg has started, step by step. *)
Definition startedRun (indef : float -> Z) (rq : Request) (ex : Externals)
    (during late : list Concurrent) (metadata : ffprobeData) (p : pid) (w : World)
    : World :=
  let w1 := emitProgress (originalName rq) 0 (outputName rq) false w in
  let w2 := snd (store (originalName rq) {| Process := Some p |} w1) in
  let w3 := snd (progressReader indef (originalName rq) (outputName rq)
                   (estimateDuration metadata) (estimateFrames metadata)
                   (progressLines ex) w2) in
  let w4 := fold_left runConcurrent during w3 in
  let w5 := if outputWritten ex then setFiles w4 ({[ outputPath rq ]} ∪ files w4) else w4 in
  let w6 := setReaped w5 ({[ p ]} ∪ reaped w5) in
  fold_left runConcurrent late w6.

(** A request and the answers of the tools for a ten second, 300 frame
    input whose conversion succeeds; the examples below vary them. *)
Definition exampleRequest : Request :=
  {| originalName := "a.mov"; format := "mp4"; inputPath := "downloads/in-a.mov";
     outputName := "u.mp4"; outputPath := "downloads/u.mp4" |}.

Definition exampleExternals (lines : list string) (failed : bool) (stderr : string)
    (outputProbe : option ffprobeData) : Externals :=
  {| probeInput := Some (probeOf "10" "10" "300" "30/1");
     stdoutPipeOk := true;
     start := Started 7%nat;
     progressLines := lines;
     outputWritten := true;
     waitFailed := failed;
     stderrText := stderr;
     probeOutput := outputProbe |}.

(* ===================================================================== *)
(** * Part 8b: file names and the HTTP front of the handlers             *)
(* ===================================================================== *)

(** ** More of the Go library *)

(** [strings.ReplaceAll(s, old, new)] for a pattern that is not empty (the
    code replaces ".." and " "): the matches are taken from the left and do
    not overlap; [skip] is the number of bytes of a match just found that are
    still to be dropped. *)
Fixpoint replaceFrom (old new : string) (skip : nat) (s : string) : string :=
  match s with
  | EmptyString => EmptyString
  | String c rest =>
      match skip with
      | S k => replaceFrom old new k rest
      | O =>
          if HasPrefix s old
          then (new ++ replaceFrom old new (Nat.pred (String.length old)) rest)%string
          else String c (replaceFrom old new O rest)
      end
  end.

Definition ReplaceAll (s old new : string) : string := replaceFrom old new O s.

(** The two loops of [filepath.Base], which run from the end of the path,
    on the reversed path. *)
Fixpoint dropSlashes (reversed : string) : string :=
  match reversed with
  | String c rest => if Ascii.eqb c "/" then dropSlashes rest else reversed
  | EmptyString => reversed
  end.

Fixpoint untilSlash (reversed : string) : string :=
  match reversed with
  | String c rest => if Ascii.eqb c "/" then EmptyString else String c (untilSlash rest)
  | EmptyString => EmptyString
  end.

(** [filepath.Base(path)] where the separator is the slash and there are no
    volume names (every system but Windows): "." for the empty path, the
    trailing slashes stripped, then what follows the last slash, "/" when
    nothing is left. *)
Definition Base (path : string) : string :=
  if String.eqb path "" then "."
  else
    let stripped := dropSlashes (revString EmptyString path) in
    let element := revString EmptyString (untilSlash stripped) in
    if String.eqb element "" then "/" else element.

(** [strconv.ParseFloat(s, 64)] where the code drops the error: 0 for a
    string that is not well formed, an infinity for a number out of range. *)
Definition ParseFloatValue (s : string) : float :=
  match special s with
  | Some (f, n) => if (n =? String.length s)%nat then f else 0%float
  | None =>
      match readFloat s with
      | None => 0%float
      | Some p =>
          SF2Prim (round_scaled (fneg p) (fmantissa p) (if fhex p then 2 else 10) (fexp p))
      end
  end.

(** ** Helpers of the handlers *)

Definition maxUploadSize : Z := 15 * 1024 * 1024 * 1024.

Definition StatusNoContent : Z := 204.
Definition StatusMethodNotAllowed : Z := 405.

Definition sanitizeFilename (name : string) : string :=
  let name := Base name in
  let name := ReplaceAll name ".." "" in
  ReplaceAll name " " "_".

(** What a handler writes to its [http.ResponseWriter]: nothing (the server
    then answers 200 with an empty body), [w.WriteHeader(status)] alone,
    [http.Error(w, message, status)], [writeJSON(w, status, body)], or the
    header alone of a [writeJSON] whose encoding failed. *)
Inductive Written (Body : Type) : Type :=
  | Nothing
  | StatusOnly (status : Z)
  | ErrorLine (message : string) (status : Z)
  | Json (status : Z) (body : Body)
  | JsonFailed (status : Z).

Arguments Nothing {Body}.
Arguments StatusOnly {Body} status.
Arguments ErrorLine {Body} message status.
Arguments Json {Body} status body.
Arguments JsonFailed {Body} status.

Definition methodNotAllowed {Body : Type} (method : string) : Written Body :=
  ErrorLine ("Method " ++ method ++ " not allowed")%string StatusMethodNotAllowed.

(** An error of [ParseMultipartForm]: whether it is [http.ErrNotMultipart]
    (to [errors.Is]), and its text. *)
Record uploadError := {
  isNotMultipart : bool;
  errorText : string
}.

(** [err == nil] is [None]. *)
Definition respondUploadError {Body : Type} (err : option uploadError) : Written Body :=
  match err with
  | None => Nothing
  | Some e =>
      if isNotMultipart e then ErrorLine "Invalid multipart payload" StatusBadRequest
      else if Contains (errorText e) "request body too large" then
        ErrorLine ("File too large. Maximum size allowed is "
                   ++ formatInt maxUploadSize ++ " bytes")%string StatusBadRequest
      else ErrorLine "Failed to parse upload" StatusBadRequest
  end.

(** [writeStreamToFile]: [os.Create] fails and nothing is written, or the
    file is created and [io.Copy] fails part of the way, or all is written.
    The result is [true] when the error is nil. *)
Inductive writeOutcome :=
  | CreateFails
  | CopyFails
  | StoredAll.

Definition writeStreamToFile (outcome : writeOutcome) (destination : string) (w : World)
    : bool * World :=
  match outcome with
  | CreateFails => (false, w)
  | CopyFails => (false, setFiles w ({[ destination ]} ∪ files w))
  | StoredAll => (true, setFiles w ({[ destination ]} ∪ files w))
  end.

(** ** The request as the handlers read it *)

(** The method, what [ParseMultipartForm] returns, the form value "format",
    the file name of the form file "file" ([None] when [FormFile] returns an
    error), the strings the two calls of [uuid.NewString] return, and how
    [writeStreamToFile] ends. *)
Record Upload := {
  Method : string;
  multipartError : option uploadError;
  formatValue : string;
  formFile : option string;
  firstUUID : string;
  secondUUID : string;
  storing : writeOutcome
}.

Definition ofResponse (r : Response) : Written convertResponse :=
  match r with
  | HttpError message status => ErrorLine message status
  | WriteJSON status body => Json status body
  | WriteJSONFailed status => JsonFailed status
  end.

(** The body [handleAnalyze] answers with. *)
Record analyzeResponse := {
  analyzedName : string;
  analyzedDuration : float;
  analyzedFileSize : Z;
  analyzedResolution : string;
  analyzedCodec : string;
  analyzedBitrate : string
}.

(** [writeJSON] on the body of an analysis. *)
Definition writeJSONAnalysis (status : Z) (payload : analyzeResponse)
    : Written analyzeResponse :=
  if is_finite (analyzedDuration payload) then Json status payload
  else JsonFailed status.

Section Front.

Variable indef : float -> Z.

(** [s.downloadsDir], and [filepath.Join] applied to it and a file name. *)
Variable downloadsDir : string.
Variable Join : string -> string -> string.

(** The names [handleConvert] derives (lines 272 to 276). *)
Definition requestOf (up : Upload) (fileName : string) : Request :=
  let originalName := fileName in
  let inputName := (firstUUID up ++ "-" ++ sanitizeFilename originalName)%string in
  let outputName := (secondUUID up ++ "." ++ sanitizeFilename (formatValue up))%string in
  {| originalName := originalName;
     format := formatValue up;
     inputPath := Join downloadsDir inputName;
     outputName := outputName;
     outputPath := Join downloadsDir outputName |}.

(** [handleConvert] from its first line: the checks of the request and the
    storing of the upload (lines 243 to 283), then the conversion. The
    deferred [os.Remove(inputPath)] is registered only once the upload is
    stored. *)
Definition handleConvertRequest (up : Upload) (ex : Externals)
    (during late : list Concurrent) (w : World) : Written convertResponse * World :=
  if String.eqb (Method up) "OPTIONS" then (StatusOnly StatusNoContent, w)
  else if negb (String.eqb (Method up) "POST") then (methodNotAllowed (Method up), w)
  else
    match multipartError up with
    | Some err => (respondUploadError (Some err), w)
    | None =>
        if String.eqb (formatValue up) "" then
          (ErrorLine "Missing output format" StatusBadRequest, w)
        else
          match formFile up with
          | None => (ErrorLine "No file uploaded" StatusBadRequest, w)
          | Some fileName =>
              let rq := requestOf up fileName in
              match writeStreamToFile (storing up) (inputPath rq) w with
              | (false, w1) =>
                  (ErrorLine "Failed to store upload" StatusInternalServerError, w1)
              | (true, w1) =>
                  let result := handleConvert indef rq ex during late w1 in
                  (ofResponse (fst result), snd result)
              end
          end
    end.

(** [handleAnalyze]; [probe] is what [probeFile] returns for the stored
    upload. The form value "format" and the second UUID are not read. *)
Definition handleAnalyze (up : Upload) (probe : option ffprobeData) (w : World)
    : Written analyzeResponse * World :=
  if String.eqb (Method up) "OPTIONS" then (StatusOnly StatusNoContent, w)
  else if negb (String.eqb (Method up) "POST") then (methodNotAllowed (Method up), w)
  else
    match multipartError up with
    | Some err => (respondUploadError (Some err), w)
    | None =>
        match formFile up with
        | None => (ErrorLine "No file uploaded" StatusBadRequest, w)
        | Some fileName =>
            let tempPath :=
              Join downloadsDir
                ("temp-" ++ firstUUID up ++ "-" ++ sanitizeFilename fileName)%string in
            match writeStreamToFile (storing up) tempPath w with
            | (false, w1) =>
                (ErrorLine "Failed to store upload" StatusInternalServerError, w1)
            | (true, w1) =>
                let deferred (r : Written analyzeResponse * World) :=
                  (fst r, osRemove tempPath (snd r)) in
                match probe with
                | None =>
                    deferred (ErrorLine "Analysis failed" StatusInternalServerError, w1)
                | Some metadata =>
                    let stream := firstVideoStream (Streams metadata) in
                    let duration := ParseFloatValue (FormatDuration (Format metadata)) in
                    let size := ParseInt (FormatSize (Format metadata)) in
                    let response :=
                      {| analyzedName := fileName;
                         analyzedDuration := duration;
                         analyzedFileSize := size;
                         analyzedResolution :=
                           match stream with
                           | Some st =>
                               if (Width st >? 0) && (Height st >? 0)
                               then (formatInt (Width st) ++ "x"
                                     ++ formatInt (Height st))%string
                               else ""
                           | None => ""
                           end;
                         analyzedCodec :=
                           match stream with Some st => CodecName st | None => "" end;
                         analyzedBitrate := FormatBitRate (Format metadata) |} in
                    deferred (writeJSONAnalysis StatusOK response, w1)
                end
            end
        end
    end.

End Front.

(** ** The CORS middleware *)

(** [http.Header] with canonical keys, and the three methods the code calls. *)
Abbreviation Header := (gmap string (list string)).

Definition headerGet (key : string) (h : Header) : string :=
  match h !! key with
  | Some (value :: _) => value
  | _ => ""
  end.

Definition headerSet (key value : string) (h : Header) : Header := <[ key := [value] ]> h.

Definition headerDel (key : string) (h : Header) : Header := delete key h.

(** The response as the middleware sees it: the header map, and the status
    once [WriteHeader] was called. *)
Record ResponseWriter := {
  respHeader : Header;
  statusCode : option Z
}.

Definition setRespHeader (w : ResponseWriter) (h : Header) : ResponseWriter :=
  {| respHeader := h; statusCode := statusCode w |}.

(** A second [WriteHeader] is ignored by the server. *)
Definition WriteHeader (status : Z) (w : ResponseWriter) : ResponseWriter :=
  match statusCode w with
  | None => {| respHeader := respHeader w; statusCode := Some status |}
  | Some _ => w
  end.

Record HttpRequest := {
  requestMethod : string;
  requestHeader : Header
}.

Definition corsHeaders (r : HttpRequest) (h : Header) : Header :=
  let origin := headerGet "Origin" (requestHeader r) in
  let h :=
    if String.eqb origin "" then
      headerDel "Access-Control-Allow-Credentials"
        (headerSet "Access-Control-Allow-Origin" "*" h)
    else
      headerSet "Access-Control-Allow-Credentials" "true"
        (headerSet "Access-Control-Allow-Origin" origin h) in
  headerSet "Access-Control-Allow-Headers" "Content-Type, Authorization"
    (headerSet "Access-Control-Allow-Methods" "GET,POST,OPTIONS" h).

(** [corsMiddleware(next)], [next] being the handler it wraps. *)
Definition corsMiddleware (next : HttpRequest -> ResponseWriter -> ResponseWriter)
    (r : HttpRequest) (w : ResponseWriter) : ResponseWriter :=
  let w := setRespHeader w (corsHeaders r (respHeader w)) in
  if String.eqb (requestMethod r) "OPTIONS" then WriteHeader StatusNoContent w
  else next r w.

(** A broadcast whose progress, if it is a progress event, lies between 0
    and 100. *)
Definition progressInRange (e : Broadcast) : Prop :=
  match e with
  | ConversionProgress payload => 0 <= Progress payload <= 100
  | ConversionError _ => True
  end.

(* ===================================================================== *)
(** * Part 9: properties                                                  *)
(* ===================================================================== *)

(** ** Facts about binary64 comparisons and the library model *)

Lemma Prim2SF_zero : Prim2SF 0%float = S754_zero false.
Proof. reflexivity. Qed.

(** A float above zero is not [<= 0]. *)
Lemma ltb_zero_not_leb (d : float) :
  (0 <? d)%float = true -> (d <=? 0)%float = false.
Proof.
  rewrite ltb_spec, leb_spec, Prim2SF_zero.
  destruct (Prim2SF d) as [s | s | | s m e]; try destruct s; simpl;
    intros H; try discriminate H; reflexivity.
Qed.

(** A float [<= 0] is not above zero. *)
Lemma leb_zero_not_ltb (d : float) :
  (d <=? 0)%float = true -> (0 <? d)%float = false.
Proof.
  rewrite ltb_spec, leb_spec, Prim2SF_zero.
  destruct (Prim2SF d) as [s | s | | s m e]; try destruct s; simpl;
    intros H; try discriminate H; reflexivity.
Qed.

(** A quotient by NaN is NaN. *)
Lemma div_nan_r (x : float) : (x / nan)%float = nan.
Proof.
  apply Prim2SF_inj. rewrite div_spec.
  change (Prim2SF nan) with S754_nan.
  unfold SF64div, SFdiv. now destruct (Prim2SF x).
Qed.

Lemma ParseFloat_empty : ParseFloat "" = None.
Proof. reflexivity. Qed.

(** The library model on inputs whose results the Go documentation and
    tests give. *)
Lemma ParseFloat_examples :
  ParseFloat "3.5" = Some 3.5%float
  /\ ParseFloat "03.5" = Some 3.5%float
  /\ ParseFloat "+1E+2" = Some 100%float
  /\ ParseFloat ".5" = Some 0.5%float
  /\ ParseFloat "5." = Some 5%float
  /\ ParseFloat "-0" = Some (-0)%float
  /\ ParseFloat "0x1p-2" = Some 0.25%float
  /\ ParseFloat "1_23.50_0e+1_2" = Some 1.235e14%float
  /\ ParseFloat "NaN" = Some nan
  /\ ParseFloat "-Infinity" = Some neg_infinity
  /\ ParseFloat "1e-400" = Some 0%float
  /\ ParseFloat "1.7976931348623157e308" = Some 0x1.fffffffffffffp+1023%float
  /\ ParseFloat "1e400" = None
  /\ ParseFloat "1.7976931348623159e308" = None
  /\ ParseFloat "" = None
  /\ ParseFloat "." = None
  /\ ParseFloat "1e" = None
  /\ ParseFloat "0x1" = None
  /\ ParseFloat "1__0" = None
  /\ ParseFloat "_1" = None
  /\ ParseFloat "infx" = None
  /\ ParseFloat "+nan" = None
  /\ ParseFloat "N/A" = None
  /\ ParseFloat "01:02:03.5" = None
  /\ ParseFloat " 1" = None.
Proof. repeat split; vm_compute; reflexivity. Qed.

Lemma Round_examples :
  Round 2.5 = 3%float /\ Round (-2.5) = (-3)%float
  /\ Round 0.25 = 0%float /\ Round (-0.25) = (-0)%float
  /\ Round 0.5 = 1%float /\ Round 0x1.fffffffffffffp-2 = 0%float
  /\ Round 49.5 = 50%float /\ Round 49.25 = 49%float
  /\ Round 0x1p+60 = 0x1p+60%float
  /\ Round nan = nan /\ Round infinity = infinity
  /\ Round neg_infinity = neg_infinity.
Proof. repeat split; vm_compute; reflexivity. Qed.

Lemma strings_examples :
  Split "01:02:03.5" ":" = ["01"; "02"; "03.5"]
  /\ Split "1:02" ":" = ["1"; "02"]
  /\ Split "" ":" = [""]
  /\ Split ":" ":" = [""; ""]
  /\ SplitN "a=b=c" "=" 2 = ["a"; "b=c"]
  /\ SplitN "abc" "=" 2 = ["abc"]
  /\ SplitN "30000/1001" "/" 2 = ["30000"; "1001"]
  /\ TrimSpace "  frame " = "frame"
  /\ TrimSpace "   " = ""
  /\ Contains "x: Unknown encoder 'y'" "Unknown encoder" = true
  /\ Contains "unknown encoder" "Unknown encoder" = false
  /\ Contains "" "" = true.
Proof. repeat split; vm_compute; reflexivity. Qed.

(** Where the truncated value fits, [int(x)] is that value on every port. *)
Lemma float64_to_int_in_range (indef : float -> Z) (x : float) (z : Z) :
  truncate x = Some z -> minInt64 <= z <= maxInt64 -> float64_to_int indef x = z.
Proof.
  intros Ht Hr. unfold float64_to_int. rewrite Ht.
  destruct (minInt64 <=? z) eqn:H1; [| apply Z.leb_gt in H1; lia].
  destruct (z <=? maxInt64) eqn:H2; [reflexivity | apply Z.leb_gt in H2; lia].
Qed.

Lemma clamp_range (value lo hi : Z) : lo <= hi -> lo <= clamp value lo hi <= hi.
Proof.
  intros Hle. unfold clamp.
  destruct (value <? lo) eqn:Hlo; [lia |].
  destruct (value >? hi) eqn:Hhi; [lia |].
  apply Z.ltb_ge in Hlo. rewrite Z.gtb_ltb in Hhi. apply Z.ltb_ge in Hhi. lia.
Qed.

Lemma clamp_id (value lo hi : Z) : lo <= value <= hi -> clamp value lo hi = value.
Proof.
  intros H. unfold clamp.
  destruct (value <? lo) eqn:Hlo; [apply Z.ltb_lt in Hlo; lia |].
  destruct (value >? hi) eqn:Hhi; [rewrite Z.gtb_ltb in Hhi; apply Z.ltb_lt in Hhi; lia |].
  reflexivity.
Qed.

(** ** Progress normaliser *)

Section NormalizerFacts.

Variable indef : float -> Z.

Lemma progressFromFrame_range (value : string) (totalFrames : float) :
  0 <= progressFromFrame indef value totalFrames <= 100.
Proof.
  unfold progressFromFrame.
  destruct (totalFrames <=? 0)%float; [lia |].
  destruct (ParseFloat value); [apply clamp_range |]; lia.
Qed.

Lemma progressFromTimestamp_range (value : string) (durationSeconds unitsPerSecond : float) :
  0 <= progressFromTimestamp indef value durationSeconds unitsPerSecond <= 100.
Proof.
  unfold progressFromTimestamp.
  destruct ((durationSeconds <=? 0) || (unitsPerSecond <=? 0))%float; [lia |].
  destruct (ParseFloat value); [apply clamp_range |]; lia.
Qed.

Lemma progressFromTimecode_range (value : string) (durationSeconds : float) :
  0 <= progressFromTimecode indef value durationSeconds <= 100.
Proof.
  unfold progressFromTimecode.
  destruct (durationSeconds <=? 0)%float; [lia |].
  destruct (parseDurationSeconds value <=? 0)%float; [lia |].
  apply clamp_range; lia.
Qed.

(** C1, as the code has it. Whatever the raw value and the totals, the
    three normalisers return an integer between 0 and 100. The frame kind returns 0 when
    [totalFrames <= 0] or the raw value does not parse, and otherwise the
    clamped [int(math.Round(currentFrame / totalFrames * 100))]. The
    timestamp kind returns 0 when [durationSeconds <= 0], when
    [unitsPerSecond <= 0] or when the raw value does not parse, and
    otherwise the clamped
    [int(math.Round(raw / unitsPerSecond / durationSeconds * 100))]; the
    reader calls it with 1000 for the key "out_time_ms" and with 1000000
    for "out_time_us", and the frame kind for the key "frame". The
    conversion [int] is the truncated value whenever that fits the type,
    and the result is then the clamped rounded percentage of the
    specification ([clampedRound]); where it does not fit (or the float is
    NaN or an infinity) the value is the implementation's [indef], and only
    the bounds 0 and 100 are known. *)
Theorem progress_normalizers_spec
    (value : string) (totalFrames durationSeconds unitsPerSecond : float) :
  0 <= progressFromFrame indef value totalFrames <= 100
  /\ 0 <= progressFromTimestamp indef value durationSeconds unitsPerSecond <= 100
  /\ 0 <= progressFromTimecode indef value durationSeconds <= 100
  /\ ((totalFrames <=? 0)%float = true \/ ParseFloat value = None ->
      progressFromFrame indef value totalFrames = 0)
  /\ (forall currentFrame : float,
        (totalFrames <=? 0)%float = false ->
        ParseFloat value = Some currentFrame ->
        progressFromFrame indef value totalFrames
        = clamp (float64_to_int indef (Round (currentFrame / totalFrames * 100)%float)) 0 100)
  /\ ((durationSeconds <=? 0)%float = true \/ (unitsPerSecond <=? 0)%float = true
      \/ ParseFloat value = None ->
      progressFromTimestamp indef value durationSeconds unitsPerSecond = 0)
  /\ (forall raw : float,
        (durationSeconds <=? 0)%float = false ->
        (unitsPerSecond <=? 0)%float = false ->
        ParseFloat value = Some raw ->
        progressFromTimestamp indef value durationSeconds unitsPerSecond
        = clamp (float64_to_int indef
                   (Round (raw / unitsPerSecond / durationSeconds * 100)%float)) 0 100)
  /\ (forall (x : float) (z : Z),
        truncate x = Some z -> minInt64 <= z <= maxInt64 ->
        float64_to_int indef x = z)
  /\ (forall line p0 p1 : string,
        SplitN line "=" 2 = [p0; p1] ->
        (TrimSpace p0 = "frame" ->
         candidateOf indef durationSeconds totalFrames line
         = Some (progressFromFrame indef (TrimSpace p1) totalFrames))
        /\ (TrimSpace p0 = "out_time_ms" ->
            candidateOf indef durationSeconds totalFrames line
            = Some (progressFromTimestamp indef (TrimSpace p1) durationSeconds 1000))
        /\ (TrimSpace p0 = "out_time_us" ->
            candidateOf indef durationSeconds totalFrames line
            = Some (progressFromTimestamp indef (TrimSpace p1) durationSeconds 1000000)))
  /\ (forall (currentFrame : float) (rounded : Z),
        (totalFrames <=? 0)%float = false ->
        ParseFloat value = Some currentFrame ->
        truncate (Round (currentFrame / totalFrames * 100)%float) = Some rounded ->
        minInt64 <= rounded <= maxInt64 ->
        progressFromFrame indef value totalFrames = clamp rounded 0 100
        /\ clampedRound (currentFrame / totalFrames * 100)%float
           = Some (progressFromFrame indef value totalFrames))
  /\ (forall (raw : float) (rounded : Z),
        (durationSeconds <=? 0)%float = false ->
        (unitsPerSecond <=? 0)%float = false ->
        ParseFloat value = Some raw ->
        truncate (Round (raw / unitsPerSecond / durationSeconds * 100)%float)
        = Some rounded ->
        minInt64 <= rounded <= maxInt64 ->
        progressFromTimestamp indef value durationSeconds unitsPerSecond
        = clamp rounded 0 100
        /\ clampedRound (raw / unitsPerSecond / durationSeconds * 100)%float
           = Some (progressFromTimestamp indef value durationSeconds unitsPerSecond)).
Proof.
  split; [apply progressFromFrame_range |].
  split; [apply progressFromTimestamp_range |].
  split; [apply progressFromTimecode_range |].
  assert (Hfit : forall (x : float) (rounded : Z),
             truncate (Round x) = Some rounded -> minInt64 <= rounded <= maxInt64 ->
             clamp (float64_to_int indef (Round x)) 0 100 = clamp rounded 0 100
             /\ clampedRound x = Some (clamp (float64_to_int indef (Round x)) 0 100)).
  { intros x rounded Ht Hr.
    rewrite (float64_to_int_in_range indef (Round x) rounded Ht Hr).
    split; [reflexivity |]. unfold clampedRound. now rewrite Ht. }
  unfold progressFromFrame, progressFromTimestamp, roundToInt.
  repeat match goal with |- _ /\ _ => split end.
  - intros [H | H].
    + now rewrite H.
    + rewrite H. now destruct (totalFrames <=? 0)%float.
  - intros currentFrame Ht Hp. now rewrite Ht, Hp.
  - intros [H | [H | H]].
    + now rewrite H.
    + rewrite H, orb_true_r. reflexivity.
    + rewrite H. now destruct ((durationSeconds <=? 0) || (unitsPerSecond <=? 0))%float.
  - intros raw Hd Hu Hp. now rewrite Hd, Hu, Hp.
  - apply float64_to_int_in_range.
  - intros line p0 p1 H.
    repeat split; intros Hk; unfold candidateOf; now rewrite H, Hk.
  - intros currentFrame rounded Ht Hp Hr Hz. rewrite Ht, Hp. now apply Hfit.
  - intros raw rounded Hd Hu Hp Hr Hz. rewrite Hd, Hu, Hp. now apply Hfit.
Qed.

(** A total that is NaN passes the test [totalFrames <= 0]: the result is
    then the clamped [int(NaN)], 0 on the ports whose conversion gives a
    value that is not positive there (amd64, arm64). *)
Lemma progressFromFrame_nan_total (value : string) (currentFrame : float) :
  ParseFloat value = Some currentFrame ->
  progressFromFrame indef value nan = clamp (indef nan) 0 100.
Proof.
  intros Hp. unfold progressFromFrame, roundToInt.
  change (nan <=? 0)%float with false. cbv iota.
  rewrite Hp, div_nan_r. reflexivity.
Qed.

Lemma progressFromTimestamp_nan_duration (value : string) (raw unitsPerSecond : float) :
  (unitsPerSecond <=? 0)%float = false -> ParseFloat value = Some raw ->
  progressFromTimestamp indef value nan unitsPerSecond = clamp (indef nan) 0 100.
Proof.
  intros Hu Hp. unfold progressFromTimestamp, roundToInt.
  change (nan <=? 0)%float with false. rewrite Hu. cbn [orb].
  rewrite Hp, div_nan_r. reflexivity.
Qed.

End NormalizerFacts.

(** The normalisers on the amd64 port: the timestamps of a ten second
    input, a negative frame index, a frame index far beyond the total. *)
Lemma progress_normalizers_witness :
  progressFromTimestamp indef_amd64 "4900" 10 1000 = 49
  /\ progressFromTimestamp indef_amd64 "2000000" 10 1000000 = 20
  /\ progressFromFrame indef_amd64 "150" 300 = 50
  /\ progressFromFrame indef_amd64 "-3" 300 = 0
  /\ progressFromFrame indef_amd64 "900" 300 = 100
  /\ progressFromFrame indef_amd64 "150" 0 = 0
  /\ progressFromFrame indef_amd64 "150" (-300) = 0
  /\ progressFromFrame indef_amd64 "n/a" 300 = 0
  /\ progressFromTimestamp indef_amd64 "4900" 0 1000 = 0
  /\ progressFromTimestamp indef_amd64 "4900" 10 0 = 0
  /\ progressFromTimestamp indef_amd64 "" 10 1000 = 0
  /\ candidateOf indef_amd64 10 300 "out_time_us=2000000"
     = Some (progressFromTimestamp indef_amd64 "2000000" 10 1000000)
  /\ float64_to_int indef_amd64 49.5 = 49.
Proof.
  pose proof (progress_normalizers_spec indef_amd64 "4900" 300 10 1000) as H1.
  pose proof (progress_normalizers_spec indef_amd64 "2000000" 300 10 1000000) as H2.
  pose proof (progress_normalizers_spec indef_amd64 "150" 300 10 1000) as H3.
  pose proof (progress_normalizers_spec indef_amd64 "-3" 300 10 1000) as H4.
  pose proof (progress_normalizers_spec indef_amd64 "900" 300 10 1000) as H5.
  pose proof (progress_normalizers_spec indef_amd64 "150" 0 10 1000) as H6.
  pose proof (progress_normalizers_spec indef_amd64 "150" (-300) 10 1000) as H7.
  pose proof (progress_normalizers_spec indef_amd64 "n/a" 300 10 1000) as H8.
  pose proof (progress_normalizers_spec indef_amd64 "4900" 300 0 1000) as H9.
  pose proof (progress_normalizers_spec indef_amd64 "4900" 300 10 0) as H10.
  pose proof (progress_normalizers_spec indef_amd64 "" 300 10 1000) as H11.
  split. { destruct H1 as (_ & _ & _ & _ & _ & _ & H & _). now rewrite (H 4900%float). }
  split. { destruct H2 as (_ & _ & _ & _ & _ & _ & H & _). now rewrite (H 2000000%float). }
  split. { destruct H3 as (_ & _ & _ & _ & H & _). now rewrite (H 150%float). }
  split. { destruct H4 as (_ & _ & _ & _ & H & _). now rewrite (H (-3)%float). }
  split. { destruct H5 as (_ & _ & _ & _ & H & _). now rewrite (H 900%float). }
  split. { destruct H6 as (_ & _ & _ & H & _). apply H. now left. }
  split. { destruct H7 as (_ & _ & _ & H & _). apply H. now left. }
  split. { destruct H8 as (_ & _ & _ & H & _). apply H. now right. }
  split. { destruct H9 as (_ & _ & _ & _ & _ & H & _). apply H. now left. }
  split. { destruct H10 as (_ & _ & _ & _ & _ & H & _). apply H. right. now left. }
  split. { destruct H11 as (_ & _ & _ & _ & _ & H & _). apply H. right. now right. }
  split.
  { destruct H2 as (_ & _ & _ & _ & _ & _ & _ & _ & H & _).
    destruct (H "out_time_us=2000000" "out_time_us" "2000000" eq_refl) as (_ & _ & Hus).
    apply Hus. reflexivity. }
  destruct H1 as (_ & _ & _ & _ & _ & _ & _ & H & _).
  apply H; [reflexivity |]. unfold minInt64, maxInt64. simpl. lia.
Defined.

(** C1 as stated fails where the rounded percentage does not fit the type
    [int]: for the frame "1e300" of a total of 1 the percentage is 1e302,
    which clamped is 100, but the conversion of the amd64 port gives the
    smallest [int], and the clamp then gives 0. The same for a timestamp. *)
Lemma progress_normalizers_overflow_counterexample :
  exists currentFrame : float,
    ParseFloat "1e300" = Some currentFrame
    /\ (1 <=? 0)%float = false
    /\ clampedRound (currentFrame / 1 * 100)%float = Some 100
    /\ progressFromFrame indef_amd64 "1e300" 1 = 0
    /\ clampedRound (currentFrame / 1000 / 1 * 100)%float = Some 100
    /\ progressFromTimestamp indef_amd64 "1e300" 1 1000 = 0.
Proof.
  eexists. split; [vm_compute; reflexivity |].
  repeat split; vm_compute; reflexivity.
Qed.

(** ** Duration strings *)

Lemma parseColonDuration_not_three (raw : string) :
  length (Split raw ":") <> 3%nat -> parseColonDuration raw = 0%float.
Proof.
  unfold parseColonDuration.
  destruct (Split raw ":") as [| p0 [| p1 [| p2 [| p3 rest]]]]; simpl; intros H;
    try reflexivity.
  now contradiction H.
Qed.

(** C3. [parseDurationSeconds] first tries the plain decimal form and
    returns its value when that parses; only when it does not parse and the
    string contains a colon is [parseColonDuration] tried, which gives 0
    unless [strings.Split] on ":" yields exactly three parts, each of which
    parses, and then returns hours * 3600 + minutes * 60 + seconds.
    "01:02:03.5" gives 3723.5 and the two-part "1:02" gives 0. *)
Theorem parseDurationSeconds_spec (raw : string) :
  (forall value : float, ParseFloat raw = Some value -> parseDurationSeconds raw = value)
  /\ (ParseFloat raw = None -> Contains raw ":" = false ->
      parseDurationSeconds raw = 0%float)
  /\ (ParseFloat raw = None -> Contains raw ":" = true ->
      parseDurationSeconds raw = parseColonDuration raw)
  /\ (length (Split raw ":") <> 3%nat -> parseColonDuration raw = 0%float)
  /\ (forall p0 p1 p2 : string, Split raw ":" = [p0; p1; p2] ->
      ParseFloat p0 = None \/ ParseFloat p1 = None \/ ParseFloat p2 = None ->
      parseColonDuration raw = 0%float)
  /\ (forall (p0 p1 p2 : string) (hours minutes seconds : float),
      Split raw ":" = [p0; p1; p2] ->
      ParseFloat p0 = Some hours -> ParseFloat p1 = Some minutes ->
      ParseFloat p2 = Some seconds ->
      parseColonDuration raw = (hours * 3600 + minutes * 60 + seconds)%float)
  /\ parseDurationSeconds "01:02:03.5" = 3723.5%float
  /\ parseDurationSeconds "1:02" = 0%float.
Proof.
  split.
  { intros value Hp. unfold parseDurationSeconds.
    destruct (String.eqb_spec raw "") as [-> | _].
    - rewrite ParseFloat_empty in Hp. discriminate Hp.
    - now rewrite Hp. }
  split.
  { intros Hp Hc. unfold parseDurationSeconds. rewrite Hp, Hc.
    now destruct (String.eqb raw ""). }
  split.
  { intros Hp Hc. unfold parseDurationSeconds.
    destruct (String.eqb_spec raw "") as [-> | _].
    - discriminate Hc.
    - now rewrite Hp, Hc. }
  split; [apply parseColonDuration_not_three |].
  split.
  { intros p0 p1 p2 Hs H. unfold parseColonDuration. rewrite Hs.
    destruct (ParseFloat p0); [| reflexivity].
    destruct (ParseFloat p1); [| reflexivity].
    destruct (ParseFloat p2); [| reflexivity].
    destruct H as [H | [H | H]]; discriminate H. }
  split.
  { intros p0 p1 p2 hours minutes seconds Hs H0 H1 H2.
    unfold parseColonDuration. now rewrite Hs, H0, H1, H2. }
  split; reflexivity.
Qed.

(** The cases of [parseDurationSeconds_spec] on a plain decimal, on the
    colon form, on a two-part colon string and on a word. *)
Lemma parseDurationSeconds_witness :
  parseDurationSeconds "12.5" = 12.5%float
  /\ parseDurationSeconds "soon" = 0%float
  /\ parseDurationSeconds "00:00:05.00" = parseColonDuration "00:00:05.00"
  /\ parseColonDuration "1:02" = 0%float
  /\ parseColonDuration "1:x:3" = 0%float
  /\ parseColonDuration "00:00:05.00" = (0 * 3600 + 0 * 60 + 5)%float.
Proof.
  destruct (parseDurationSeconds_spec "12.5") as (H1 & _).
  destruct (parseDurationSeconds_spec "soon") as (_ & H2 & _).
  destruct (parseDurationSeconds_spec "00:00:05.00") as (_ & _ & H3 & _ & _ & H6 & _).
  destruct (parseDurationSeconds_spec "1:02") as (_ & _ & _ & H4 & _).
  destruct (parseDurationSeconds_spec "1:x:3") as (_ & _ & _ & _ & H5 & _).
  split. { apply H1. reflexivity. }
  split. { apply H2; reflexivity. }
  split. { apply H3; reflexivity. }
  split. { apply H4. vm_compute. intros H. discriminate H. }
  split. { apply (H5 "1" "x" "3"); [reflexivity |]. right. left. reflexivity. }
  apply (H6 "00" "00" "05.00"); reflexivity.
Defined.

(** ** Duration and frame estimator *)

Lemma parseFraction_spec (raw : string) :
  (Contains raw "/" = false -> ParseFloat raw = None -> parseFraction raw = 0%float)
  /\ (forall value : float, Contains raw "/" = false -> ParseFloat raw = Some value ->
      parseFraction raw = value)
  /\ (forall p0 p1 : string, Contains raw "/" = true -> SplitN raw "/" 2 = [p0; p1] ->
      (ParseFloat p0 = None \/ ParseFloat p1 = None -> parseFraction raw = 0%float)
      /\ (forall numerator denominator : float,
            ParseFloat p0 = Some numerator -> ParseFloat p1 = Some denominator ->
            ((denominator =? 0)%float = true -> parseFraction raw = 0%float)
            /\ ((denominator =? 0)%float = false ->
                parseFraction raw = (numerator / denominator)%float))).
Proof.
  unfold parseFraction. split; [| split].
  - intros Hc Hp. rewrite Hc, Hp. now destruct (String.eqb raw "").
  - intros value Hc Hp. destruct (String.eqb_spec raw "") as [-> | _].
    + rewrite ParseFloat_empty in Hp. discriminate Hp.
    + now rewrite Hc, Hp.
  - intros p0 p1 Hc Hs. destruct (String.eqb_spec raw "") as [-> | _].
    + discriminate Hc.
    + rewrite Hc, Hs. simpl. split.
      * intros [H | H]; rewrite H; [reflexivity |].
        now destruct (ParseFloat p0).
      * intros numerator denominator H0 H1. rewrite H0, H1.
        split; intros H; now rewrite H.
Qed.

Lemma durationFromFrames_spec (nbFrames avgFrameRate : string) :
  (ParseFloat nbFrames = None -> durationFromFrames nbFrames avgFrameRate = 0%float)
  /\ (forall frames : float, ParseFloat nbFrames = Some frames ->
      ((frames <=? 0)%float = true -> durationFromFrames nbFrames avgFrameRate = 0%float)
      /\ ((parseFraction avgFrameRate <=? 0)%float = true ->
          durationFromFrames nbFrames avgFrameRate = 0%float)
      /\ ((frames <=? 0)%float = false ->
          (parseFraction avgFrameRate <=? 0)%float = false ->
          durationFromFrames nbFrames avgFrameRate
          = (frames / parseFraction avgFrameRate)%float)).
Proof.
  unfold durationFromFrames. split.
  - intros H. now rewrite H.
  - intros frames H. rewrite H. repeat split.
    + intros Hf. now rewrite Hf.
    + intros Hr. rewrite Hr. now destruct (frames <=? 0)%float.
    + intros Hf Hr. now rewrite Hf, Hr.
Qed.

(** C4, as the code has it. With [d] the container's duration field read by
    [parseDurationSeconds] (0 when it does not parse): the estimate is [d]
    unless [d <= 0], so whenever [d > 0]; when [d <= 0] and a primary
    stream exists it is the stream's own duration field [d2] unless
    [d2 <= 0], and then the stream's frame count divided by its average
    frame rate, which is 0 when the count does not parse or is [<= 0] or
    the rate is [<= 0]; the rate is a decimal or a fraction, 0 when a part
    does not parse or the denominator is zero. With both durations empty,
    nb_frames "300" and avg_frame_rate "30/1" the estimate is 10. *)
Theorem estimateDuration_spec (metadata : ffprobeData) :
  let d := parseDurationSeconds (FormatDuration (Format metadata)) in
  ((d <=? 0)%float = false -> estimateDuration metadata = d)
  /\ ((0 <? d)%float = true -> estimateDuration metadata = d)
  /\ (firstVideoStream (Streams metadata) = None -> estimateDuration metadata = d)
  /\ (forall primaryStream : ffprobeStream,
        (d <=? 0)%float = true ->
        firstVideoStream (Streams metadata) = Some primaryStream ->
        let d2 := parseDurationSeconds (Duration primaryStream) in
        ((d2 <=? 0)%float = false -> estimateDuration metadata = d2)
        /\ ((0 <? d2)%float = true -> estimateDuration metadata = d2)
        /\ ((d2 <=? 0)%float = true ->
            estimateDuration metadata
            = durationFromFrames (NbFrames primaryStream) (AvgFrameRate primaryStream)))
  /\ (forall nbFrames avgFrameRate : string,
        (ParseFloat nbFrames = None -> durationFromFrames nbFrames avgFrameRate = 0%float)
        /\ (forall frames : float, ParseFloat nbFrames = Some frames ->
            ((frames <=? 0)%float = true ->
             durationFromFrames nbFrames avgFrameRate = 0%float)
            /\ ((parseFraction avgFrameRate <=? 0)%float = true ->
                durationFromFrames nbFrames avgFrameRate = 0%float)
            /\ ((frames <=? 0)%float = false ->
                (parseFraction avgFrameRate <=? 0)%float = false ->
                durationFromFrames nbFrames avgFrameRate
                = (frames / parseFraction avgFrameRate)%float)))
  /\ (forall raw : string,
        (Contains raw "/" = false -> ParseFloat raw = None -> parseFraction raw = 0%float)
        /\ (forall value : float, Contains raw "/" = false ->
            ParseFloat raw = Some value -> parseFraction raw = value)
        /\ (forall p0 p1 : string, Contains raw "/" = true ->
            SplitN raw "/" 2 = [p0; p1] ->
            (ParseFloat p0 = None \/ ParseFloat p1 = None -> parseFraction raw = 0%float)
            /\ (forall numerator denominator : float,
                  ParseFloat p0 = Some numerator -> ParseFloat p1 = Some denominator ->
                  ((denominator =? 0)%float = true -> parseFraction raw = 0%float)
                  /\ ((denominator =? 0)%float = false ->
                      parseFraction raw = (numerator / denominator)%float))))
  /\ estimateDuration (probeOf "" "" "300" "30/1") = 10%float.
Proof.
  intros d.
  assert (Ha : (d <=? 0)%float = false -> estimateDuration metadata = d).
  { intros H. unfold estimateDuration. fold d. rewrite H.
    now destruct (firstVideoStream (Streams metadata)). }
  split; [exact Ha |].
  split; [intros H; apply Ha, ltb_zero_not_leb, H |].
  split.
  { intros H. unfold estimateDuration. now rewrite H. }
  split.
  { intros primaryStream Hd Hs d2.
    assert (Hb : (d2 <=? 0)%float = false -> estimateDuration metadata = d2).
    { intros H. unfold estimateDuration. fold d. rewrite Hs, Hd. fold d2. now rewrite H. }
    split; [exact Hb |].
    split; [intros H; apply Hb, ltb_zero_not_leb, H |].
    intros H. unfold estimateDuration. fold d. rewrite Hs, Hd. fold d2. now rewrite H. }
  split; [exact durationFromFrames_spec |].
  split; [exact parseFraction_spec |].
  reflexivity.
Qed.

(** The cases of [estimateDuration_spec]: a container duration, the stream's
    duration, the frame count over the rate, and no stream at all. *)
Lemma estimateDuration_witness :
  estimateDuration (probeOf "12.5" "7" "300" "30/1") = 12.5%float
  /\ estimateDuration (probeOf "N/A" "00:00:07" "300" "30/1")
     = parseDurationSeconds "00:00:07"
  /\ estimateDuration (probeOf "0" "" "300" "30000/1001")
     = durationFromFrames "300" "30000/1001"
  /\ durationFromFrames "300" "30000/1001" = (300 / parseFraction "30000/1001")%float
  /\ parseFraction "30000/1001" = (30000 / 1001)%float
  /\ parseFraction "30/0" = 0%float
  /\ estimateDuration {| Format := {| FormatDuration := "-1"; FormatSize := "";
                                      FormatBitRate := "" |};
                         Streams := [] |} = (-1)%float.
Proof.
  pose proof (estimateDuration_spec (probeOf "12.5" "7" "300" "30/1")) as H1.
  pose proof (estimateDuration_spec (probeOf "N/A" "00:00:07" "300" "30/1")) as H2.
  pose proof (estimateDuration_spec (probeOf "0" "" "300" "30000/1001")) as H3.
  pose proof (estimateDuration_spec
                {| Format := {| FormatDuration := "-1"; FormatSize := "";
                                FormatBitRate := "" |}; Streams := [] |}) as H4.
  cbv zeta in H1, H2, H3, H4.
  destruct H1 as (_ & H1 & _).
  destruct H2 as (_ & _ & _ & H2 & _).
  destruct H3 as (_ & _ & _ & H3 & H3f & H3p & _).
  destruct H4 as (_ & _ & H4 & _).
  destruct (H2 _ eq_refl eq_refl) as (_ & H2' & _).
  destruct (H3 _ eq_refl eq_refl) as (_ & _ & H3').
  destruct (H3f "300" "30000/1001") as (_ & H3f').
  destruct (H3f' 300%float eq_refl) as (_ & _ & H3f'').
  destruct (H3p "30000/1001") as (_ & _ & H5).
  destruct (H5 "30000" "1001" eq_refl eq_refl) as (_ & H5').
  destruct (H5' 30000%float 1001%float eq_refl eq_refl) as (_ & H5'').
  destruct (H3p "30/0") as (_ & _ & H6).
  destruct (H6 "30" "0" eq_refl eq_refl) as (_ & H6').
  destruct (H6' 30%float 0%float eq_refl eq_refl) as (H6'' & _).
  split. { apply H1. reflexivity. }
  split. { apply H2'. reflexivity. }
  split. { apply H3'. reflexivity. }
  split. { apply H3f''; reflexivity. }
  split. { apply H5''. reflexivity. }
  split. { apply H6''. reflexivity. }
  apply H4. reflexivity.
Defined.

(** C4 as stated fails on a field that parses to NaN ([strconv.ParseFloat]
    accepts "NaN"): the container's duration is then not above zero and the
    stream's own duration is 12, yet the estimate is not 12 but the NaN,
    which the test [durationSeconds <= 0] lets through. *)
Lemma estimateDuration_nan_counterexample :
  let metadata := probeOf "NaN" "12" "300" "30/1" in
  (0 <? parseDurationSeconds (FormatDuration (Format metadata)))%float = false
  /\ (exists primaryStream : ffprobeStream,
        firstVideoStream (Streams metadata) = Some primaryStream
        /\ parseDurationSeconds (Duration primaryStream) = 12%float)
  /\ estimateDuration metadata <> 12%float
  /\ is_nan (estimateDuration metadata) = true.
Proof.
  cbv zeta. split; [reflexivity |].
  split; [eexists; split; reflexivity |].
  split; [| reflexivity].
  intros H. apply (f_equal is_nan) in H. discriminate H.
Qed.

(** C5, as the code has it. [parseFrameCount] returns the stream's frame
    count when it parses to a value above 0. Otherwise, with [rate] the
    average frame rate read by [parseFraction] and [duration] the stream's
    own duration field read by [parseDurationSeconds] (not the container's
    duration and not the estimate of [estimateDuration]): 0 when
    [rate <= 0], 0 when [duration <= 0], and [duration * rate] in the other
    cases, so whenever both are above 0. Without a stream it is 0. A
    container duration alone does not yield a frame total. *)
Theorem parseFrameCount_spec (stream : ffprobeStream) :
  let rate := parseFraction (AvgFrameRate stream) in
  let duration := parseDurationSeconds (Duration stream) in
  (forall frames : float,
      ParseFloat (NbFrames stream) = Some frames -> (0 <? frames)%float = true ->
      parseFrameCount (Some stream) = frames)
  /\ ((ParseFloat (NbFrames stream) = None
       \/ exists frames : float,
            ParseFloat (NbFrames stream) = Some frames /\ (0 <? frames)%float = false) ->
      ((rate <=? 0)%float = true -> parseFrameCount (Some stream) = 0%float)
      /\ ((duration <=? 0)%float = true -> parseFrameCount (Some stream) = 0%float)
      /\ ((rate <=? 0)%float = false -> (duration <=? 0)%float = false ->
          parseFrameCount (Some stream) = (duration * rate)%float)
      /\ ((0 <? rate)%float = true -> (0 <? duration)%float = true ->
          parseFrameCount (Some stream) = (duration * rate)%float))
  /\ parseFrameCount None = 0%float
  /\ estimateFrames (probeOf "20" "" "" "30/1") = 0%float
  /\ estimateDuration (probeOf "20" "" "" "30/1") = 20%float
  /\ estimateFrames (probeOf "" "20" "" "30/1") = 600%float.
Proof.
  intros rate duration. split.
  { intros frames Hp Hf. unfold parseFrameCount. now rewrite Hp, Hf. }
  split.
  { intros Hn.
    assert (Hby : parseFrameCount (Some stream)
                  = if (rate <=? 0)%float then 0%float
                    else if (duration <=? 0)%float then 0%float
                         else (duration * rate)%float).
    { unfold parseFrameCount. fold rate duration.
      destruct Hn as [Hn | (frames & Hn & Hf)]; rewrite Hn; [reflexivity |].
      now rewrite Hf. }
    assert (Hc : (rate <=? 0)%float = false -> (duration <=? 0)%float = false ->
                 parseFrameCount (Some stream) = (duration * rate)%float).
    { intros Hr Hd. now rewrite Hby, Hr, Hd. }
    split; [intros Hr; now rewrite Hby, Hr |].
    split; [intros Hd; rewrite Hby, Hd; now destruct (rate <=? 0)%float |].
    split; [exact Hc |].
    intros Hr Hd. apply Hc; now apply ltb_zero_not_leb. }
  repeat split.
Qed.

(** The cases of [parseFrameCount_spec]: a reported count, a count of 0 with
    a rate and the stream's duration, and a missing rate. *)
Lemma parseFrameCount_witness :
  parseFrameCount
    (Some {| CodecName := "h264"; Width := 640; Height := 480; Duration := "10";
             NbFrames := "300"; AvgFrameRate := "25" |}) = 300%float
  /\ parseFrameCount
       (Some {| CodecName := "h264"; Width := 640; Height := 480; Duration := "10";
                NbFrames := "0"; AvgFrameRate := "25" |}) = (10 * 25)%float
  /\ parseFrameCount
       (Some {| CodecName := "h264"; Width := 640; Height := 480; Duration := "10";
                NbFrames := "N/A"; AvgFrameRate := "0/0" |}) = 0%float.
Proof.
  pose proof (parseFrameCount_spec
                {| CodecName := "h264"; Width := 640; Height := 480; Duration := "10";
                   NbFrames := "300"; AvgFrameRate := "25" |}) as H1.
  pose proof (parseFrameCount_spec
                {| CodecName := "h264"; Width := 640; Height := 480; Duration := "10";
                   NbFrames := "0"; AvgFrameRate := "25" |}) as H2.
  pose proof (parseFrameCount_spec
                {| CodecName := "h264"; Width := 640; Height := 480; Duration := "10";
                   NbFrames := "N/A"; AvgFrameRate := "0/0" |}) as H3.
  cbv zeta in H1, H2, H3.
  destruct H1 as (H1 & _).
  destruct H2 as (_ & H2 & _).
  destruct H3 as (_ & H3 & _).
  destruct H2 as (_ & _ & _ & H2).
  { right. exists 0%float. split; reflexivity. }
  destruct H3 as (H3 & _).
  { left. reflexivity. }
  split. { apply (H1 300%float); reflexivity. }
  split. { apply H2; reflexivity. }
  apply H3. reflexivity.
Defined.

(** C5 as stated fails on a rate that parses to NaN: the frame count does
    not parse, the rate is not above 0, yet the result is not 0 but the NaN
    product, which the test [rate <= 0] lets through. *)
Lemma parseFrameCount_nan_counterexample :
  let stream := {| CodecName := "h264"; Width := 640; Height := 480; Duration := "10";
                   NbFrames := ""; AvgFrameRate := "NaN" |} in
  ParseFloat (NbFrames stream) = None
  /\ (0 <? parseFraction (AvgFrameRate stream))%float = false
  /\ parseFrameCount (Some stream) <> 0%float
  /\ is_nan (parseFrameCount (Some stream)) = true.
Proof.
  cbv zeta. split; [reflexivity |]. split; [reflexivity |].
  split; [| reflexivity].
  intros H. apply (f_equal is_nan) in H. discriminate H.
Qed.

(** ** Emission throttling *)

Lemma wrap64_id (z : Z) : minInt64 <= z <= maxInt64 -> wrap64 z = z.
Proof.
  unfold wrap64, minInt64, maxInt64.
  change (2 ^ 63) with 9223372036854775808.
  change (2 ^ 64) with 18446744073709551616.
  intros H. rewrite Z.mod_small; lia.
Qed.

Lemma shouldEmitProgress_gt (current last : Z) :
  shouldEmitProgress current last = true -> last < current.
Proof.
  unfold shouldEmitProgress.
  destruct (current <=? last) eqn:H; [discriminate |].
  intros _. apply Z.leb_gt in H. exact H.
Qed.

Lemma shouldEmitProgress_iff (current last : Z) :
  minInt64 <= current <= maxInt64 -> minInt64 <= last <= maxInt64 ->
  shouldEmitProgress current last = true
  <-> last < current /\ (100 <= current \/ last + progressBroadcastStep <= current).
Proof.
  intros Hc Hl. unfold shouldEmitProgress, progressBroadcastStep.
  destruct (current <=? last) eqn:H1.
  { apply Z.leb_le in H1. split; [discriminate | lia]. }
  apply Z.leb_gt in H1.
  destruct (current >=? 100) eqn:H2.
  { rewrite Z.geb_leb in H2. apply Z.leb_le in H2. split; [lia | reflexivity]. }
  rewrite Z.geb_leb in H2. apply Z.leb_gt in H2.
  rewrite wrap64_id.
  - rewrite Z.geb_leb, Z.leb_le. lia.
  - unfold minInt64, maxInt64 in *.
    change (2 ^ 63) with 9223372036854775808 in *. lia.
Qed.

Lemma shouldEmitProgress_100 (last : Z) :
  last < 100 -> shouldEmitProgress 100 last = true.
Proof.
  intros H. unfold shouldEmitProgress.
  destruct (100 <=? last) eqn:H1; [apply Z.leb_le in H1; lia | reflexivity].
Qed.

(** The first candidate of a reader always passes: [lastReported] starts
    at minus the step. *)
Lemma shouldEmitProgress_first (current : Z) :
  0 <= current -> shouldEmitProgress current (- progressBroadcastStep) = true.
Proof.
  intros H. change (- progressBroadcastStep) with (-5).
  unfold shouldEmitProgress, progressBroadcastStep.
  destruct (current <=? -5) eqn:H1; [apply Z.leb_le in H1; lia |].
  destruct (current >=? 100); [reflexivity |].
  change (wrap64 (-5 + 5)) with 0.
  rewrite Z.geb_leb. apply Z.leb_le. exact H.
Qed.

Lemma throttle_above (candidates : list Z) :
  forall last : Z, Forall (Z.lt last) (throttle last candidates).
Proof.
  induction candidates as [| c rest IH]; intros last; simpl; [constructor |].
  destruct (shouldEmitProgress c last) eqn:He; [| apply IH].
  apply shouldEmitProgress_gt in He.
  constructor; [exact He |].
  eapply Forall_impl; [| apply (IH c)].
  intros a Ha. simpl in Ha. lia.
Qed.

Lemma throttle_increasing (candidates : list Z) :
  forall last : Z, StronglySorted Z.lt (throttle last candidates).
Proof.
  induction candidates as [| c rest IH]; intros last; simpl; [constructor |].
  destruct (shouldEmitProgress c last); [| apply IH].
  constructor; [apply IH | apply throttle_above].
Qed.

Lemma throttle_delivers_100 (candidates : list Z) :
  forall last : Z,
    StronglySorted Z.le candidates -> last < 100 -> In 100 candidates ->
    In 100 (throttle last candidates).
Proof.
  induction candidates as [| c rest IH]; intros last Hs Hl Hin; [contradiction |].
  apply StronglySorted_inv in Hs. destruct Hs as [Hs Hall].
  simpl. destruct Hin as [-> | Hin].
  - rewrite shouldEmitProgress_100 by exact Hl. now left.
  - assert (Hc : c <= 100).
    { rewrite Forall_forall in Hall. apply Hall. exact Hin. }
    destruct (shouldEmitProgress c last) eqn:He.
    + destruct (Z.eq_dec c 100) as [-> | Hne]; [now left |].
      right. apply IH; [exact Hs | lia | exact Hin].
    + apply IH; assumption.
Qed.

(** ** The reader goroutine *)

Section ReaderFacts.

Variable indef : float -> Z.
Variables originalName outputName : string.
Variables durationSeconds totalFrames : float.

Lemma candidateOf_range (line : string) (c : Z) :
  candidateOf indef durationSeconds totalFrames line = Some c -> 0 <= c <= 100.
Proof.
  unfold candidateOf.
  destruct (SplitN line "=" 2) as [| p0 [| p1 [| p2 rest]]]; try discriminate.
  destruct (String.eqb (TrimSpace p0) "frame");
    [intros [= <-]; apply progressFromFrame_range |].
  destruct (String.eqb (TrimSpace p0) "out_time_ms");
    [intros [= <-]; apply progressFromTimestamp_range |].
  destruct (String.eqb (TrimSpace p0) "out_time_us");
    [intros [= <-]; apply progressFromTimestamp_range |].
  destruct (String.eqb (TrimSpace p0) "out_time");
    [intros [= <-]; apply progressFromTimecode_range |].
  discriminate.
Qed.

Lemma classifyLine_range (line : string) (c : Z) :
  classifyLine indef durationSeconds totalFrames line = Candidate c -> 0 <= c <= 100.
Proof.
  unfold classifyLine.
  destruct (candidateOf indef durationSeconds totalFrames line) as [c' |] eqn:Hc.
  - intros [= <-]. eapply candidateOf_range, Hc.
  - destruct (SplitN line "=" 2) as [| p0 [| p1 [| p2 rest]]]; try discriminate.
    destruct (_ && _); discriminate.
Qed.

Lemma readerStep_classify (last : Z) (w : World) (line : string) :
  readerStep indef originalName outputName durationSeconds totalFrames (last, w) line
  = match classifyLine indef durationSeconds totalFrames line with
    | Candidate c =>
        if shouldEmitProgress c last
        then (c, emitProgress originalName c outputName false w)
        else (last, w)
    | TerminalMarker => (last, emitProgress originalName 100 outputName true w)
    | Ignored => (last, w)
    end.
Proof.
  unfold readerStep, classifyLine, candidateOf.
  destruct (SplitN line "=" 2) as [| p0 [| p1 [| p2 rest]]]; try reflexivity.
  destruct (String.eqb (TrimSpace p0) "frame"); [reflexivity |].
  destruct (String.eqb (TrimSpace p0) "out_time_ms"); [reflexivity |].
  destruct (String.eqb (TrimSpace p0) "out_time_us"); [reflexivity |].
  destruct (String.eqb (TrimSpace p0) "out_time"); [reflexivity |].
  destruct (String.eqb (TrimSpace p0) "progress"); [| reflexivity].
  destruct (String.eqb (TrimSpace p1) "end"); reflexivity.
Qed.

Lemma emitProgress_sent (c : Z) (completed : bool) (w : World) (sent : list Broadcast) :
  socket w = Some sent -> 0 <= c <= 100 ->
  emitProgress originalName c outputName completed w
  = setSocket w (Some (sent ++ [progressEvent originalName outputName (c, completed)])%list).
Proof.
  intros Hs Hc. unfold emitProgress, progressEvent. rewrite Hs, clamp_id by exact Hc.
  reflexivity.
Qed.

Lemma setSocket_same (w : World) (sent : list Broadcast) :
  socket w = Some sent -> setSocket w (Some sent) = w.
Proof. destruct w. simpl. now intros ->. Qed.

Lemma reader_fold_events (lines : list string) :
  forall (last : Z) (w : World) (sent : list Broadcast),
    socket w = Some sent ->
    snd (fold_left (readerStep indef originalName outputName durationSeconds totalFrames)
           lines (last, w))
    = setSocket w
        (Some (sent ++ map (progressEvent originalName outputName)
                         (readerTrace last
                            (map (classifyLine indef durationSeconds totalFrames) lines)))%list).
Proof.
  induction lines as [| line rest IH]; intros last w sent Hs.
  - simpl. rewrite app_nil_r. symmetry. now apply setSocket_same.
  - cbn [fold_left map]. rewrite readerStep_classify.
    destruct (classifyLine indef durationSeconds totalFrames line) as [c | |] eqn:Hk;
      cbn [readerTrace].
    + destruct (shouldEmitProgress c last); [| now apply IH].
      rewrite (emitProgress_sent c false w sent Hs (classifyLine_range _ _ Hk)).
      erewrite IH by reflexivity. cbn [map]. now rewrite <- app_assoc.
    + rewrite (emitProgress_sent 100 true w sent Hs) by lia.
      erewrite IH by reflexivity. cbn [map]. now rewrite <- app_assoc.
    + now apply IH.
Qed.

End ReaderFacts.

Lemma readerTrace_throttle (kinds : list lineKind) :
  forall last : Z,
    map fst (filter (fun e => negb (snd e)) (readerTrace last kinds))
    = throttle last (candidatesOf kinds).
Proof.
  induction kinds as [| k rest IH]; intros last; [reflexivity |].
  destruct k as [c | |]; simpl.
  - destruct (shouldEmitProgress c last); simpl; now rewrite IH.
  - apply IH.
  - apply IH.
Qed.

Lemma readerTrace_terminal (kinds : list lineKind) :
  forall last : Z, In TerminalMarker kinds -> In (100, true) (readerTrace last kinds).
Proof.
  induction kinds as [| k rest IH]; intros last Hin; [contradiction |].
  destruct Hin as [-> | Hin]; [now left |].
  destruct k as [c | |]; simpl.
  - destruct (shouldEmitProgress c last); [right |]; now apply IH.
  - right. now apply IH.
  - now apply IH.
Qed.

(** C2. [shouldEmitProgress] forwards a candidate exactly when it is above
    the last forwarded value and either at least 100 or at least 5 above
    it. So the values the throttle forwards are strictly increasing, for
    every sequence of candidates and from every starting value, and a
    non-decreasing sequence that reaches 100 gets its 100 forwarded. The
    reader broadcasts, after what was sent before, exactly its trace: the
    forwarded candidates of its lines, throttled from -5, and one
    completed 100 for every "progress=end" line, whatever was forwarded
    before. *)
Theorem throttle_spec :
  (forall current last : Z,
      minInt64 <= current <= maxInt64 -> minInt64 <= last <= maxInt64 ->
      shouldEmitProgress current last = true
      <-> last < current /\ (100 <= current \/ last + 5 <= current))
  /\ (forall (last : Z) (candidates : list Z),
        StronglySorted Z.lt (throttle last candidates)
        /\ Forall (Z.lt last) (throttle last candidates))
  /\ (forall (last : Z) (candidates : list Z),
        StronglySorted Z.le candidates -> last < 100 -> In 100 candidates ->
        In 100 (throttle last candidates))
  /\ (forall (indef : float -> Z) (originalName outputName : string)
        (durationSeconds totalFrames : float) (lines : list string)
        (w : World) (sent : list Broadcast),
        socket w = Some sent ->
        let kinds := map (classifyLine indef durationSeconds totalFrames) lines in
        let trace := readerTrace (- progressBroadcastStep) kinds in
        sentEvents (snd (progressReader indef originalName outputName
                           durationSeconds totalFrames lines w))
        = (sent ++ map (progressEvent originalName outputName) trace)%list
        /\ map fst (filter (fun e => negb (snd e)) trace)
           = throttle (- progressBroadcastStep) (candidatesOf kinds)
        /\ (In TerminalMarker kinds -> In (100, true) trace))
  /\ (forall (indef : float -> Z) (originalName outputName : string)
        (durationSeconds totalFrames : float) (lastReported : Z) (w : World),
        readerStep indef originalName outputName durationSeconds totalFrames
          (lastReported, w) "progress=end"
        = (lastReported, emitProgress originalName 100 outputName true w)).
Proof.
  split; [exact shouldEmitProgress_iff |].
  split; [intros last candidates; split;
          [apply throttle_increasing | apply throttle_above] |].
  split; [intros last candidates; apply throttle_delivers_100 |].
  split.
  { intros indef originalName outputName durationSeconds totalFrames lines w sent Hs
      kinds trace.
    split; [| split].
    - unfold progressReader. erewrite reader_fold_events by exact Hs.
      reflexivity.
    - apply readerTrace_throttle.
    - apply readerTrace_terminal. }
  intros. reflexivity.
Qed.

(** The throttle on the values 20, 49, 52, 61, 100 and on a late 100, and
    the reader on the progress lines of a ten second input. *)
Lemma throttle_witness :
  shouldEmitProgress 49 20 = true
  /\ In 100 (throttle 96 [97; 98; 100])
  /\ sentEvents
       (snd (progressReader indef_amd64 "a.mov" "u.mp4" 10 300
               ["out_time_ms=2000"; "out_time_ms=4900"; "out_time_ms=5200";
                "out_time_ms=6100"; "out_time_ms=10000"; "progress=end"]
               (setSocket (initialWorld ∅) (Some []))))
     = map (progressEvent "a.mov" "u.mp4")
         [(20, false); (49, false); (61, false); (100, false); (100, true)].
Proof.
  destruct throttle_spec as (H1 & _ & H3 & H4 & _).
  split.
  { apply H1; [unfold minInt64, maxInt64; simpl; lia .. |]. lia. }
  split.
  { apply H3; [| lia | simpl; tauto].
    repeat constructor; lia. }
  destruct (H4 indef_amd64 "a.mov" "u.mp4" 10%float 300%float
              ["out_time_ms=2000"; "out_time_ms=4900"; "out_time_ms=5200";
               "out_time_ms=6100"; "out_time_ms=10000"; "progress=end"]
              (setSocket (initialWorld ∅) (Some [])) [] eq_refl) as (H & _).
  rewrite H. reflexivity.
Defined.

(** ** Job registry *)

Lemma Kill_reaped (p : pid) (w : World) :
  p ∈ reaped w -> Kill p w = (false, w).
Proof. intros H. unfold Kill. now rewrite decide_True. Qed.

Lemma Kill_running (p : pid) (w : World) :
  p ∉ reaped w -> Kill p w = (true, setKilled w ({[ p ]} ∪ killed w)).
Proof. intros H. unfold Kill. now rewrite decide_False. Qed.

Lemma Kill_cases (p : pid) (w : World) :
  (fst (Kill p w) = false /\ p ∈ reaped w /\ Kill p w = (false, w))
  \/ (fst (Kill p w) = true /\ (p ∉ reaped w)
      /\ Kill p w = (true, setKilled w ({[ p ]} ∪ killed w))).
Proof.
  destruct (decide (p ∈ reaped w)) as [H | H].
  - left. rewrite (Kill_reaped p w H). auto.
  - right. rewrite (Kill_running p w H). auto.
Qed.

Lemma cancel_cases (name : string) (w : World) :
  (cancel name w = (None, false, w)
   /\ (conversions w !! name = None
       \/ exists proc : loc, conversions w !! name = Some proc
                             /\ Process (cmd (heap w proc)) = None))
  \/ (exists (proc : loc) (p : pid),
        conversions w !! name = Some proc /\ Process (cmd (heap w proc)) = Some p
        /\ ((p ∈ reaped w /\ cancel name w = (Some proc, false, w))
            \/ ((p ∉ reaped w)
                /\ cancel name w = (Some proc, true, cancelledWorld name proc p w)))).
Proof.
  unfold cancel.
  destruct (conversions w !! name) as [proc |] eqn:Hl; [| left; auto].
  destruct (Process (cmd (heap w proc))) as [p |] eqn:Hp; [| left; eauto].
  right. exists proc, p. split; [reflexivity |]. split; [exact Hp |].
  destruct (decide (p ∈ reaped w)) as [H | H].
  - left. rewrite (Kill_reaped p w H). auto.
  - right. rewrite (Kill_running p w H). auto.
Qed.

(** C6. [cancel] returns nil and not-ok, and leaves the world as it is,
    when the registry has no entry for the key or the entry's process has no
    handle, so also after the job was removed. When the kill signal cannot
    be delivered it returns the entry and not-ok and leaves the world as it
    is: the entry stays registered and its flag is unchanged. When the
    signal is delivered it returns the entry and ok, the entry's flag is
    true and the key is gone from the registry. Every not-ok call leaves
    the world unchanged, and every ok call delivered a signal. *)
Theorem cancel_spec (name : string) (w : World) :
  (conversions w !! name = None -> cancel name w = (None, false, w))
  /\ (forall proc : loc,
        conversions w !! name = Some proc -> Process (cmd (heap w proc)) = None ->
        cancel name w = (None, false, w))
  /\ cancel name (remove name w) = (None, false, remove name w)
  /\ (forall (proc : loc) (p : pid),
        conversions w !! name = Some proc -> Process (cmd (heap w proc)) = Some p ->
        fst (Kill p w) = false ->
        cancel name w = (Some proc, false, w))
  /\ (forall (proc : loc) (p : pid),
        conversions w !! name = Some proc -> Process (cmd (heap w proc)) = Some p ->
        fst (Kill p w) = true ->
        exists w' : World,
          cancel name w = (Some proc, true, w')
          /\ cancelled (heap w' proc) = true
          /\ cmd (heap w' proc) = cmd (heap w proc)
          /\ conversions w' = delete name (conversions w)
          /\ conversions w' !! name = None
          /\ (forall l : loc, l <> proc -> heap w' l = heap w l)
          /\ p ∈ killed w'
          /\ socket w' = socket w /\ files w' = files w)
  /\ (forall (r : option loc) (w' : World), cancel name w = (r, false, w') -> w' = w)
  /\ (forall (r : option loc) (w' : World),
        cancel name w = (r, true, w') ->
        exists (proc : loc) (p : pid),
          r = Some proc /\ conversions w !! name = Some proc
          /\ Process (cmd (heap w proc)) = Some p /\ fst (Kill p w) = true).
Proof.
  split.
  { intros H. unfold cancel. now rewrite H. }
  split.
  { intros proc Hl Hp. unfold cancel. now rewrite Hl, Hp. }
  split.
  { unfold cancel, remove. simpl. now rewrite lookup_delete_eq. }
  split.
  { intros proc p Hl Hp Hk. unfold cancel. rewrite Hl, Hp.
    destruct (Kill_cases p w) as [(_ & _ & ->) | (Hk' & _)]; [reflexivity |].
    rewrite Hk in Hk'. discriminate Hk'. }
  split.
  { intros proc p Hl Hp Hk. unfold cancel. rewrite Hl, Hp.
    destruct (Kill_cases p w) as [(Hk' & _) | (_ & _ & ->)].
    { rewrite Hk in Hk'. discriminate Hk'. }
    eexists. split; [reflexivity |]. simpl.
    split; [now rewrite fn_lookup_insert |].
    split; [now rewrite fn_lookup_insert |].
    split; [reflexivity |].
    split; [apply lookup_delete_eq |].
    split; [intros l Hne; now rewrite fn_lookup_insert_ne |].
    split; [set_solver | auto]. }
  split.
  { intros r w' H.
    destruct (cancel_cases name w) as [(Hc & _) | (proc & p & _ & _ & [(_ & Hc) | (_ & Hc)])];
      rewrite Hc in H; now inversion H. }
  intros r w' H.
  destruct (cancel_cases name w)
    as [(Hc & _) | (proc & p & Hl & Hp & [(_ & Hc) | (Hr & Hc)])];
    rewrite Hc in H; inversion H; subst.
  exists proc, p. rewrite (Kill_running p w Hr). auto.
Qed.

(** The cases of [cancel_spec] on a registry with one running job. *)
Lemma cancel_witness :
  let running := snd (store "a.mov" {| Process := Some 7%nat |} (initialWorld ∅)) in
  let unstarted := snd (store "a.mov" {| Process := None |} (initialWorld ∅)) in
  let finished := setReaped running {[ 7%nat ]} in
  cancel "b.mov" running = (None, false, running)
  /\ cancel "a.mov" unstarted = (None, false, unstarted)
  /\ cancel "a.mov" (remove "a.mov" running) = (None, false, remove "a.mov" running)
  /\ cancel "a.mov" finished = (Some 0%nat, false, finished)
  /\ (exists w' : World,
        cancel "a.mov" running = (Some 0%nat, true, w')
        /\ cancelled (heap w' 0%nat) = true
        /\ conversions w' !! "a.mov" = None).
Proof.
  intros running unstarted finished.
  destruct (cancel_spec "b.mov" running) as (H1 & _).
  destruct (cancel_spec "a.mov" unstarted) as (_ & H2 & _).
  destruct (cancel_spec "a.mov" running) as (_ & _ & H3 & _ & H5 & _).
  destruct (cancel_spec "a.mov" finished) as (_ & _ & _ & H4 & _).
  split. { apply H1. reflexivity. }
  split. { apply (H2 0%nat); reflexivity. }
  split. { exact H3. }
  split. { apply (H4 0%nat 7%nat); reflexivity. }
  destruct (H5 0%nat 7%nat) as (w' & Hc & Hf & _ & _ & Hn & _); try reflexivity.
  exists w'. auto.
Defined.

(** ** The handlers on the shared world *)

Lemma onCancelConversion_cases (payload : cancelPayload) (w : World) :
  onCancelConversion payload w = w
  \/ exists (proc : loc) (p : pid),
       conversions w !! payloadFileName payload = Some proc
       /\ Process (cmd (heap w proc)) = Some p
       /\ (p ∉ reaped w)
       /\ onCancelConversion payload w
          = emitError (payloadFileName payload) "Conversion cancelled by user"
              (cancelledWorld (payloadFileName payload) proc p w).
Proof.
  unfold onCancelConversion.
  destruct (String.eqb (payloadFileName payload) ""); [now left |].
  destruct (cancel_cases (payloadFileName payload) w)
    as [(Hc & _) | (proc & p & Hl & Hp & [(_ & Hc) | (Hr & Hc)])];
    rewrite Hc; [now left | now left |].
  right. exists proc, p. auto.
Qed.

Lemma emitError_sent (fileName message : string) (w : World) (sent : list Broadcast) :
  socket w = Some sent ->
  emitError fileName message w
  = setSocket w (Some (sent ++ [ConversionError {| errorFileName := fileName;
                                                    Error := message |}])%list).
Proof. intros H. unfold emitError. now rewrite H. Qed.

Lemma osRemove_absent (path : string) (w : World) : path ∉ files (osRemove path w).
Proof.
  unfold osRemove. simpl. rewrite elem_of_difference, elem_of_singleton.
  intros [_ H]. now apply H.
Qed.

Lemma osRemove_elem (path other : string) (w : World) :
  path ∈ files (osRemove other w) -> path ∈ files w.
Proof.
  unfold osRemove. simpl. rewrite elem_of_difference. now intros [H _].
Qed.

Lemma osRemove_other (path other : string) (w : World) :
  other <> path -> path ∈ files w -> path ∈ files (osRemove other w).
Proof.
  intros Hne H. unfold osRemove. simpl.
  rewrite elem_of_difference, elem_of_singleton. split; [exact H | congruence].
Qed.

Lemma emitError_files (fileName message : string) (w : World) :
  files (emitError fileName message w) = files w.
Proof. unfold emitError. now destruct (socket w). Qed.

Lemma emitError_heap (fileName message : string) (w : World) :
  heap (emitError fileName message w) = heap w.
Proof. unfold emitError. now destruct (socket w). Qed.

Lemma emitProgress_files (fileName : string) (c : Z) (outputName : string)
    (completed : bool) (w : World) :
  files (emitProgress fileName c outputName completed w) = files w.
Proof. unfold emitProgress. now destruct (socket w). Qed.

Lemma emitProgress_next (fileName : string) (c : Z) (outputName : string)
    (completed : bool) (w : World) :
  next (emitProgress fileName c outputName completed w) = next w.
Proof. unfold emitProgress. now destruct (socket w). Qed.

Lemma emitProgress_conversions (fileName : string) (c : Z) (outputName : string)
    (completed : bool) (w : World) :
  conversions (emitProgress fileName c outputName completed w) = conversions w.
Proof. unfold emitProgress. now destruct (socket w). Qed.

Lemma runConcurrent_files (a : Concurrent) (w : World) :
  files (runConcurrent w a) = files w.
Proof.
  destruct a as [payload | n c | n]; simpl; try reflexivity.
  destruct (onCancelConversion_cases payload w) as [-> | (proc & p & _ & _ & _ & ->)];
    [reflexivity |].
  now rewrite emitError_files.
Qed.

Lemma fold_runConcurrent_files (actions : list Concurrent) :
  forall w : World, files (fold_left runConcurrent actions w) = files w.
Proof.
  induction actions as [| a rest IH]; intros w; [reflexivity |].
  simpl. now rewrite IH, runConcurrent_files.
Qed.

Lemma logGrows_refl (w : World) : logGrows w w.
Proof. intros sent H. exists []. now rewrite app_nil_r. Qed.

Lemma logGrows_trans (w1 w2 w3 : World) :
  logGrows w1 w2 -> logGrows w2 w3 -> logGrows w1 w3.
Proof.
  intros H12 H23 sent Hs.
  destruct (H12 sent Hs) as (more1 & H1).
  destruct (H23 _ H1) as (more2 & H2).
  exists (more1 ++ more2)%list. now rewrite H2, app_assoc.
Qed.

Lemma logGrows_same (w w' : World) : socket w' = socket w -> logGrows w w'.
Proof. intros H sent Hs. exists []. now rewrite H, app_nil_r. Qed.

Lemma logGrows_emitError (fileName message : string) (w : World) :
  logGrows w (emitError fileName message w).
Proof. intros sent Hs. rewrite (emitError_sent _ _ _ _ Hs). simpl. eauto. Qed.

Lemma logGrows_runConcurrent (a : Concurrent) (w : World) :
  logGrows w (runConcurrent w a).
Proof.
  destruct a as [payload | n c | n]; simpl; try (now apply logGrows_same).
  destruct (onCancelConversion_cases payload w) as [-> | (proc & p & _ & _ & _ & ->)];
    [apply logGrows_refl |].
  eapply logGrows_trans; [| apply logGrows_emitError].
  now apply logGrows_same.
Qed.

Lemma logGrows_fold (actions : list Concurrent) :
  forall w : World, logGrows w (fold_left runConcurrent actions w).
Proof.
  induction actions as [| a rest IH]; intros w; [apply logGrows_refl |].
  simpl. eapply logGrows_trans; [apply logGrows_runConcurrent | apply IH].
Qed.

Lemma logGrows_convertFinish (rq : Request) (ex : Externals) (proc : loc) (w : World) :
  logGrows w (snd (convertFinish rq ex proc w)).
Proof.
  unfold convertFinish.
  destruct (cancelled _); [now apply logGrows_same |].
  destruct (waitFailed ex).
  - destruct (mapFFmpegError _ _) as [message status]. simpl.
    eapply logGrows_trans; [| apply logGrows_same; reflexivity].
    eapply logGrows_trans; [| apply logGrows_emitError].
    now apply logGrows_same.
  - destruct (probeOutput ex); now apply logGrows_same.
Qed.

Lemma convertFinish_heap (rq : Request) (ex : Externals) (proc : loc) (w : World) :
  heap (snd (convertFinish rq ex proc w)) = heap w.
Proof.
  unfold convertFinish.
  destruct (cancelled _); [reflexivity |].
  destruct (waitFailed ex).
  - destruct (mapFFmpegError _ _) as [message status]. simpl.
    now rewrite emitError_heap.
  - now destruct (probeOutput ex).
Qed.

(** ** The invariant of a registered job *)

Lemma jobInv_ext (proc : loc) (nm : string) (w w' : World) :
  next w' = next w -> conversions w' = conversions w ->
  socket w' = socket w -> heap w' = heap w ->
  jobInv proc nm w -> jobInv proc nm w'.
Proof.
  intros Hn Hc Hs Hh (H1 & H2 & H3 & H4). unfold jobInv, registryAllocated.
  rewrite Hn, Hc, Hs, Hh. auto.
Qed.

Lemma jobInv_append (proc : loc) (nm : string) (w : World)
    (sent more : list Broadcast) :
  socket w = Some sent -> jobInv proc nm w ->
  jobInv proc nm (setSocket w (Some (sent ++ more)%list)).
Proof.
  intros Hs (H1 & H2 & H3 & (sent' & Hs' & H4)).
  rewrite Hs in Hs'. injection Hs' as <-.
  repeat split; try assumption.
  exists (sent ++ more)%list. split; [reflexivity |].
  intros Hf. apply in_or_app. left. now apply H4.
Qed.

Lemma jobInv_store (nm : string) (c : Cmd) (w : World) (sent : list Broadcast) :
  registryAllocated w -> socket w = Some sent ->
  jobInv (next w) nm (snd (store nm c w))
  /\ cancelled (heap (snd (store nm c w)) (next w)) = false.
Proof.
  intros Ha Hs. unfold store, jobInv, registryAllocated. simpl.
  split; [| now rewrite fn_lookup_insert].
  split; [lia |].
  split.
  { intros n l. rewrite lookup_insert. case_decide.
    - intros [= <-]. lia.
    - intros H'. apply Ha in H'. lia. }
  split.
  { intros n. rewrite lookup_insert. case_decide; [congruence |].
    intros H'. apply Ha in H'. lia. }
  exists sent. split; [exact Hs |].
  rewrite fn_lookup_insert. discriminate.
Qed.

Lemma jobInv_runConcurrent (proc : loc) (nm : string) (a : Concurrent) (w : World) :
  jobInv proc nm w -> jobInv proc nm (runConcurrent w a).
Proof.
  intros (H1 & H2 & H3 & (sent & Hs & H4)).
  destruct a as [payload | n c | n]; simpl.
  - destruct (onCancelConversion_cases payload w)
      as [-> | (l & p & Hl & Hp & Hr & ->)].
    { unfold jobInv. eauto 10. }
    rewrite (emitError_sent _ _ _ sent) by exact Hs.
    unfold jobInv, registryAllocated, cancelledWorld. simpl.
    split; [exact H1 |].
    split.
    { intros n l'. rewrite lookup_delete_Some. intros [_ H']. eapply H2, H'. }
    split.
    { intros n. rewrite lookup_delete_Some. intros [_ H']. now apply H3. }
    eexists. split; [reflexivity |].
    intros Hf. apply in_or_app.
    destruct (decide (l = proc)) as [-> | Hne].
    + right. left. unfold cancelledEvent. now rewrite (H3 _ Hl).
    + left. apply H4. now rewrite fn_lookup_insert_ne in Hf.
  - unfold store, jobInv, registryAllocated. simpl.
    split; [lia |].
    split.
    { intros n' l. rewrite lookup_insert. case_decide.
      - intros [= <-]. lia.
      - intros H'. apply H2 in H'. lia. }
    split.
    { intros n'. rewrite lookup_insert. case_decide.
      - intros [= H']. lia.
      - apply H3. }
    exists sent. split; [exact Hs |].
    rewrite fn_lookup_insert_ne by lia. exact H4.
  - unfold remove, jobInv, registryAllocated. simpl.
    split; [exact H1 |].
    split.
    { intros n' l. rewrite lookup_delete_Some. intros [_ H']. eapply H2, H'. }
    split.
    { intros n'. rewrite lookup_delete_Some. intros [_ H']. now apply H3. }
    eauto.
Qed.

Lemma jobInv_fold (proc : loc) (nm : string) (actions : list Concurrent) :
  forall w : World, jobInv proc nm w -> jobInv proc nm (fold_left runConcurrent actions w).
Proof.
  induction actions as [| a rest IH]; intros w H; [exact H |].
  simpl. apply IH, jobInv_runConcurrent, H.
Qed.

Lemma handleConvert_started (indef : float -> Z) (rq : Request) (ex : Externals)
    (during late : list Concurrent) (metadata : ffprobeData) (p : pid) (w : World) :
  probeInput ex = Some metadata -> stdoutPipeOk ex = true -> start ex = Started p ->
  handleConvert indef rq ex during late w
  = (fst (convertFinish rq ex (next w)
            (startedRun indef rq ex during late metadata p w)),
     osRemove (inputPath rq)
       (snd (convertFinish rq ex (next w)
               (startedRun indef rq ex during late metadata p w)))).
Proof.
  intros Hp Hs Hst. unfold handleConvert, startedRun. rewrite Hp, Hs, Hst. simpl.
  now rewrite emitProgress_next.
Qed.

Lemma startedRun_files (indef : float -> Z) (rq : Request) (ex : Externals)
    (during late : list Concurrent) (metadata : ffprobeData) (p : pid) (w : World) :
  files (startedRun indef rq ex during late metadata p w)
  = if outputWritten ex then {[ outputPath rq ]} ∪ files w else files w.
Proof.
  unfold startedRun. rewrite fold_runConcurrent_files. simpl.
  assert (Hr : forall lines lw,
             files (snd (fold_left
                           (readerStep indef (originalName rq) (outputName rq)
                              (estimateDuration metadata) (estimateFrames metadata))
                           lines lw)) = files (snd lw)).
  { induction lines as [| line rest IH]; intros [last w']; [reflexivity |].
    cbn [fold_left]. rewrite IH, readerStep_classify.
    destruct (classifyLine _ _ _ line) as [c | |]; simpl;
      [destruct (shouldEmitProgress c last); simpl | |];
      rewrite ?emitProgress_files; reflexivity. }
  destruct (outputWritten ex); simpl; rewrite fold_runConcurrent_files;
    unfold progressReader; rewrite Hr; simpl; now rewrite emitProgress_files.
Qed.

Lemma startedRun_jobInv (indef : float -> Z) (rq : Request) (ex : Externals)
    (during late : list Concurrent) (metadata : ffprobeData) (p : pid) (w : World)
    (sent : list Broadcast) :
  registryAllocated w -> socket w = Some sent ->
  jobInv (next w) (originalName rq) (startedRun indef rq ex during late metadata p w).
Proof.
  intros Ha Hs. unfold startedRun.
  set (w1 := emitProgress (originalName rq) 0 (outputName rq) false w).
  assert (Hs1 : exists sent1, socket w1 = Some sent1).
  { unfold w1. rewrite (emitProgress_sent _ _ 0 false w sent Hs) by lia. simpl. eauto. }
  destruct Hs1 as (sent1 & Hs1).
  assert (Ha1 : registryAllocated w1).
  { unfold registryAllocated, w1.
    rewrite emitProgress_next, emitProgress_conversions. exact Ha. }
  assert (Hn1 : next w1 = next w) by apply emitProgress_next.
  destruct (jobInv_store (originalName rq) {| Process := Some p |} w1 sent1 Ha1 Hs1)
    as (Hinv & _).
  rewrite Hn1 in Hinv.
  set (w2 := snd (store (originalName rq) {| Process := Some p |} w1)) in *.
  apply jobInv_fold.
  eapply jobInv_ext with
    (w := fold_left runConcurrent during
            (snd (progressReader indef (originalName rq) (outputName rq)
                    (estimateDuration metadata) (estimateFrames metadata)
                    (progressLines ex) w2))).
  1-4: destruct (outputWritten ex); reflexivity.
  apply jobInv_fold.
  unfold progressReader.
  erewrite reader_fold_events by (unfold w2; simpl; exact Hs1).
  apply jobInv_append; [unfold w2; simpl; exact Hs1 | exact Hinv].
Qed.

(** ** Terminal determination *)

Lemma mapFFmpegError_status (stderr format : string) :
  snd (mapFFmpegError stderr format) = StatusBadRequest
  \/ snd (mapFFmpegError stderr format) = StatusInternalServerError.
Proof.
  unfold mapFFmpegError.
  repeat (match goal with |- context [if ?b then _ else _] => destruct b end);
    simpl; auto.
Qed.

Lemma convertFinish_cases (rq : Request) (ex : Externals) (proc : loc) (w : World) :
  let w1 := remove (originalName rq) w in
  (cancelled (heap w proc) = true
   /\ convertFinish rq ex proc w
      = (HttpError "Conversion cancelled by user" StatusConflict,
         osRemove (outputPath rq) w1))
  \/ (cancelled (heap w proc) = false /\ waitFailed ex = true
      /\ convertFinish rq ex proc w
         = (HttpError (fst (mapFFmpegError (stderrText ex) (format rq)))
              (snd (mapFFmpegError (stderrText ex) (format rq))),
            osRemove (outputPath rq)
              (emitError (originalName rq)
                 (fst (mapFFmpegError (stderrText ex) (format rq))) w1)))
  \/ (cancelled (heap w proc) = false /\ waitFailed ex = false
      /\ probeOutput ex = None
      /\ convertFinish rq ex proc w
         = (HttpError "Conversion completed but metadata lookup failed"
              StatusInternalServerError, w1))
  \/ (exists outputMetadata : ffprobeData,
        cancelled (heap w proc) = false /\ waitFailed ex = false
        /\ probeOutput ex = Some outputMetadata
        /\ convertFinish rq ex proc w
           = (writeJSON StatusOK (successResponse rq outputMetadata), w1)).
Proof.
  intros w1. unfold convertFinish. fold w1.
  change (heap w1 proc) with (heap w proc).
  destruct (cancelled (heap w proc)); [left; auto |].
  destruct (waitFailed ex).
  - right. left. destruct (mapFFmpegError _ _). auto.
  - destruct (probeOutput ex) as [outputMetadata |].
    + right. right. right. eauto.
    + right. right. left. auto.
Qed.

(** C7. A job whose cancellation flag is set when [handleConvert] comes to
    its end is answered with status 409 and "Conversion cancelled by user",
    whatever [cmd.Wait] returned, and its output file is removed. In every
    run of a started conversion the flag is set only by the socket handler
    of a cancel request, which broadcasts the same message for the job's
    file name: the message is among the events sent. A job whose flag is
    not set is never answered with status 409. *)
Theorem cancelled_outcome :
  (forall (rq : Request) (ex : Externals) (proc : loc) (w : World),
      cancelled (heap w proc) = true ->
      convertFinish rq ex proc w
      = (HttpError "Conversion cancelled by user" StatusConflict,
         osRemove (outputPath rq) (remove (originalName rq) w))
      /\ (outputPath rq ∉ files (snd (convertFinish rq ex proc w))))
  /\ (forall (indef : float -> Z) (rq : Request) (ex : Externals)
        (during late : list Concurrent) (w : World) (sent : list Broadcast)
        (metadata : ffprobeData) (p : pid),
        registryAllocated w -> socket w = Some sent ->
        probeInput ex = Some metadata -> stdoutPipeOk ex = true ->
        start ex = Started p ->
        let result := handleConvert indef rq ex during late w in
        cancelled (heap (snd result) (next w)) = true ->
        fst result = HttpError "Conversion cancelled by user" StatusConflict
        /\ (outputPath rq ∉ files (snd result))
        /\ In (cancelledEvent (originalName rq)) (sentEvents (snd result)))
  /\ (forall (rq : Request) (ex : Externals) (proc : loc) (w : World) (message : string),
        cancelled (heap w proc) = false ->
        fst (convertFinish rq ex proc w) <> HttpError message StatusConflict).
Proof.
  split.
  { intros rq ex proc w Hf.
    destruct (convertFinish_cases rq ex proc w)
      as [(_ & ->) | [(Hf' & _) | [(Hf' & _) | (md & Hf' & _)]]];
      try (rewrite Hf in Hf'; discriminate Hf').
    split; [reflexivity |]. cbn [snd]. apply osRemove_absent. }
  split.
  { intros indef rq ex during late w sent metadata p Ha Hs Hp Hpipe Hst result.
    subst result. rewrite (handleConvert_started _ _ _ _ _ metadata p) by assumption.
    cbn [fst snd].
    change (heap (osRemove ?a ?b)) with (heap b).
    rewrite convertFinish_heap. intros Hf.
    pose proof (startedRun_jobInv indef rq ex during late metadata p w sent Ha Hs) as Hinv.
    destruct Hinv as (_ & _ & _ & (sent' & Hs' & Hin)).
    destruct (convertFinish_cases rq ex (next w)
                (startedRun indef rq ex during late metadata p w))
      as [(_ & ->) | [(Hf' & _) | [(Hf' & _) | (md & Hf' & _)]]];
      try (rewrite Hf in Hf'; discriminate Hf').
    split; [reflexivity |].
    split; [intros H; apply osRemove_elem in H; revert H; apply osRemove_absent |].
    unfold sentEvents. simpl. rewrite Hs'. now apply Hin. }
  intros rq ex proc w message Hf.
  destruct (convertFinish_cases rq ex proc w)
    as [(Hf' & _) | [(_ & _ & ->) | [(_ & _ & _ & ->) | (md & _ & _ & _ & ->)]]];
    simpl.
  - rewrite Hf in Hf'. discriminate Hf'.
  - intros [= _ Hst].
    destruct (mapFFmpegError_status (stderrText ex) (format rq)) as [H | H];
      rewrite H in Hst; discriminate Hst.
  - discriminate.
  - unfold writeJSON. destruct (is_finite _); discriminate.
Qed.

Lemma initialWorld_allocated (onDisk : gset string) : registryAllocated (initialWorld onDisk).
Proof. intros n l H. simpl in H. rewrite lookup_empty in H. discriminate H. Qed.

(** A cancel request while ffmpeg runs, with an ffmpeg that the signal
    kills and with one that had finished its work; the terminal path on a
    flagged and on an unflagged job. *)
Lemma cancelled_outcome_witness :
  let cancelRequest := CancelRequest {| payloadFileName := "a.mov" |} in
  let killed := handleConvert indef_amd64 exampleRequest
                  (exampleExternals ["out_time_ms=2000"] true "" None)
                  [cancelRequest] [] (initialWorld {[ "downloads/in-a.mov" ]}) in
  let finished := handleConvert indef_amd64 exampleRequest
                    (exampleExternals ["out_time_ms=2000"; "progress=end"] false ""
                       (Some (probeOf "10" "10" "300" "30/1")))
                    [cancelRequest] [] (initialWorld {[ "downloads/in-a.mov" ]}) in
  let registered := snd (store "a.mov" {| Process := Some 7%nat |} (initialWorld ∅)) in
  let flagged := cancelledWorld "a.mov" 0%nat 7%nat registered in
  (fst killed = HttpError "Conversion cancelled by user" StatusConflict
   /\ ("downloads/u.mp4" ∉ files (snd killed))
   /\ In (cancelledEvent "a.mov") (sentEvents (snd killed)))
  /\ (fst finished = HttpError "Conversion cancelled by user" StatusConflict
      /\ ("downloads/u.mp4" ∉ files (snd finished))
      /\ In (cancelledEvent "a.mov") (sentEvents (snd finished)))
  /\ fst (convertFinish exampleRequest (exampleExternals [] false "" None) 0%nat flagged)
     = HttpError "Conversion cancelled by user" StatusConflict
  /\ fst (convertFinish exampleRequest (exampleExternals [] true "" None) 0%nat registered)
     <> HttpError "Conversion failed" StatusConflict.
Proof.
  intros cancelRequest killed finished registered flagged.
  destruct cancelled_outcome as (H1 & H & H3).
  split.
  { apply (H indef_amd64 exampleRequest _ _ _ _ [] (probeOf "10" "10" "300" "30/1") 7%nat);
      try reflexivity.
    apply initialWorld_allocated. }
  split.
  { apply (H indef_amd64 exampleRequest _ _ _ _ [] (probeOf "10" "10" "300" "30/1") 7%nat);
      try reflexivity.
    apply initialWorld_allocated. }
  split.
  { destruct (H1 exampleRequest (exampleExternals [] false "" None) 0%nat flagged eq_refl)
      as (Hc & _).
    now rewrite Hc. }
  apply H3. reflexivity.
Defined.

(** C8, as the code has it. After a [Wait] that returned an error, for a job
    that was not cancelled, the captured standard error is classified by
    the first of these that applies, the substrings being matched with
    their capital letters: "Unknown encoder" gives "Unsupported output
    format: <format>" with status 400; "Invalid data found" gives "Invalid
    or corrupted video file" with status 400; "No space left" gives "Server
    storage full. Please try again later." with status 500; "ffmpeg
    version" gives "Conversion failed" with status 500; any other text that
    is not empty is echoed with status 500; an empty text gives "Conversion
    failed" with status 500. The message is broadcast as an error event for
    the file, the request is answered with the message and the status, and
    the output file is removed. *)
Theorem transcode_failure_outcome :
  (forall stderr format : string,
      (Contains stderr "Unknown encoder" = true ->
       mapFFmpegError stderr format
       = (("Unsupported output format: " ++ format)%string, StatusBadRequest))
      /\ (Contains stderr "Unknown encoder" = false ->
          Contains stderr "Invalid data found" = true ->
          mapFFmpegError stderr format
          = ("Invalid or corrupted video file", StatusBadRequest))
      /\ (Contains stderr "Unknown encoder" = false ->
          Contains stderr "Invalid data found" = false ->
          Contains stderr "No space left" = true ->
          mapFFmpegError stderr format
          = ("Server storage full. Please try again later.", StatusInternalServerError))
      /\ (Contains stderr "Unknown encoder" = false ->
          Contains stderr "Invalid data found" = false ->
          Contains stderr "No space left" = false ->
          Contains stderr "ffmpeg version" = true ->
          mapFFmpegError stderr format = ("Conversion failed", StatusInternalServerError))
      /\ (Contains stderr "Unknown encoder" = false ->
          Contains stderr "Invalid data found" = false ->
          Contains stderr "No space left" = false ->
          Contains stderr "ffmpeg version" = false ->
          stderr <> "" ->
          mapFFmpegError stderr format = (stderr, StatusInternalServerError))
      /\ mapFFmpegError "" format = ("Conversion failed", StatusInternalServerError))
  /\ (forall (rq : Request) (ex : Externals) (proc : loc) (w : World)
        (sent : list Broadcast),
        socket w = Some sent -> cancelled (heap w proc) = false ->
        waitFailed ex = true ->
        let classified := mapFFmpegError (stderrText ex) (format rq) in
        let result := convertFinish rq ex proc w in
        fst result = HttpError (fst classified) (snd classified)
        /\ (outputPath rq ∉ files (snd result))
        /\ sentEvents (snd result)
           = (sent ++ [ConversionError {| errorFileName := originalName rq;
                                          Error := fst classified |}])%list
        /\ (snd classified = StatusBadRequest
            \/ snd classified = StatusInternalServerError)).
Proof.
  split.
  { intros stderr format. unfold mapFFmpegError.
    split; [intros ->; reflexivity |].
    split; [intros -> ->; reflexivity |].
    split; [intros -> -> ->; reflexivity |].
    split; [intros -> -> -> ->; reflexivity |].
    split; [| reflexivity].
    intros -> -> -> -> Hne.
    destruct (String.eqb_spec stderr "") as [-> | _]; [now contradiction Hne | reflexivity]. }
  intros rq ex proc w sent Hs Hf Hw classified result.
  subst result classified.
  destruct (convertFinish_cases rq ex proc w)
    as [(Hf' & _) | [(_ & _ & ->) | [(_ & Hw' & _) | (md & _ & Hw' & _)]]];
    try (rewrite Hf in Hf'; discriminate Hf');
    try (rewrite Hw in Hw'; discriminate Hw').
  split; [reflexivity |].
  split; [cbn [snd]; apply osRemove_absent |].
  split; [| apply mapFFmpegError_status].
  unfold sentEvents. cbn [snd].
  rewrite (emitError_sent _ _ _ sent) by exact Hs. reflexivity.
Qed.

(** The classification on texts of ffmpeg, and a failed run. *)
Lemma transcode_failure_witness :
  mapFFmpegError "Unknown encoder 'libx266'" "mkv"
  = ("Unsupported output format: mkv", StatusBadRequest)
  /\ mapFFmpegError "in.mov: Invalid data found when processing input" "mp4"
     = ("Invalid or corrupted video file", StatusBadRequest)
  /\ mapFFmpegError "av_interleaved_write_frame(): No space left on device" "mp4"
     = ("Server storage full. Please try again later.", StatusInternalServerError)
  /\ mapFFmpegError "ffmpeg version 6.0 Copyright" "mp4"
     = ("Conversion failed", StatusInternalServerError)
  /\ mapFFmpegError "Killed" "mp4" = ("Killed", StatusInternalServerError)
  /\ (let result := convertFinish exampleRequest
                      (exampleExternals [] true "Unknown encoder 'libx266'" None) 0%nat
                      (initialWorld {[ "downloads/u.mp4" ]}) in
      fst result = HttpError "Unsupported output format: mp4" StatusBadRequest
      /\ ("downloads/u.mp4" ∉ files (snd result))
      /\ sentEvents (snd result)
         = [ConversionError {| errorFileName := "a.mov";
                               Error := "Unsupported output format: mp4" |}]).
Proof.
  destruct transcode_failure_outcome as (H & Hrun).
  destruct (H "Unknown encoder 'libx266'" "mkv") as (H1 & _).
  destruct (H "in.mov: Invalid data found when processing input" "mp4") as (_ & H2 & _).
  destruct (H "av_interleaved_write_frame(): No space left on device" "mp4")
    as (_ & _ & H3 & _).
  destruct (H "ffmpeg version 6.0 Copyright" "mp4") as (_ & _ & _ & H4 & _).
  destruct (H "Killed" "mp4") as (_ & _ & _ & _ & H5 & _).
  split. { apply H1. reflexivity. }
  split. { apply H2; reflexivity. }
  split. { apply H3; reflexivity. }
  split. { apply H4; reflexivity. }
  split. { apply H5; try reflexivity. discriminate. }
  cbv zeta.
  destruct (Hrun exampleRequest (exampleExternals [] true "Unknown encoder 'libx266'" None)
              0%nat (initialWorld {[ "downloads/u.mp4" ]}) [] eq_refl eq_refl eq_refl)
    as (Hr1 & Hr2 & Hr3 & _).
  split; [exact Hr1 |]. split; [exact Hr2 | exact Hr3].
Defined.

(** C8 as stated fails on the spelling of the substrings: a text that
    contains "unknown encoder" in small letters is echoed with status 500,
    not classified as an unsupported format with status 400; and an empty
    text is not echoed. *)
Lemma mapFFmpegError_spelling_counterexample :
  Contains "unknown encoder 'libx266'" "unknown encoder" = true
  /\ mapFFmpegError "unknown encoder 'libx266'" "mkv"
     = ("unknown encoder 'libx266'", StatusInternalServerError)
  /\ mapFFmpegError "unknown encoder 'libx266'" "mkv"
     <> ("Unsupported output format: mkv", StatusBadRequest)
  /\ Contains "invalid data found" "invalid data found" = true
  /\ mapFFmpegError "invalid data found" "mkv"
     = ("invalid data found", StatusInternalServerError)
  /\ mapFFmpegError "" "mkv" <> ("", StatusInternalServerError).
Proof.
  repeat split; discriminate.
Qed.

(** C9, as the code has it. When [Wait] returned no error, the job was not
    cancelled and the probe of the output fails, the request is answered
    with status 500 and "Conversion completed but metadata lookup failed",
    and nothing is removed: the output file ffmpeg wrote is still on disk
    after the request. It is not the only answer short of the successful
    JSON body that leaves the output on disk: when the output was probed
    and its duration is NaN or an infinity, [writeJSON] writes the header
    with status 200 and no body, and nothing is removed either. For an
    output path that was not on disk before the request, every run that
    leaves it on disk is one of the three: the successful JSON body, the
    header without a body, or the failure of the probe. *)
Theorem post_success_probe_failure :
  (forall (rq : Request) (ex : Externals) (proc : loc) (w : World),
      cancelled (heap w proc) = false -> waitFailed ex = false ->
      probeOutput ex = None ->
      convertFinish rq ex proc w
      = (HttpError "Conversion completed but metadata lookup failed"
           StatusInternalServerError, remove (originalName rq) w)
      /\ files (snd (convertFinish rq ex proc w)) = files w)
  /\ (forall (indef : float -> Z) (rq : Request) (ex : Externals)
        (during late : list Concurrent) (w : World) (metadata : ffprobeData) (p : pid),
        probeInput ex = Some metadata -> stdoutPipeOk ex = true ->
        start ex = Started p -> outputWritten ex = true ->
        waitFailed ex = false -> probeOutput ex = None ->
        inputPath rq <> outputPath rq ->
        let result := handleConvert indef rq ex during late w in
        cancelled (heap (snd result) (next w)) = false ->
        fst result = HttpError "Conversion completed but metadata lookup failed"
                       StatusInternalServerError
        /\ outputPath rq ∈ files (snd result))
  /\ (forall (indef : float -> Z) (rq : Request) (ex : Externals)
        (during late : list Concurrent) (w : World) (metadata outputMetadata : ffprobeData)
        (p : pid),
        probeInput ex = Some metadata -> stdoutPipeOk ex = true ->
        start ex = Started p -> outputWritten ex = true ->
        waitFailed ex = false -> probeOutput ex = Some outputMetadata ->
        is_finite (parseDurationSeconds (FormatDuration (Format outputMetadata))) = false ->
        inputPath rq <> outputPath rq ->
        let result := handleConvert indef rq ex during late w in
        cancelled (heap (snd result) (next w)) = false ->
        fst result = WriteJSONFailed StatusOK
        /\ outputPath rq ∈ files (snd result))
  /\ (forall (indef : float -> Z) (rq : Request) (ex : Externals)
        (during late : list Concurrent) (w : World),
        (outputPath rq ∉ files w) ->
        let result := handleConvert indef rq ex during late w in
        outputPath rq ∈ files (snd result) ->
        (exists outputMetadata : ffprobeData,
            waitFailed ex = false /\ probeOutput ex = Some outputMetadata
            /\ is_finite (duration (successResponse rq outputMetadata)) = true
            /\ fst result = WriteJSON StatusOK (successResponse rq outputMetadata))
        \/ (exists outputMetadata : ffprobeData,
              waitFailed ex = false /\ probeOutput ex = Some outputMetadata
              /\ is_finite (duration (successResponse rq outputMetadata)) = false
              /\ fst result = WriteJSONFailed StatusOK)
        \/ (fst result = HttpError "Conversion completed but metadata lookup failed"
                           StatusInternalServerError
            /\ waitFailed ex = false /\ probeOutput ex = None)).
Proof.
  assert (Hstarted : forall (indef : float -> Z) (rq : Request) (ex : Externals)
             (during late : list Concurrent) (w : World) (metadata : ffprobeData) (p : pid),
             outputWritten ex = true -> inputPath rq <> outputPath rq ->
             outputPath rq
             ∈ files (osRemove (inputPath rq)
                        (remove (originalName rq)
                           (startedRun indef rq ex during late metadata p w)))).
  { intros indef rq ex during late w metadata p Hout Hne.
    apply osRemove_other; [exact Hne |].
    change (files (remove ?a ?b)) with (files b).
    rewrite startedRun_files, Hout. apply elem_of_union_l, elem_of_singleton.
    reflexivity. }
  split.
  { intros rq ex proc w Hf Hw Hp.
    destruct (convertFinish_cases rq ex proc w)
      as [(Hf' & _) | [(_ & Hw' & _) | [(_ & _ & _ & ->) | (md & _ & _ & Hp' & _)]]];
      try (rewrite Hf in Hf'; discriminate Hf');
      try (rewrite Hw in Hw'; discriminate Hw');
      try (rewrite Hp in Hp'; discriminate Hp').
    split; reflexivity. }
  split.
  { intros indef rq ex during late w metadata p Hp Hpipe Hst Hout Hw Hpo Hne result.
    subst result. rewrite (handleConvert_started _ _ _ _ _ metadata p) by assumption.
    cbn [fst snd]. change (heap (osRemove ?a ?b)) with (heap b).
    rewrite convertFinish_heap. intros Hf.
    destruct (convertFinish_cases rq ex (next w)
                (startedRun indef rq ex during late metadata p w))
      as [(Hf' & _) | [(_ & Hw' & _) | [(_ & _ & _ & ->) | (md & _ & _ & Hp' & _)]]];
      try (rewrite Hf in Hf'; discriminate Hf');
      try (rewrite Hw in Hw'; discriminate Hw');
      try (rewrite Hpo in Hp'; discriminate Hp').
    split; [reflexivity |]. cbn [snd]. now apply Hstarted. }
  split.
  { intros indef rq ex during late w metadata outputMetadata p
      Hp Hpipe Hst Hout Hw Hpo Hnan Hne result.
    subst result. rewrite (handleConvert_started _ _ _ _ _ metadata p) by assumption.
    cbn [fst snd]. change (heap (osRemove ?a ?b)) with (heap b).
    rewrite convertFinish_heap. intros Hf.
    destruct (convertFinish_cases rq ex (next w)
                (startedRun indef rq ex during late metadata p w))
      as [(Hf' & _) | [(_ & Hw' & _) | [(_ & _ & Hp' & _) | (md & _ & _ & Hp' & ->)]]];
      try (rewrite Hf in Hf'; discriminate Hf');
      try (rewrite Hw in Hw'; discriminate Hw');
      try (rewrite Hpo in Hp'; discriminate Hp').
    rewrite Hpo in Hp'. injection Hp' as <-.
    unfold writeJSON. cbn [duration successResponse]. rewrite Hnan.
    split; [reflexivity |]. cbn [snd]. now apply Hstarted. }
  intros indef rq ex during late w Hfresh result. subst result.
  assert (Hgone : forall w' : World,
             outputPath rq ∈ files (osRemove (inputPath rq) (osRemove (outputPath rq) w')) ->
             False).
  { intros w' H. apply osRemove_elem in H. revert H. apply osRemove_absent. }
  assert (Hkept : forall w' : World,
             files w' = files w ->
             outputPath rq ∈ files (osRemove (inputPath rq) w') -> False).
  { intros w' Hw' H. apply osRemove_elem in H. rewrite Hw' in H. now apply Hfresh. }
  unfold handleConvert.
  destruct (probeInput ex) as [metadata |] eqn:Hp;
    [| cbn [fst snd]; intros H; now apply Hgone in H].
  destruct (stdoutPipeOk ex) eqn:Hpipe; cbn [negb];
    [| cbn [fst snd]; intros H; apply Hkept in H; [easy | apply emitProgress_files]].
  destruct (start ex) as [p | |] eqn:Hst;
    try (cbn [fst snd]; intros H; apply Hkept in H; [easy | apply emitProgress_files]).
  pose proof (handleConvert_started indef rq ex during late metadata p w Hp Hpipe Hst) as Hrun.
  unfold handleConvert in Hrun. rewrite Hp, Hpipe, Hst in Hrun. cbn [negb] in Hrun.
  rewrite Hrun. clear Hrun. cbn [fst snd].
  destruct (convertFinish_cases rq ex (next w)
              (startedRun indef rq ex during late metadata p w))
    as [(_ & ->) | [(_ & _ & ->) | [(_ & Hw & Hpo & ->) | (md & _ & Hw & Hpo & ->)]]];
    cbn [fst snd].
  - intros H. now apply Hgone in H.
  - intros H. now apply Hgone in H.
  - intros _. right. right. auto.
  - intros _. unfold writeJSON.
    destruct (is_finite (duration (successResponse rq md))) eqn:Hfin.
    + left. exists md. auto.
    + right. left. exists md. auto.
Qed.

(** A run whose output cannot be probed after a successful conversion:
    its answer, its output file, and what the file's presence tells; and a
    run whose probed output has no duration that JSON can carry. *)
Lemma post_success_probe_failure_witness :
  let ex := exampleExternals ["out_time_ms=4900"; "progress=end"] false "" None in
  let result := handleConvert indef_amd64 exampleRequest ex
                  [] [] (initialWorld {[ "downloads/in-a.mov" ]}) in
  let unencodable :=
    handleConvert indef_amd64 exampleRequest
      (exampleExternals ["progress=end"] false "" (Some (probeOf "Inf" "10" "300" "30/1")))
      [] [] (initialWorld {[ "downloads/in-a.mov" ]}) in
  (fst result = HttpError "Conversion completed but metadata lookup failed"
                  StatusInternalServerError
   /\ "downloads/u.mp4" ∈ files (snd result))
  /\ (fst unencodable = WriteJSONFailed StatusOK
      /\ "downloads/u.mp4" ∈ files (snd unencodable))
  /\ ((exists outputMetadata : ffprobeData,
          waitFailed ex = false /\ probeOutput ex = Some outputMetadata
          /\ is_finite (duration (successResponse exampleRequest outputMetadata)) = true
          /\ fst result = WriteJSON StatusOK (successResponse exampleRequest outputMetadata))
      \/ (exists outputMetadata : ffprobeData,
            waitFailed ex = false /\ probeOutput ex = Some outputMetadata
            /\ is_finite (duration (successResponse exampleRequest outputMetadata)) = false
            /\ fst result = WriteJSONFailed StatusOK)
      \/ (fst result = HttpError "Conversion completed but metadata lookup failed"
                         StatusInternalServerError
          /\ waitFailed ex = false /\ probeOutput ex = None))
  /\ convertFinish exampleRequest ex 0%nat (initialWorld {[ "downloads/u.mp4" ]})
     = (HttpError "Conversion completed but metadata lookup failed"
          StatusInternalServerError,
        remove "a.mov" (initialWorld {[ "downloads/u.mp4" ]})).
Proof.
  intros ex result unencodable.
  destruct post_success_probe_failure as (H1 & H2 & H3 & H4).
  assert (Hrun : fst result = HttpError "Conversion completed but metadata lookup failed"
                                StatusInternalServerError
                 /\ "downloads/u.mp4" ∈ files (snd result)).
  { apply (H2 indef_amd64 exampleRequest ex [] [] _ (probeOf "10" "10" "300" "30/1") 7%nat);
      try reflexivity.
    discriminate. }
  split; [exact Hrun |].
  split.
  { apply (H3 indef_amd64 exampleRequest _ [] [] _ (probeOf "10" "10" "300" "30/1")
             (probeOf "Inf" "10" "300" "30/1") 7%nat);
      try reflexivity.
    discriminate. }
  split.
  - apply (H4 indef_amd64 exampleRequest ex [] [] (initialWorld {[ "downloads/in-a.mov" ]})).
    + simpl. rewrite elem_of_singleton. discriminate.
    + apply Hrun.
  - apply H1; reflexivity.
Defined.

(** C9 as stated fails on an output whose duration field reads "NaN": the
    conversion succeeded and the output was probed, the answer is the
    header with status 200 and no body, which is neither the successful
    JSON body nor the metadata lookup failure, and the output file is
    still on disk. *)
Lemma post_success_encode_failure_counterexample :
  let ex := exampleExternals ["progress=end"] false ""
              (Some (probeOf "NaN" "10" "300" "30/1")) in
  let result := handleConvert indef_amd64 exampleRequest ex [] []
                  (initialWorld {[ "downloads/in-a.mov" ]}) in
  fst result = WriteJSONFailed StatusOK
  /\ elements (files (snd result)) = ["downloads/u.mp4"]
  /\ fst result <> HttpError "Conversion completed but metadata lookup failed"
                     StatusInternalServerError
  /\ (forall body : convertResponse, fst result <> WriteJSON StatusOK body)
  /\ waitFailed ex = false
  /\ probeOutput ex <> None.
Proof.
  cbv zeta.
  assert (H : fst (handleConvert indef_amd64 exampleRequest
                     (exampleExternals ["progress=end"] false ""
                        (Some (probeOf "NaN" "10" "300" "30/1")))
                     [] [] (initialWorld {[ "downloads/in-a.mov" ]}))
              = WriteJSONFailed StatusOK) by (vm_compute; reflexivity).
  rewrite H.
  split; [reflexivity |].
  split; [vm_compute; reflexivity |].
  split; [discriminate |].
  split; [intros body; discriminate |].
  split; [reflexivity | discriminate].
Qed.

(** ** The first candidate of a reader *)

Lemma logGrows_startedRun_tail (indef : float -> Z) (rq : Request) (ex : Externals)
    (during late : list Concurrent) (metadata : ffprobeData) (p : pid) (w : World) :
  let w1 := emitProgress (originalName rq) 0 (outputName rq) false w in
  let w2 := snd (store (originalName rq) {| Process := Some p |} w1) in
  let w3 := snd (progressReader indef (originalName rq) (outputName rq)
                   (estimateDuration metadata) (estimateFrames metadata)
                   (progressLines ex) w2) in
  logGrows w3 (startedRun indef rq ex during late metadata p w).
Proof.
  intros w1 w2 w3. unfold startedRun. fold w1. fold w2. fold w3.
  eapply logGrows_trans; [| apply logGrows_fold].
  eapply logGrows_trans; [apply (logGrows_fold during) |].
  apply logGrows_same. now destruct (outputWritten ex).
Qed.

(** C10. The reader starts with [lastReported] at minus the step, -5, so
    its first candidate is forwarded whenever it is not negative, also when
    it is 0. In every run of a started conversion whose first progress line
    yields the candidate 0, the events broadcast for the job begin with two
    0% progress events: the unconditional one of [handleConvert] and the
    reader's. A "frame" line does so when the frame total is unknown. *)
Theorem zero_percent_emitted_twice :
  - progressBroadcastStep = -5
  /\ shouldEmitProgress 0 (- progressBroadcastStep) = true
  /\ (forall c : Z, 0 <= c -> shouldEmitProgress c (- progressBroadcastStep) = true)
  /\ (forall (indef : float -> Z) (rq : Request) (ex : Externals)
        (during late : list Concurrent) (w : World) (sent : list Broadcast)
        (metadata : ffprobeData) (p : pid) (line : string) (rest : list string),
        socket w = Some sent ->
        probeInput ex = Some metadata -> stdoutPipeOk ex = true ->
        start ex = Started p ->
        progressLines ex = line :: rest ->
        classifyLine indef (estimateDuration metadata) (estimateFrames metadata) line
        = Candidate 0 ->
        exists more : list Broadcast,
          sentEvents (snd (handleConvert indef rq ex during late w))
          = (sent
             ++ [progressEvent (originalName rq) (outputName rq) (0, false);
                 progressEvent (originalName rq) (outputName rq) (0, false)]
             ++ more)%list)
  /\ (forall (indef : float -> Z) (durationSeconds : float),
        classifyLine indef durationSeconds 0 "frame=57" = Candidate 0)
  /\ (forall indef : float -> Z, classifyLine indef 10 300 "frame=0" = Candidate 0).
Proof.
  split; [reflexivity |].
  split; [reflexivity |].
  split; [exact shouldEmitProgress_first |].
  split; [| split; reflexivity].
  intros indef rq ex during late w sent metadata p line rest Hs Hp Hpipe Hst Hl Hk.
  rewrite (handleConvert_started _ _ _ _ _ metadata p) by assumption.
  cbn [snd]. unfold sentEvents.
  change (socket (osRemove ?a ?b)) with (socket b).
  set (w1 := emitProgress (originalName rq) 0 (outputName rq) false w).
  set (w2 := snd (store (originalName rq) {| Process := Some p |} w1)).
  set (w3 := snd (progressReader indef (originalName rq) (outputName rq)
                    (estimateDuration metadata) (estimateFrames metadata)
                    (progressLines ex) w2)).
  assert (Hs2 : socket w2
                = Some (sent ++ [progressEvent (originalName rq) (outputName rq)
                                   (0, false)])%list).
  { unfold w2, w1. rewrite (emitProgress_sent _ _ 0 false w sent Hs) by lia.
    reflexivity. }
  assert (Hs3 : exists tail : list Broadcast,
             socket w3
             = Some ((sent ++ [progressEvent (originalName rq) (outputName rq) (0, false)])
                     ++ progressEvent (originalName rq) (outputName rq) (0, false) :: tail)%list).
  { unfold w3, progressReader. erewrite reader_fold_events by exact Hs2.
    rewrite Hl. cbn [map readerTrace]. rewrite Hk.
    change (shouldEmitProgress 0 (- progressBroadcastStep)) with true.
    cbn [map]. eexists. reflexivity. }
  destruct Hs3 as (tail & Hs3).
  pose proof (logGrows_startedRun_tail indef rq ex during late metadata p w) as Hg.
  cbv zeta in Hg. fold w1 w2 w3 in Hg.
  destruct (Hg _ Hs3) as (more1 & Hrun).
  destruct (logGrows_convertFinish rq ex (next w)
              (startedRun indef rq ex during late metadata p w) _ Hrun) as (more2 & Hfin).
  rewrite Hfin. exists (tail ++ more1 ++ more2)%list.
  rewrite <- !app_assoc. reflexivity.
Qed.

(** A run with known totals whose first line is "frame=0", and a run of an
    input without duration or frame count. *)
Lemma zero_percent_emitted_twice_witness :
  let zero := progressEvent "a.mov" "u.mp4" (0, false) in
  (exists more : list Broadcast,
      sentEvents
        (snd (handleConvert indef_amd64 exampleRequest
                (exampleExternals ["frame=0"; "out_time_ms=4900"] false ""
                   (Some (probeOf "10" "10" "300" "30/1")))
                [] [] (initialWorld {[ "downloads/in-a.mov" ]})))
      = ([] ++ [zero; zero] ++ more)%list)
  /\ shouldEmitProgress 7 (- progressBroadcastStep) = true.
Proof.
  intros zero.
  destruct zero_percent_emitted_twice as (_ & _ & Hc & H & _).
  split.
  - apply (H indef_amd64 exampleRequest _ [] [] _ []
             (probeOf "10" "10" "300" "30/1") 7%nat "frame=0" ["out_time_ms=4900"]);
      reflexivity.
  - apply Hc. lia.
Defined.

(** ** Whole runs *)

(** A ten second input converted to mp4, with the progress lines
    [out_time_ms=2000], [out_time_ms=4900], [out_time_ms=6100] and
    [progress=end]: the percentages broadcast are 0, 20, 49, 61 and the
    completed 100, the answer is the JSON body, the output stays on disk,
    the upload is removed and the registry is empty again. *)
Lemma successful_run :
  let ex := exampleExternals
              ["out_time_ms=2000"; "out_time_ms=4900"; "out_time_ms=6100"; "progress=end"]
              false "" (Some (probeOf "10" "10" "300" "30/1")) in
  let result := handleConvert indef_amd64 exampleRequest ex [] []
                  (initialWorld {[ "downloads/in-a.mov" ]}) in
  sentEvents (snd result)
  = map (progressEvent "a.mov" "u.mp4")
      [(0, false); (20, false); (49, false); (61, false); (100, true)]
  /\ (exists body : convertResponse,
        fst result = WriteJSON StatusOK body
        /\ downloadUrl body = "/downloads/u.mp4" /\ resolution body = "1920x1080")
  /\ elements (files (snd result)) = ["downloads/u.mp4"]
  /\ conversions (snd result) !! "a.mov" = None.
Proof.
  cbv zeta. split; [vm_compute; reflexivity |].
  split.
  { exists (successResponse exampleRequest (probeOf "10" "10" "300" "30/1")).
    split; [| split]; vm_compute; reflexivity. }
  split; vm_compute; reflexivity.
Qed.

(** X9. When ffmpeg cannot be started the request fails with status 500, the
    only event is the initial 0%, and no job is registered. *)
Lemma launch_failure_registers_nothing (indef : float -> Z) (rq : Request)
    (ex : Externals) (during late : list Concurrent) (w : World)
    (metadata : ffprobeData) :
  probeInput ex = Some metadata -> stdoutPipeOk ex = true ->
  start ex = StartNotFound \/ start ex = StartFailed ->
  let result := handleConvert indef rq ex during late w in
  (exists message : string, fst result = HttpError message StatusInternalServerError)
  /\ conversions (snd result) = conversions w
  /\ heap (snd result) = heap w
  /\ sentEvents (snd result)
     = sentEvents (emitProgress (originalName rq) 0 (outputName rq) false w).
Proof.
  intros Hp Hpipe Hst. unfold handleConvert. rewrite Hp, Hpipe. cbn [negb].
  destruct Hst as [-> | ->]; cbn [fst snd osRemove setFiles conversions heap];
    (split; [eexists; reflexivity |]);
    unfold emitProgress; destruct (socket w); auto.
Qed.

(** ** What every reachable world satisfies *)

Lemma registryAllocated_ext (w w' : World) :
  next w' = next w -> conversions w' = conversions w ->
  registryAllocated w -> registryAllocated w'.
Proof. intros Hn Hc H n l. rewrite Hn, Hc. apply H. Qed.

Lemma registryAllocated_runConcurrent (a : Concurrent) (w : World) :
  registryAllocated w -> registryAllocated (runConcurrent w a).
Proof.
  intros H. destruct a as [payload | n c | n]; simpl.
  - destruct (onCancelConversion_cases payload w)
      as [-> | (proc & p & _ & _ & _ & ->)]; [exact H |].
    intros n l. unfold emitError, cancelledWorld.
    destruct (socket _); simpl; rewrite lookup_delete_Some; intros [_ H']; eapply H, H'.
  - intros n' l. unfold store. simpl. rewrite lookup_insert. case_decide.
    + intros [= <-]. lia.
    + intros H'. apply H in H'. lia.
  - intros n' l. unfold remove. simpl. rewrite lookup_delete_Some.
    intros [_ H']. eapply H, H'.
Qed.

Lemma emitProgress_setSocket (fileName : string) (c : Z) (outputName : string)
    (completed : bool) (w : World) :
  exists s : option (list Broadcast),
    emitProgress fileName c outputName completed w = setSocket w s.
Proof.
  unfold emitProgress. destruct (socket w) as [sent |] eqn:Hs; [eauto |].
  exists None. destruct w. simpl in Hs. now subst.
Qed.

Lemma reader_fold_setSocket (indef : float -> Z) (originalName outputName : string)
    (durationSeconds totalFrames : float) (lines : list string) :
  forall (last : Z) (w : World),
    exists s : option (list Broadcast),
      snd (fold_left (readerStep indef originalName outputName durationSeconds totalFrames)
             lines (last, w)) = setSocket w s.
Proof.
  induction lines as [| line rest IH]; intros last w.
  - exists (socket w). simpl. now destruct w.
  - cbn [fold_left]. rewrite readerStep_classify.
    destruct (classifyLine indef durationSeconds totalFrames line) as [c | |];
      [destruct (shouldEmitProgress c last) | |]; try apply IH.
    + destruct (emitProgress_setSocket originalName c outputName false w) as (s & ->).
      destruct (IH c (setSocket w s)) as (s' & ->). now exists s'.
    + destruct (emitProgress_setSocket originalName 100 outputName true w) as (s & ->).
      destruct (IH last (setSocket w s)) as (s' & ->). now exists s'.
Qed.

(** X10. The two conditions the statements about whole runs ask of the starting
    world hold in [initialWorld] and after every handler: the registry holds
    allocated addresses only, and the socket server is there. *)
Lemma handlers_preserve_world_conditions (indef : float -> Z) (rq : Request)
    (ex : Externals) (during late : list Concurrent) (a : Concurrent) (w : World) :
  (registryAllocated w ->
   registryAllocated (runConcurrent w a)
   /\ registryAllocated (snd (handleConvert indef rq ex during late w)))
  /\ logGrows w (runConcurrent w a)
  /\ logGrows w (snd (handleConvert indef rq ex during late w)).
Proof.
  assert (Hstore : forall (n : string) (c : Cmd) (w0 : World),
             registryAllocated w0 -> registryAllocated (snd (store n c w0))).
  { intros n c w0 H. apply (registryAllocated_runConcurrent (OtherStore n c) w0 H). }
  assert (Hfold : forall (l : list Concurrent) (w0 : World),
             registryAllocated w0 -> registryAllocated (fold_left runConcurrent l w0)).
  { induction l as [| a0 l IH]; intros w0 H; [exact H |].
    simpl. apply IH, registryAllocated_runConcurrent, H. }
  assert (Hfin : forall (proc : loc) (w0 : World),
             registryAllocated w0 -> registryAllocated (snd (convertFinish rq ex proc w0))).
  { intros proc w0 H.
    assert (Hr : registryAllocated (remove (originalName rq) w0))
      by apply (registryAllocated_runConcurrent (OtherRemove (originalName rq)) w0 H).
    destruct (convertFinish_cases rq ex proc w0)
      as [(_ & ->) | [(_ & _ & ->) | [(_ & _ & _ & ->) | (md & _ & _ & _ & ->)]]];
      cbn [snd]; try exact Hr.
    unfold emitError. destruct (socket _); exact Hr. }
  split; [| split].
  - intros H. split; [now apply registryAllocated_runConcurrent |].
    unfold handleConvert.
    destruct (probeInput ex) as [metadata |]; [| exact H].
    assert (H1 : registryAllocated
                   (emitProgress (originalName rq) 0 (outputName rq) false w)).
    { eapply registryAllocated_ext; [| | exact H];
        [apply emitProgress_next | apply emitProgress_conversions]. }
    destruct (stdoutPipeOk ex); cbn [negb]; [| exact H1].
    destruct (start ex) as [p | |]; [| exact H1 | exact H1].
    cbn [store fst snd].
    eapply registryAllocated_ext; [reflexivity | reflexivity |].
    apply Hfin, Hfold.
    eapply registryAllocated_ext with
      (w := fold_left runConcurrent during
              (snd (progressReader indef (originalName rq) (outputName rq)
                      (estimateDuration metadata) (estimateFrames metadata)
                      (progressLines ex)
                      (snd (store (originalName rq) {| Process := Some p |}
                              (emitProgress (originalName rq) 0 (outputName rq) false w)))))).
    1-2: destruct (outputWritten ex); reflexivity.
    apply Hfold. unfold progressReader.
    destruct (reader_fold_setSocket indef (originalName rq) (outputName rq)
                (estimateDuration metadata) (estimateFrames metadata) (progressLines ex)
                (- progressBroadcastStep)
                (snd (store (originalName rq) {| Process := Some p |}
                        (emitProgress (originalName rq) 0 (outputName rq) false w))))
      as (s & ->).
    eapply registryAllocated_ext; [reflexivity | reflexivity |].
    apply Hstore, H1.
  - apply logGrows_runConcurrent.
  - intros sent Hs. unfold handleConvert.
    destruct (probeInput ex) as [metadata |] eqn:Hp;
      [| exists []; simpl; now rewrite Hs, app_nil_r].
    assert (H1 : socket (emitProgress (originalName rq) 0 (outputName rq) false w)
                 = Some (sent ++ [progressEvent (originalName rq) (outputName rq)
                                    (0, false)])%list).
    { rewrite (emitProgress_sent _ _ 0 false w sent Hs) by lia. reflexivity. }
    destruct (stdoutPipeOk ex) eqn:Hpipe; cbn [negb]; [| simpl; eauto].
    destruct (start ex) as [p | |] eqn:Hst; [| simpl; eauto | simpl; eauto].
    pose proof (handleConvert_started indef rq ex during late metadata p w Hp Hpipe Hst)
      as Hrun.
    unfold handleConvert in Hrun. rewrite Hp, Hpipe, Hst in Hrun. cbn [negb] in Hrun.
    rewrite Hrun. clear Hrun. cbn [snd].
    change (socket (osRemove ?x ?y)) with (socket y).
    pose proof (logGrows_startedRun_tail indef rq ex during late metadata p w) as Hg.
    cbv zeta in Hg.
    assert (H2 : socket (snd (store (originalName rq) {| Process := Some p |}
                                (emitProgress (originalName rq) 0 (outputName rq) false w)))
                 = Some (sent ++ [progressEvent (originalName rq) (outputName rq)
                                    (0, false)])%list) by exact H1.
    assert (H3 : exists more3 : list Broadcast,
               socket (snd (progressReader indef (originalName rq) (outputName rq)
                              (estimateDuration metadata) (estimateFrames metadata)
                              (progressLines ex)
                              (snd (store (originalName rq) {| Process := Some p |}
                                      (emitProgress (originalName rq) 0 (outputName rq)
                                         false w)))))
               = Some (sent ++ more3)%list).
    { unfold progressReader. erewrite reader_fold_events by exact H2.
      simpl. rewrite <- app_assoc. eauto. }
    destruct H3 as (more3 & H3).
    destruct (Hg _ H3) as (more4 & H4).
    destruct (logGrows_convertFinish rq ex (next w)
                (startedRun indef rq ex during late metadata p w) _ H4) as (more5 & H5).
    rewrite H5. rewrite <- !app_assoc. eauto.
Qed.

(* ===================================================================== *)
(** * Part 10: further properties of the registry and the handlers        *)
(* ===================================================================== *)

(** ** The ways [handleConvert] returns *)

Lemma handleConvert_cases (indef : float -> Z) (rq : Request) (ex : Externals)
    (during late : list Concurrent) (w : World) :
  (probeInput ex = None
   /\ handleConvert indef rq ex during late w
      = (HttpError "Failed to analyze source file" StatusInternalServerError,
         osRemove (inputPath rq) (osRemove (outputPath rq) w)))
  \/ (exists message : string,
        (stdoutPipeOk ex = false \/ start ex = StartNotFound \/ start ex = StartFailed)
        /\ handleConvert indef rq ex during late w
           = (HttpError message StatusInternalServerError,
              osRemove (inputPath rq)
                (emitProgress (originalName rq) 0 (outputName rq) false w)))
  \/ (exists (metadata : ffprobeData) (p : pid),
        probeInput ex = Some metadata /\ stdoutPipeOk ex = true /\ start ex = Started p
        /\ handleConvert indef rq ex during late w
           = (fst (convertFinish rq ex (next w)
                     (startedRun indef rq ex during late metadata p w)),
              osRemove (inputPath rq)
                (snd (convertFinish rq ex (next w)
                        (startedRun indef rq ex during late metadata p w))))).
Proof.
  destruct (probeInput ex) as [metadata |] eqn:Hp.
  2: { left. split; [reflexivity |]. unfold handleConvert. now rewrite Hp. }
  right.
  destruct (stdoutPipeOk ex) eqn:Hpipe.
  2: { left. eexists. split; [now left |]. unfold handleConvert.
       rewrite Hp, Hpipe. reflexivity. }
  destruct (start ex) as [p | |] eqn:Hst.
  - right. exists metadata, p. split; [reflexivity |]. split; [reflexivity |].
    split; [reflexivity |]. now apply handleConvert_started.
  - left. eexists. split; [right; now left |]. unfold handleConvert.
    rewrite Hp, Hpipe, Hst. reflexivity.
  - left. eexists. split; [right; now right |]. unfold handleConvert.
    rewrite Hp, Hpipe, Hst. reflexivity.
Qed.

(** A property of worlds that the steps of a request keep is kept by the
    whole request. *)
Lemma handleConvert_preserves (Inv : World -> Prop) (indef : float -> Z)
    (rq : Request) (ex : Externals) (during late : list Concurrent) (w : World) :
  (forall w0 f c o b, Inv w0 -> Inv (emitProgress f c o b w0)) ->
  (forall w0 f m, Inv w0 -> Inv (emitError f m w0)) ->
  (forall w0 c, Inv w0 -> Inv (snd (store (originalName rq) c w0))) ->
  (forall w0 a, Inv w0 -> Inv (runConcurrent w0 a)) ->
  (forall w0 s, Inv w0 -> Inv (setFiles w0 s)) ->
  (forall w0 s, Inv w0 -> Inv (setReaped w0 s)) ->
  (forall w0, Inv w0 -> Inv (remove (originalName rq) w0)) ->
  Inv w -> Inv (snd (handleConvert indef rq ex during late w)).
Proof.
  intros Hprog Herr Hstore Hconc Hfiles Hreaped Hremove Hw.
  assert (Hos : forall path w0, Inv w0 -> Inv (osRemove path w0)).
  { intros path w0 H0. apply Hfiles, H0. }
  assert (Hfold : forall l w0, Inv w0 -> Inv (fold_left runConcurrent l w0)).
  { induction l as [| a l IH]; intros w0 H0; [exact H0 |]. simpl. apply IH, Hconc, H0. }
  assert (Hreader : forall name out d t lines last w0,
             Inv w0 -> Inv (snd (fold_left (readerStep indef name out d t) lines (last, w0)))).
  { induction lines as [| line rest IH]; intros last w0 H0; [exact H0 |].
    cbn [fold_left]. rewrite readerStep_classify.
    destruct (classifyLine indef d t line) as [c | |];
      [destruct (shouldEmitProgress c last) | |]; apply IH; auto. }
  destruct (handleConvert_cases indef rq ex during late w)
    as [(_ & ->) | [(message & _ & ->) | (metadata & p & _ & _ & _ & ->)]]; cbn [snd].
  - auto.
  - auto.
  - apply Hos.
    assert (Hrun : Inv (startedRun indef rq ex during late metadata p w)).
    { unfold startedRun. apply Hfold, Hreaped.
      assert (H4 : Inv (fold_left runConcurrent during
                          (snd (progressReader indef (originalName rq) (outputName rq)
                                  (estimateDuration metadata) (estimateFrames metadata)
                                  (progressLines ex)
                                  (snd (store (originalName rq) {| Process := Some p |}
                                          (emitProgress (originalName rq) 0 (outputName rq)
                                             false w))))))).
      { apply Hfold, Hreader, Hstore, Hprog, Hw. }
      destruct (outputWritten ex); [apply Hfiles |]; exact H4. }
    destruct (convertFinish_cases rq ex (next w)
                (startedRun indef rq ex during late metadata p w))
      as [(_ & ->) | [(_ & _ & ->) | [(_ & _ & _ & ->) | (md & _ & _ & _ & ->)]]];
      cbn [snd]; auto.
Qed.

(** ** Registering, overwriting and cancelling *)

(** X1. [store] allocates an address no key of the registry held, puts a
    process with the given command and a cleared flag there, registers it
    under the key, and leaves every other key and every other process as
    they were; it touches neither the socket nor the files. *)
Theorem store_registers_fresh_process (name : string) (c : Cmd) (w : World) :
  registryAllocated w ->
  let proc := fst (store name c w) in
  let w' := snd (store name c w) in
  proc = next w
  /\ conversions w' !! name = Some proc
  /\ heap w' proc = {| cmd := c; cancelled := false |}
  /\ (forall k : string, conversions w !! k <> Some proc)
  /\ (forall k : string, k <> name -> conversions w' !! k = conversions w !! k)
  /\ (forall l : loc, l <> proc -> heap w' l = heap w l)
  /\ registryAllocated w'
  /\ socket w' = socket w /\ files w' = files w.
Proof.
  intros Ha. unfold store. cbn [fst snd]. simpl.
  split; [reflexivity |].
  split; [apply lookup_insert_eq |].
  split; [apply fn_lookup_insert |].
  split; [intros k Hk; apply Ha in Hk; lia |].
  split; [intros k Hk; now apply lookup_insert_ne |].
  split; [intros l Hl; now apply fn_lookup_insert_ne |].
  split; [| auto].
  apply (registryAllocated_runConcurrent (OtherStore name c) w Ha).
Qed.

Lemma store_registers_fresh_process_witness :
  let w := snd (store "b.mov" {| Process := Some 3%nat |} (initialWorld ∅)) in
  let w' := snd (store "a.mov" {| Process := Some 7%nat |} w) in
  fst (store "a.mov" {| Process := Some 7%nat |} w) = 1%nat
  /\ conversions w' !! "a.mov" = Some 1%nat
  /\ conversions w' !! "b.mov" = Some 0%nat
  /\ heap w' 1%nat = {| cmd := {| Process := Some 7%nat |}; cancelled := false |}.
Proof.
  intros w w'.
  assert (Ha : registryAllocated w).
  { apply (registryAllocated_runConcurrent (OtherStore "b.mov" _) _),
      initialWorld_allocated. }
  destruct (store_registers_fresh_process "a.mov" {| Process := Some 7%nat |} w Ha)
    as (H1 & H2 & H3 & _ & H5 & _).
  split; [exact H1 |]. split; [exact H2 |].
  split; [| exact H3].
  transitivity (conversions w !! "b.mov"); [| reflexivity].
  apply (H5 "b.mov"). discriminate.
Defined.

Lemma emitError_conversions (fileName message : string) (w : World) :
  conversions (emitError fileName message w) = conversions w.
Proof. unfold emitError. now destruct (socket w). Qed.

Lemma emitError_next (fileName message : string) (w : World) :
  next (emitError fileName message w) = next w.
Proof. unfold emitError. now destruct (socket w). Qed.

(** X2. A job is cancelled at most once: after a [cancel] that returned ok, the
    next [cancel] of the key returns nil and not-ok and changes nothing;
    and a cancel request handled twice leaves the world the first handling
    left, so it broadcasts its message at most once. A request whose file
    name is empty changes nothing, whatever is registered. *)
Theorem cancel_only_once :
  (forall (name : string) (w w' : World) (r : option loc),
      cancel name w = (r, true, w') -> cancel name w' = (None, false, w'))
  /\ (forall (payload : cancelPayload) (w : World),
        onCancelConversion payload (onCancelConversion payload w)
        = onCancelConversion payload w)
  /\ (forall w : World, onCancelConversion {| payloadFileName := "" |} w = w).
Proof.
  split; [| split].
  - intros name w w' r H.
    destruct (cancel_cases name w)
      as [(Hc & _) | (proc & p & _ & _ & [(_ & Hc) | (_ & Hc)])];
      rewrite Hc in H; inversion H; subst.
    unfold cancel, cancelledWorld. simpl. now rewrite lookup_delete_eq.
  - intros payload w.
    destruct (onCancelConversion_cases payload w)
      as [Hw | (proc & p & _ & _ & _ & Hw)]; rewrite Hw; [exact Hw |].
    unfold onCancelConversion.
    destruct (String.eqb (payloadFileName payload) ""); [reflexivity |].
    unfold cancel. rewrite emitError_conversions.
    unfold cancelledWorld. simpl. now rewrite lookup_delete_eq.
  - reflexivity.
Qed.

Lemma cancel_only_once_witness :
  let running := snd (store "a.mov" {| Process := Some 7%nat |} (initialWorld ∅)) in
  let w' := snd (cancel "a.mov" running) in
  cancel "a.mov" running = (Some 0%nat, true, w')
  /\ cancel "a.mov" w' = (None, false, w').
Proof.
  intros running w'. destruct cancel_only_once as (H & _).
  split; [reflexivity |].
  apply (H "a.mov" running w' (Some 0%nat)). reflexivity.
Defined.

Lemma unreachable_process_untouched (p : loc) (a : Concurrent) (w : World) :
  (forall k : string, conversions w !! k <> Some p) -> (p < next w)%nat ->
  (forall k : string, conversions (runConcurrent w a) !! k <> Some p)
  /\ (p < next (runConcurrent w a))%nat
  /\ heap (runConcurrent w a) p = heap w p.
Proof.
  intros Hu Hn. destruct a as [payload | n c | n]; simpl.
  - destruct (onCancelConversion_cases payload w)
      as [-> | (proc & q & Hl & _ & _ & ->)]; [auto |].
    rewrite emitError_next, emitError_heap. unfold cancelledWorld. simpl.
    split.
    { intros k. rewrite emitError_conversions. simpl.
      rewrite lookup_delete_Some. intros [_ H]. now apply (Hu k). }
    split; [exact Hn |].
    apply fn_lookup_insert_ne. intros ->. now apply (Hu _ Hl).
  - unfold store. simpl. split.
    { intros k. rewrite lookup_insert. case_decide.
      - intros [= H']. lia.
      - apply Hu. }
    split; [lia |]. apply fn_lookup_insert_ne. lia.
  - unfold remove. simpl. split; [| auto].
    intros k. rewrite lookup_delete_Some. intros [_ H]. now apply (Hu k).
Qed.

(** X3. Two conversions of files with the same name: the second [store]
    overwrites the entry of the first, and from then on no sequence of
    cancel requests and registry calls reaches the first process; its flag
    stays cleared and no key refers to it. *)
Theorem overwritten_job_cannot_be_cancelled (n : string) (c1 c2 : Cmd) (w : World)
    (actions : list Concurrent) :
  registryAllocated w ->
  let p1 := fst (store n c1 w) in
  let w1 := snd (store n c1 w) in
  let p2 := fst (store n c2 w1) in
  let w2 := snd (store n c2 w1) in
  let w3 := fold_left runConcurrent actions w2 in
  p1 <> p2
  /\ conversions w2 !! n = Some p2
  /\ (forall k : string, conversions w3 !! k <> Some p1)
  /\ heap w3 p1 = {| cmd := c1; cancelled := false |}.
Proof.
  intros Ha p1 w1 p2 w2 w3.
  assert (H2 : (forall k : string, conversions w2 !! k <> Some p1)
               /\ (p1 < next w2)%nat
               /\ heap w2 p1 = {| cmd := c1; cancelled := false |}).
  { unfold w2, w1, p1, store. simpl. split.
    { intros k. rewrite lookup_insert. case_decide.
      - intros [= H']. lia.
      - rewrite lookup_insert. case_decide; [congruence |].
        intros H'. apply Ha in H'. lia. }
    split; [lia |].
    rewrite fn_lookup_insert_ne by lia. apply fn_lookup_insert. }
  split; [unfold p1, p2, w1, store; simpl; lia |].
  split; [unfold w2, p2, store; simpl; apply lookup_insert_eq |].
  subst w3. clearbody w2. clear w1 p2.
  revert w2 H2. induction actions as [| a rest IH]; intros w2 (Hu & Hn & Hh).
  - auto.
  - simpl. apply IH.
    destruct (unreachable_process_untouched p1 a w2 Hu Hn) as (Hu' & Hn' & Hh').
    rewrite Hh'. auto.
Qed.

Lemma overwritten_job_cannot_be_cancelled_witness :
  let first := {| Process := Some 7%nat |} in
  let second := {| Process := Some 8%nat |} in
  let w2 := snd (store "a.mov" second (snd (store "a.mov" first (initialWorld ∅)))) in
  let w3 := fold_left runConcurrent
              [CancelRequest {| payloadFileName := "a.mov" |};
               CancelRequest {| payloadFileName := "a.mov" |}] w2 in
  heap w3 0%nat = {| cmd := first; cancelled := false |}
  /\ cancelled (heap w3 1%nat) = true.
Proof.
  intros first second w2 w3.
  destruct (overwritten_job_cannot_be_cancelled "a.mov" first second (initialWorld ∅)
              [CancelRequest {| payloadFileName := "a.mov" |};
               CancelRequest {| payloadFileName := "a.mov" |}]
              (initialWorld_allocated ∅)) as (_ & _ & _ & H).
  split; [exact H | reflexivity].
Defined.

Lemma emitProgress_heap (fileName : string) (c : Z) (outputName : string)
    (completed : bool) (w : World) :
  heap (emitProgress fileName c outputName completed w) = heap w.
Proof. unfold emitProgress. now destruct (socket w). Qed.

Lemma flag_kept_runConcurrent (proc : loc) (a : Concurrent) (w : World) :
  (proc < next w)%nat /\ cancelled (heap w proc) = true ->
  (proc < next (runConcurrent w a))%nat
  /\ cancelled (heap (runConcurrent w a) proc) = true.
Proof.
  intros (Hn & Hf). destruct a as [payload | n c | n]; simpl.
  - destruct (onCancelConversion_cases payload w)
      as [-> | (l & q & _ & _ & _ & ->)]; [auto |].
    rewrite emitError_next, emitError_heap. unfold cancelledWorld. simpl.
    split; [exact Hn |].
    destruct (decide (l = proc)) as [-> | Hne].
    + now rewrite fn_lookup_insert.
    + now rewrite fn_lookup_insert_ne.
  - unfold store. simpl. split; [lia |]. rewrite fn_lookup_insert_ne by lia. exact Hf.
  - unfold remove. simpl. auto.
Qed.

(** X4. A cancellation flag that is set stays set: no cancel request, no
    registry call of another conversion and no later request clears the
    flag of an allocated process. *)
Theorem cancelled_flag_never_reset (indef : float -> Z) (rq : Request) (ex : Externals)
    (during late actions : list Concurrent) (proc : loc) (w : World) :
  (proc < next w)%nat -> cancelled (heap w proc) = true ->
  cancelled (heap (fold_left runConcurrent actions w) proc) = true
  /\ cancelled (heap (snd (handleConvert indef rq ex during late w)) proc) = true.
Proof.
  intros Hn Hf. split.
  - assert (H : (proc < next w)%nat /\ cancelled (heap w proc) = true) by auto.
    clear Hn Hf. revert w H. induction actions as [| a rest IH]; intros w H.
    + apply H.
    + simpl. apply IH, flag_kept_runConcurrent, H.
  - apply (handleConvert_preserves
             (fun w0 => (proc < next w0)%nat /\ cancelled (heap w0 proc) = true));
      try (intros; assumption).
    + intros w0 f c o b H. now rewrite emitProgress_next, emitProgress_heap.
    + intros w0 f m H. now rewrite emitError_next, emitError_heap.
    + intros w0 c H. apply (flag_kept_runConcurrent proc (OtherStore _ c) w0 H).
    + intros w0 a H. now apply flag_kept_runConcurrent.
    + auto.
Qed.

Lemma cancelled_flag_never_reset_witness :
  let w := snd (cancel "a.mov"
                  (snd (store "a.mov" {| Process := Some 7%nat |} (initialWorld ∅)))) in
  let ex := exampleExternals ["frame=30"] false "" None in
  cancelled (heap w 0%nat) = true
  /\ cancelled (heap (snd (handleConvert indef_amd64 exampleRequest ex
                             [OtherStore "b.mov" {| Process := None |}] [] w)) 0%nat)
     = true.
Proof.
  intros w ex. split; [reflexivity |].
  apply (cancelled_flag_never_reset indef_amd64 exampleRequest ex
           [OtherStore "b.mov" {| Process := None |}] [] [] 0%nat w).
  - change (0 < 1)%nat. lia.
  - reflexivity.
Defined.

Lemma progressInRange_emitProgress (f : string) (c : Z) (o : string) (b : bool)
    (w : World) :
  Forall progressInRange (sentEvents w) ->
  Forall progressInRange (sentEvents (emitProgress f c o b w)).
Proof.
  unfold sentEvents, emitProgress.
  destruct (socket w) as [sent |] eqn:Hs; [| now rewrite Hs].
  simpl. intros H. apply Forall_app. split; [exact H |].
  constructor; [| constructor]. simpl. apply clamp_range. lia.
Qed.

Lemma progressInRange_emitError (f m : string) (w : World) :
  Forall progressInRange (sentEvents w) ->
  Forall progressInRange (sentEvents (emitError f m w)).
Proof.
  unfold sentEvents, emitError.
  destruct (socket w) as [sent |] eqn:Hs; [| now rewrite Hs].
  simpl. intros H. apply Forall_app. split; [exact H |].
  constructor; [exact I | constructor].
Qed.

Lemma progressInRange_runConcurrent (a : Concurrent) (w : World) :
  Forall progressInRange (sentEvents w) ->
  Forall progressInRange (sentEvents (runConcurrent w a)).
Proof.
  intros H. destruct a as [payload | n c | n]; simpl; [| exact H | exact H].
  destruct (onCancelConversion_cases payload w)
    as [-> | (l & q & _ & _ & _ & ->)]; [exact H |].
  apply progressInRange_emitError. exact H.
Qed.

(** X5. Every progress event that reaches the socket carries a percentage
    between 0 and 100: [emitProgress] clamps, so this holds of the log
    after any request and any cancel requests when it held before (it
    holds of the empty log). *)
Theorem broadcast_progress_in_range (indef : float -> Z) (rq : Request) (ex : Externals)
    (during late actions : list Concurrent) (w : World) :
  Forall progressInRange (sentEvents w) ->
  Forall progressInRange
    (sentEvents (snd (handleConvert indef rq ex during late
                        (fold_left runConcurrent actions w)))).
Proof.
  intros H.
  assert (Hfold : Forall progressInRange (sentEvents (fold_left runConcurrent actions w))).
  { revert w H. induction actions as [| a rest IH]; intros w H; [exact H |].
    simpl. apply IH, progressInRange_runConcurrent, H. }
  apply (handleConvert_preserves (fun w0 => Forall progressInRange (sentEvents w0)));
    try (intros; assumption).
  - intros w0 f c o b. apply progressInRange_emitProgress.
  - intros w0 f m. apply progressInRange_emitError.
  - intros w0 a. apply progressInRange_runConcurrent.
Qed.

Lemma broadcast_progress_in_range_witness :
  let ex := exampleExternals ["frame=9000"; "out_time_ms=-5"; "progress=end"] true
              "Unknown encoder" None in
  Forall progressInRange
    (sentEvents (snd (handleConvert indef_amd64 exampleRequest ex
                        [CancelRequest {| payloadFileName := "b.mov" |}] []
                        (fold_left runConcurrent
                           [OtherStore "b.mov" {| Process := Some 3%nat |}]
                           (initialWorld ∅))))).
Proof.
  intros ex.
  apply (broadcast_progress_in_range indef_amd64 exampleRequest ex
           [CancelRequest {| payloadFileName := "b.mov" |}] []
           [OtherStore "b.mov" {| Process := Some 3%nat |}] (initialWorld ∅)).
  simpl. constructor.
Defined.

(** ** The reader's broadcasts *)

Lemma throttle_length (candidates : list Z) :
  forall last : Z,
    -5 <= last <= 100 -> Forall (fun c => 0 <= c <= 100) candidates ->
    Z.of_nat (length (throttle last candidates)) <= (104 - last) / 5.
Proof.
  induction candidates as [| c rest IH]; intros last Hl Hc.
  - simpl. apply Z.div_pos; lia.
  - inversion Hc as [| ? ? Hc1 Hc2]; subst. cbn [throttle].
    destruct (shouldEmitProgress c last) eqn:He.
    + apply shouldEmitProgress_iff in He; [| unfold minInt64, maxInt64; lia ..].
      unfold progressBroadcastStep in He.
      cbn [length]. specialize (IH c ltac:(lia) Hc2).
      assert (H1 : (104 - c) / 5 + 1 <= (104 - last) / 5).
      { replace ((104 - c) / 5 + 1) with ((104 - c + 1 * 5) / 5)
          by (rewrite Z.div_add by lia; reflexivity).
        destruct He as (Hlt & [H100 | Hstep]).
        - assert (c = 100) by lia. subst c.
          change ((104 - 100 + 1 * 5) / 5) with 1.
          apply Z.div_le_lower_bound; lia.
        - apply Z.div_le_mono; lia. }
      lia.
    + apply IH; assumption.
Qed.

Lemma candidatesOf_range (indef : float -> Z) (d t : float) (lines : list string) :
  Forall (fun c => 0 <= c <= 100) (candidatesOf (map (classifyLine indef d t) lines)).
Proof.
  induction lines as [| line rest IH]; [constructor |].
  cbn [map candidatesOf flat_map]. fold (candidatesOf (map (classifyLine indef d t) rest)).
  destruct (classifyLine indef d t line) as [c | |] eqn:Hk; [| exact IH | exact IH].
  constructor; [| exact IH]. eapply classifyLine_range, Hk.
Qed.

Lemma readerTrace_range (kinds : list lineKind) :
  forall last : Z,
    Forall (fun c => 0 <= c <= 100) (candidatesOf kinds) ->
    Forall (fun e : Z * bool => 0 <= fst e <= 100) (readerTrace last kinds).
Proof.
  induction kinds as [| k rest IH]; intros last H; [constructor |].
  destruct k as [c | |]; cbn [readerTrace].
  - cbn [candidatesOf flat_map app] in H. fold (candidatesOf rest) in H.
    inversion H as [| ? ? H1 H2]; subst.
    destruct (shouldEmitProgress c last); [constructor; [exact H1 |] |]; now apply IH.
  - constructor; [simpl; lia | now apply IH].
  - now apply IH.
Qed.

(** X6. One reader broadcasts at most 21 throttled progress events, whatever
    ffmpeg prints and however many lines it prints: they start above -5,
    stay within 0..100 and, below 100, are at least 5 apart. Apart from
    them it broadcasts one completed 100 per [progress=end] line, and it
    changes nothing of the world but the socket's log. *)
Theorem reader_broadcasts_at_most_21 (indef : float -> Z)
    (originalName outputName : string) (durationSeconds totalFrames : float)
    (lines : list string) (w : World) (sent : list Broadcast) :
  socket w = Some sent ->
  let trace := readerTrace (- progressBroadcastStep)
                 (map (classifyLine indef durationSeconds totalFrames) lines) in
  snd (progressReader indef originalName outputName durationSeconds totalFrames lines w)
  = setSocket w (Some (sent ++ map (progressEvent originalName outputName) trace)%list)
  /\ (length (filter (fun e => negb (snd e)) trace) <= 21)%nat
  /\ Forall (fun e : Z * bool => 0 <= fst e <= 100) trace
  /\ Forall (fun e : Z * bool => snd e = true -> fst e = 100) trace.
Proof.
  intros Hs trace.
  split; [apply reader_fold_events, Hs |].
  split.
  - rewrite <- (length_map fst). unfold trace. rewrite readerTrace_throttle.
    pose proof (throttle_length
                  (candidatesOf (map (classifyLine indef durationSeconds totalFrames) lines))
                  (- progressBroadcastStep)) as H.
    change (- progressBroadcastStep) with (-5) in *.
    specialize (H ltac:(lia) (candidatesOf_range indef durationSeconds totalFrames lines)).
    change ((104 - -5) / 5) with 21 in H. lia.
  - split; [apply readerTrace_range, candidatesOf_range |].
    unfold trace. generalize (- progressBroadcastStep).
    induction (map (classifyLine indef durationSeconds totalFrames) lines) as [| k rest IH];
      intros last; [constructor |].
    destruct k as [c | |]; cbn [readerTrace]; [| constructor; [reflexivity | apply IH] | apply IH].
    destruct (shouldEmitProgress c last); [constructor; [discriminate |] |]; apply IH.
Qed.

Lemma reader_broadcasts_at_most_21_witness :
  let lines := ["frame=30"; "frame=31"; "frame=150"; "progress=end"] in
  let w' := snd (progressReader indef_amd64 "a.mov" "u.mp4" (SF2Prim (S754_finite false 5 1))
                   (SF2Prim (S754_finite false 75 2)) lines (initialWorld ∅)) in
  (length (filter (fun e => negb (snd e))
             (readerTrace (- progressBroadcastStep)
                (map (classifyLine indef_amd64 (SF2Prim (S754_finite false 5 1))
                        (SF2Prim (S754_finite false 75 2))) lines))) <= 21)%nat
  /\ sentEvents w'
     = map (progressEvent "a.mov" "u.mp4") [(10, false); (50, false); (100, true)].
Proof.
  intros lines w'.
  destruct (reader_broadcasts_at_most_21 indef_amd64 "a.mov" "u.mp4"
              (SF2Prim (S754_finite false 5 1)) (SF2Prim (S754_finite false 75 2))
              lines (initialWorld ∅) [] eq_refl) as (_ & H & _).
  split; [exact H |]. vm_compute. reflexivity.
Defined.

(** ** Answers and clean-up of a whole request *)

(** X7. Every return of [handleConvert] leaves the stored upload deleted. The
    JSON body is written only with status 200, and only when ffmpeg was
    started, [Wait] returned no error, the output could be probed and its
    duration is a number JSON can carry; when all of this holds but the
    duration is NaN or an infinity, the answer is the header with status
    200 and no body. Every other answer is an error with status 400, 409
    or 500. *)
Theorem handleConvert_answers (indef : float -> Z) (rq : Request) (ex : Externals)
    (during late : list Concurrent) (w : World) :
  let result := handleConvert indef rq ex during late w in
  (inputPath rq ∉ files (snd result))
  /\ match fst result with
     | WriteJSON status body =>
         status = StatusOK
         /\ (exists p : pid, start ex = Started p) /\ stdoutPipeOk ex = true
         /\ waitFailed ex = false
         /\ (exists outputMetadata : ffprobeData,
               probeOutput ex = Some outputMetadata
               /\ body = successResponse rq outputMetadata)
         /\ is_finite (duration body) = true
     | WriteJSONFailed status =>
         status = StatusOK
         /\ (exists p : pid, start ex = Started p) /\ stdoutPipeOk ex = true
         /\ waitFailed ex = false
         /\ (exists outputMetadata : ffprobeData,
               probeOutput ex = Some outputMetadata
               /\ is_finite (duration (successResponse rq outputMetadata)) = false)
     | HttpError message status =>
         status = StatusBadRequest \/ status = StatusConflict
         \/ status = StatusInternalServerError
     end.
Proof.
  cbv zeta.
  destruct (handleConvert_cases indef rq ex during late w)
    as [(_ & ->) | [(message & _ & ->) | (metadata & p & _ & Hpipe & Hst & ->)]];
    cbn [fst snd]; (split; [apply osRemove_absent |]); [auto | auto |].
  destruct (convertFinish_cases rq ex (next w)
              (startedRun indef rq ex during late metadata p w))
    as [(_ & ->) | [(_ & _ & ->) | [(_ & _ & _ & ->) | (md & _ & Hw & Hpo & ->)]]];
    cbn [fst]; [auto | | auto |].
  - destruct (mapFFmpegError_status (stderrText ex) (format rq)) as [-> | ->]; auto.
  - unfold writeJSON.
    destruct (is_finite (duration (successResponse rq md))) eqn:Hfin.
    + split; [reflexivity |]. split; [now exists p |]. split; [exact Hpipe |].
      split; [exact Hw |]. split; [now exists md | exact Hfin].
    + split; [reflexivity |]. split; [now exists p |]. split; [exact Hpipe |].
      split; [exact Hw |]. now exists md.
Qed.

(** X8. When a request that started ffmpeg returns, no job is registered under
    its file name, whoever stored the entry: [remove] deletes by key, so
    the entry of another conversion of a file with the same name, stored
    meanwhile, is lost as well. *)
Theorem finished_run_unregisters_name (indef : float -> Z) (rq : Request)
    (ex : Externals) (during late : list Concurrent) (w : World)
    (metadata : ffprobeData) (p : pid) :
  probeInput ex = Some metadata -> stdoutPipeOk ex = true -> start ex = Started p ->
  let w' := snd (handleConvert indef rq ex during late w) in
  conversions w' !! originalName rq = None
  /\ forall payload : cancelPayload,
       payloadFileName payload = originalName rq -> onCancelConversion payload w' = w'.
Proof.
  intros Hp Hpipe Hst w'.
  assert (H : conversions w' !! originalName rq = None).
  { unfold w'. rewrite (handleConvert_started indef rq ex during late metadata p w Hp Hpipe Hst).
    cbn [snd].
    destruct (convertFinish_cases rq ex (next w)
                (startedRun indef rq ex during late metadata p w))
      as [(_ & ->) | [(_ & _ & ->) | [(_ & _ & _ & ->) | (md & _ & _ & _ & ->)]]];
      cbn [snd osRemove setFiles conversions]; rewrite ?emitError_conversions;
      unfold remove; simpl; apply lookup_delete_eq. }
  split; [exact H |].
  intros payload Hn. unfold onCancelConversion, cancel. rewrite Hn, H.
  now destruct (String.eqb (originalName rq) "").
Qed.

Lemma finished_run_unregisters_name_witness :
  let other := {| Process := Some 8%nat |} in
  let ex := exampleExternals ["frame=30"] false "" (Some (probeOf "10" "10" "300" "30/1")) in
  let w' := snd (handleConvert indef_amd64 exampleRequest ex [] [OtherStore "a.mov" other]
                   (initialWorld ∅)) in
  conversions w' !! "a.mov" = None
  /\ heap w' 1%nat = {| cmd := other; cancelled := false |}.
Proof.
  intros other ex w'.
  destruct (finished_run_unregisters_name indef_amd64 exampleRequest ex []
              [OtherStore "a.mov" other] (initialWorld ∅)
              (probeOf "10" "10" "300" "30/1") 7%nat eq_refl eq_refl eq_refl) as (H & _).
  split; [exact H | reflexivity].
Defined.

Lemma launch_failure_registers_nothing_witness :
  let ex := {| probeInput := Some (probeOf "10" "10" "300" "30/1"); stdoutPipeOk := true;
               start := StartNotFound; progressLines := []; outputWritten := false;
               waitFailed := false; stderrText := ""; probeOutput := None |} in
  let result := handleConvert indef_amd64 exampleRequest ex [] [] (initialWorld ∅) in
  conversions (snd result) = ∅
  /\ sentEvents (snd result) = [progressEvent "a.mov" "u.mp4" (0, false)].
Proof.
  intros ex result.
  destruct (launch_failure_registers_nothing indef_amd64 exampleRequest ex [] []
              (initialWorld ∅) (probeOf "10" "10" "300" "30/1") eq_refl eq_refl
              (or_introl eq_refl)) as (_ & H1 & _ & H2).
  split; [exact H1 | exact H2].
Defined.

(* ===================================================================== *)
(** * Part 11: further properties of the estimator and the reader's lines *)
(* ===================================================================== *)

(** ** Stream selection *)

(** X13. [firstVideoStream] returns nil exactly for an empty list; otherwise it
    returns the first stream with a positive width or a positive height
    (one of them is enough), and the first stream of the list when no
    stream has one. *)
Theorem firstVideoStream_spec (streams : list ffprobeStream) :
  let sized (stream : ffprobeStream) := Width stream > 0 \/ Height stream > 0 in
  (firstVideoStream streams = None <-> streams = [])
  /\ (forall (before after : list ffprobeStream) (stream : ffprobeStream),
        streams = (before ++ stream :: after)%list ->
        Forall (fun other => ~ sized other) before -> sized stream ->
        firstVideoStream streams = Some stream)
  /\ (Forall (fun other => ~ sized other) streams ->
      firstVideoStream streams = head streams)
  /\ (forall stream : ffprobeStream,
        firstVideoStream streams = Some stream ->
        In stream streams
        /\ (sized stream \/ (head streams = Some stream
                             /\ Forall (fun other => ~ sized other) streams))).
Proof.
  intros sized.
  assert (Hdec : forall s : ffprobeStream,
             (Width s >? 0) || (Height s >? 0) = true <-> sized s).
  { intros s. unfold sized. rewrite orb_true_iff.
    destruct (Z.gtb_spec (Width s) 0), (Z.gtb_spec (Height s) 0); intuition (try lia; try discriminate). }
  assert (Hnone : forall l : list ffprobeStream,
             Forall (fun other => ~ sized other) l ->
             List.find (fun stream => (Width stream >? 0) || (Height stream >? 0)) l = None).
  { induction l as [| s l IH]; intros H; [reflexivity |].
    inversion H as [| ? ? H1 H2]; subst. simpl.
    destruct ((Width s >? 0) || (Height s >? 0)) eqn:E; [| now apply IH].
    apply Hdec in E. contradiction. }
  assert (Hall : forall l : list ffprobeStream,
             List.find (fun stream => (Width stream >? 0) || (Height stream >? 0)) l = None ->
             Forall (fun other => ~ sized other) l).
  { induction l as [| s l IH]; intros H; [constructor |]. simpl in H.
    destruct ((Width s >? 0) || (Height s >? 0)) eqn:E; [discriminate |].
    constructor; [| now apply IH]. intros Hs. apply Hdec in Hs. congruence. }
  unfold firstVideoStream. split; [| split; [| split]].
  - destruct (List.find _ streams) as [s |] eqn:Hf.
    + split; [discriminate |]. intros ->. discriminate Hf.
    + destruct streams; simpl; split; congruence.
  - intros before after stream -> Hb Hs.
    assert (Hf : List.find (fun stream => (Width stream >? 0) || (Height stream >? 0))
                   (before ++ stream :: after) = Some stream).
    { clear Hnone Hall. induction before as [| s l IH]; simpl.
      - apply Hdec in Hs. now rewrite Hs.
      - inversion Hb as [| ? ? H1 H2]; subst.
        destruct ((Width s >? 0) || (Height s >? 0)) eqn:E; [| now apply IH].
        apply Hdec in E. contradiction. }
    now rewrite Hf.
  - intros H. now rewrite (Hnone _ H).
  - intros stream. destruct (List.find _ streams) as [s |] eqn:Hf.
    + intros [= ->]. apply find_some in Hf as [Hin Hs]. split; [exact Hin |].
      left. now apply Hdec.
    + intros Hh. split.
      * destruct streams as [| s l]; [discriminate |]. injection Hh as ->. now left.
      * right. split; [exact Hh |]. now apply Hall.
Qed.

(** ** Clamping *)

(** X14. For bounds in order, [clamp] is the nearest value of the interval: it
    lands in the interval, leaves the values of the interval alone (so it
    is idempotent), and is monotone. With the bounds out of order it
    returns one of the two bounds. *)
Theorem clamp_spec (value other lo hi : Z) :
  (lo <= hi ->
   lo <= clamp value lo hi <= hi
   /\ (clamp value lo hi = value <-> lo <= value <= hi)
   /\ clamp (clamp value lo hi) lo hi = clamp value lo hi
   /\ (value <= other -> clamp value lo hi <= clamp other lo hi)
   /\ clamp value lo hi = Z.max lo (Z.min value hi))
  /\ (hi < lo -> clamp value lo hi = lo \/ clamp value lo hi = hi).
Proof.
  unfold clamp.
  split; intros H.
  - repeat match goal with
      | |- context [?a <? ?b] => destruct (Z.ltb_spec a b)
      | |- context [?a >? ?b] => destruct (Z.gtb_spec a b)
      end; repeat split; intros; lia.
  - destruct (Z.ltb_spec value lo); [now left |].
    destruct (Z.gtb_spec value hi); [now right | lia].
Qed.

(** ** Splitting on a one-byte separator *)

Lemma append_String (x : ascii) (s t : string) :
  (String x s ++ t)%string = String x (s ++ t).
Proof. reflexivity. Qed.

Lemma append_nil (t : string) : ("" ++ t)%string = t.
Proof. reflexivity. Qed.

Lemma append_cons_assoc (piece : string) (c : ascii) (a : string) :
  ((piece ++ String c EmptyString) ++ a = piece ++ String c a)%string.
Proof.
  induction piece as [| x piece IH]; [reflexivity |].
  rewrite !append_String. now rewrite IH.
Qed.

Lemma append_empty_r (s : string) : (s ++ "")%string = s.
Proof.
  induction s as [| x s IH]; [reflexivity |]. rewrite append_String. now rewrite IH.
Qed.

Lemma HasPrefix_empty (s : string) : HasPrefix s EmptyString = true.
Proof. now destruct s. Qed.

Lemma Contains_char_cons (x c : ascii) (s : string) :
  Contains (String x s) (String c EmptyString) = Ascii.eqb x c || Contains s (String c EmptyString).
Proof.
  change (Contains (String x s) (String c EmptyString))
    with ((Ascii.eqb x c && HasPrefix s EmptyString) || Contains s (String c EmptyString)).
  rewrite HasPrefix_empty. now rewrite andb_true_r.
Qed.

Lemma Contains_char_app (c : ascii) (a b : string) :
  Contains (a ++ b) (String c EmptyString)
  = Contains a (String c EmptyString) || Contains b (String c EmptyString).
Proof.
  induction a as [| x a IH].
  - rewrite append_nil. reflexivity.
  - rewrite append_String, !Contains_char_cons, IH. now rewrite orb_assoc.
Qed.

Lemma genSplit_exhausted (sep : string) (s : string) :
  forall piece : string, genSplit sep (Some O) O piece s = [(piece ++ s)%string].
Proof.
  induction s as [| x s IH]; intros piece; simpl.
  - now rewrite append_empty_r.
  - rewrite IH. now rewrite append_cons_assoc.
Qed.

Lemma genSplit_no_sep (c : ascii) (cuts : option nat) (a : string) :
  forall piece : string,
    Contains a (String c EmptyString) = false ->
    genSplit (String c EmptyString) cuts O piece a = [(piece ++ a)%string].
Proof.
  induction a as [| x a IH]; intros piece H.
  - simpl. now rewrite append_empty_r.
  - rewrite Contains_char_cons in H. apply orb_false_iff in H as [Hx Ha].
    cbn [genSplit HasPrefix]. rewrite Hx. cbn [andb]. rewrite andb_false_r.
    rewrite IH by exact Ha. now rewrite append_cons_assoc.
Qed.

Lemma genSplit_cut (c : ascii) (cuts : option nat) (a rest : string) :
  forall piece : string,
    Contains a (String c EmptyString) = false -> cuts <> Some O ->
    genSplit (String c EmptyString) cuts O piece (a ++ String c rest)
    = (piece ++ a)%string
      :: genSplit (String c EmptyString) (option_map Nat.pred cuts) O EmptyString rest.
Proof.
  induction a as [| x a IH]; intros piece H Hc.
  - rewrite append_nil. cbn [genSplit HasPrefix]. rewrite Ascii.eqb_refl, HasPrefix_empty.
    cbn [andb]. rewrite append_empty_r.
    destruct cuts as [[| k] |]; [congruence | reflexivity | reflexivity].
  - rewrite Contains_char_cons in H. apply orb_false_iff in H as [Hx Ha].
    rewrite append_String. cbn [genSplit HasPrefix]. rewrite Hx. cbn [andb].
    rewrite andb_false_r.
    rewrite IH by assumption. now rewrite append_cons_assoc.
Qed.

Lemma SplitN_two (c : ascii) (a b : string) :
  Contains a (String c EmptyString) = false ->
  SplitN (a ++ String c b) (String c EmptyString) 2 = [a; b].
Proof.
  intros H. unfold SplitN. cbn [Z.eqb Z.ltb Z.compare Z.to_nat Pos.to_nat Pos.iter_op Nat.add Nat.pred].
  rewrite genSplit_cut by (assumption || discriminate).
  cbn [option_map Nat.pred]. now rewrite genSplit_exhausted.
Qed.

Lemma SplitN_one (c : ascii) (n : Z) (a : string) :
  n <> 0 -> Contains a (String c EmptyString) = false ->
  SplitN a (String c EmptyString) n = [a].
Proof.
  intros Hn H. unfold SplitN, Split. destruct (Z.eqb_spec n 0); [contradiction |].
  destruct (n <? 0); now rewrite genSplit_no_sep.
Qed.

(** ** Fractions and colon durations, by the shape of the text *)

(** X15. A frame rate written [n/d] is the quotient of the two numbers, and 0
    when either does not parse or the denominator is zero; anything after
    a second slash belongs to the denominator, which then fails to parse
    unless [ParseFloat] accepts it. A text without a slash is its own
    value, 0 when it does not parse. *)
Theorem parseFraction_ratio (n d raw : string) :
  (Contains n "/" = false ->
   parseFraction (n ++ "/" ++ d)
   = match ParseFloat n, ParseFloat d with
     | Some numerator, Some denominator =>
         if (denominator =? 0)%float then 0%float else (numerator / denominator)%float
     | _, _ => 0%float
     end)
  /\ (Contains raw "/" = false ->
      parseFraction raw = match ParseFloat raw with Some value => value | None => 0%float end).
Proof.
  split; intros H.
  - unfold parseFraction.
    assert (Hc : Contains (n ++ "/" ++ d) "/" = true).
    { rewrite Contains_char_app, append_String, append_nil, Contains_char_cons.
      rewrite Ascii.eqb_refl. cbn [orb]. apply orb_true_r. }
    rewrite Hc. cbn [negb].
    assert (Hne : String.eqb (n ++ "/" ++ d) "" = false) by (destruct n; reflexivity).
    rewrite Hne. rewrite append_String, append_nil. rewrite SplitN_two by exact H.
    destruct (ParseFloat n); [| reflexivity]. destruct (ParseFloat d); reflexivity.
  - unfold parseFraction. rewrite H. cbn [negb].
    destruct (String.eqb_spec raw "") as [-> | _]; [reflexivity | reflexivity].
Qed.

Lemma parseFraction_ratio_witness :
  parseFraction "30000/1001"
  = (SF2Prim (S754_finite false 30000 0) / SF2Prim (S754_finite false 1001 0))%float
  /\ parseFraction "30/0" = 0%float.
Proof.
  destruct (parseFraction_ratio "30000" "1001" "") as (H1 & _).
  destruct (parseFraction_ratio "30" "0" "") as (H2 & _).
  split.
  - etransitivity; [exact (H1 eq_refl) | vm_compute; reflexivity].
  - etransitivity; [exact (H2 eq_refl) | vm_compute; reflexivity].
Defined.

Lemma genSplit_nonempty (sep : string) (s : string) :
  forall (cuts : option nat) (skip : nat) (piece : string),
    (1 <= length (genSplit sep cuts skip piece s))%nat.
Proof.
  induction s as [| x s IH]; intros cuts skip piece; cbn [genSplit]; [simpl; lia |].
  destruct skip as [| k]; [| apply IH].
  destruct (_ && _); [simpl; lia | apply IH].
Qed.

Lemma Split_field (c : ascii) (a rest : string) :
  Contains a (String c EmptyString) = false ->
  Split (a ++ String c rest) (String c EmptyString)
  = a :: Split rest (String c EmptyString).
Proof.
  intros H. unfold Split. rewrite genSplit_cut by (assumption || discriminate).
  reflexivity.
Qed.

Lemma Split_last (c : ascii) (a : string) :
  Contains a (String c EmptyString) = false -> Split a (String c EmptyString) = [a].
Proof. intros H. unfold Split. now rewrite genSplit_no_sep. Qed.

(** X16. A colon duration has exactly three fields: [h:m:s] with fields that
    parse is h*3600 + m*60 + s, and it is 0 when a field does not parse
    (an empty field does not) and for one, two, four or more fields, so
    [mm:ss] is 0. *)
Theorem parseColonDuration_fields (h m s extra : string) :
  Contains h ":" = false -> Contains m ":" = false -> Contains s ":" = false ->
  parseColonDuration (h ++ ":" ++ m ++ ":" ++ s)
  = match ParseFloat h with
    | None => 0%float
    | Some hours =>
        match ParseFloat m with
        | None => 0%float
        | Some minutes =>
            match ParseFloat s with
            | None => 0%float
            | Some seconds => (hours * 3600 + minutes * 60 + seconds)%float
            end
        end
    end
  /\ parseColonDuration s = 0%float
  /\ parseColonDuration (m ++ ":" ++ s) = 0%float
  /\ parseColonDuration (h ++ ":" ++ m ++ ":" ++ s ++ ":" ++ extra) = 0%float
  /\ parseColonDuration (h ++ ":" ++ ":" ++ s) = 0%float.
Proof.
  intros Hh Hm Hs.
  assert (E : forall a b : string, (a ++ ":" ++ b)%string = (a ++ String ":" b)%string)
    by reflexivity.
  split; [| split; [| split; [| split]]].
  - unfold parseColonDuration. rewrite !E.
    rewrite !Split_field, Split_last by assumption. reflexivity.
  - apply parseColonDuration_not_three. now rewrite Split_last.
  - apply parseColonDuration_not_three. rewrite !E.
    now rewrite Split_field, Split_last.
  - apply parseColonDuration_not_three. rewrite !E.
    rewrite !Split_field by assumption. unfold Split. cbn [length].
    pose proof (genSplit_nonempty ":" extra None O EmptyString). lia.
  - unfold parseColonDuration. rewrite !E.
    rewrite Split_field by assumption.
    change (":" ++ s)%string with ("" ++ String ":" s)%string.
    rewrite (Split_field ":" "" s eq_refl), Split_last by assumption.
    rewrite ParseFloat_empty. now destruct (ParseFloat h).
Qed.

Lemma parseColonDuration_fields_witness :
  parseColonDuration "00:01:30" = 90%float
  /\ parseColonDuration "01:30" = 0%float
  /\ parseColonDuration "0:00:01:30" = 0%float.
Proof.
  destruct (parseColonDuration_fields "00" "01" "30" "" eq_refl eq_refl eq_refl)
    as (H1 & _).
  destruct (parseColonDuration_fields "" "01" "30" "" eq_refl eq_refl eq_refl)
    as (_ & _ & H2 & _).
  destruct (parseColonDuration_fields "0" "00" "01" "30" eq_refl eq_refl eq_refl)
    as (_ & _ & _ & H3 & _).
  split; [| split].
  - etransitivity; [exact H1 | vm_compute; reflexivity].
  - exact H2.
  - exact H3.
Defined.

(** ** The reader's line protocol *)

(** X17. What the reader does with a line of ffmpeg's progress output: a line
    without [=] is ignored; [key=value] is cut at the first [=] only; the
    four progress keys hand their normalised value to the throttle;
    [progress] with a value other than [end] and every other key are
    ignored. Key and value are compared after [TrimSpace]. *)
Theorem reader_line_protocol (indef : float -> Z) (originalName outputName : string)
    (durationSeconds totalFrames : float) (last : Z) (w : World)
    (line key value : string) :
  let step := readerStep indef originalName outputName durationSeconds totalFrames
                (last, w) in
  let forward (c : Z) :=
    if shouldEmitProgress c last
    then (c, emitProgress originalName c outputName false w) else (last, w) in
  let k := TrimSpace key in
  let v := TrimSpace value in
  (Contains line "=" = false -> step line = (last, w))
  /\ (Contains key "=" = false ->
      (k = "frame" -> step (key ++ "=" ++ value)
                      = forward (progressFromFrame indef v totalFrames))
      /\ (k = "out_time_ms" ->
          step (key ++ "=" ++ value)
          = forward (progressFromTimestamp indef v durationSeconds 1000))
      /\ (k = "out_time_us" ->
          step (key ++ "=" ++ value)
          = forward (progressFromTimestamp indef v durationSeconds 1000000))
      /\ (k = "out_time" ->
          step (key ++ "=" ++ value)
          = forward (progressFromTimecode indef v durationSeconds))
      /\ (k = "progress" -> v = "end" ->
          step (key ++ "=" ++ value)
          = (last, emitProgress originalName 100 outputName true w))
      /\ (k = "progress" -> v <> "end" -> step (key ++ "=" ++ value) = (last, w))
      /\ (~ In k ["frame"; "out_time_ms"; "out_time_us"; "out_time"; "progress"] ->
          step (key ++ "=" ++ value) = (last, w))).
Proof.
  intros step forward k v. split.
  - intros H. unfold step, readerStep. now rewrite SplitN_one.
  - intros H.
    assert (E : step (key ++ "=" ++ value)%string
                = if String.eqb k "frame" then
                    forward (progressFromFrame indef v totalFrames)
                  else if String.eqb k "out_time_ms" then
                    forward (progressFromTimestamp indef v durationSeconds 1000)
                  else if String.eqb k "out_time_us" then
                    forward (progressFromTimestamp indef v durationSeconds 1000000)
                  else if String.eqb k "out_time" then
                    forward (progressFromTimecode indef v durationSeconds)
                  else if String.eqb k "progress" then
                    if String.eqb v "end"
                    then (last, emitProgress originalName 100 outputName true w)
                    else (last, w)
                  else (last, w)).
    { unfold step, readerStep.
      change (key ++ "=" ++ value)%string with (key ++ String "=" value)%string.
      now rewrite SplitN_two. }
    rewrite E. clear E. clearbody k v.
    repeat split.
    + intros ->. reflexivity.
    + intros ->. reflexivity.
    + intros ->. reflexivity.
    + intros ->. reflexivity.
    + intros -> ->. reflexivity.
    + intros -> Hv. cbn [String.eqb Ascii.eqb Bool.eqb]. cbn.
      destruct (String.eqb_spec v "end"); [contradiction | reflexivity].
    + intros Hk.
      destruct (String.eqb_spec k "frame") as [e | _];
        [exfalso; apply Hk; rewrite e; simpl; tauto |].
      destruct (String.eqb_spec k "out_time_ms") as [e | _];
        [exfalso; apply Hk; rewrite e; simpl; tauto |].
      destruct (String.eqb_spec k "out_time_us") as [e | _];
        [exfalso; apply Hk; rewrite e; simpl; tauto |].
      destruct (String.eqb_spec k "out_time") as [e | _];
        [exfalso; apply Hk; rewrite e; simpl; tauto |].
      destruct (String.eqb_spec k "progress") as [e | _];
        [exfalso; apply Hk; rewrite e; simpl; tauto | reflexivity].
Qed.

(** ** Signs of the estimates *)

(** A value that is NaN or above zero, and one that is NaN or not below
    zero, on the IEEE 754 view of a float. *)
Lemma leb_false_positive (x : float) :
  (x <=? 0)%float = false ->
  match Prim2SF x with
  | S754_nan => True
  | S754_zero _ => False
  | S754_infinity b | S754_finite b _ _ => b = false
  end.
Proof.
  rewrite leb_spec, Prim2SF_zero. unfold SFleb, SFcompare.
  destruct (Prim2SF x) as [[] | [] | | [] ? ?]; intros H; try discriminate H; auto.
Qed.

Lemma ltb_true_positive (x : float) :
  (0 <? x)%float = true ->
  match Prim2SF x with
  | S754_nan => True
  | S754_zero _ => False
  | S754_infinity b | S754_finite b _ _ => b = false
  end.
Proof.
  rewrite ltb_spec, Prim2SF_zero. unfold SFltb, SFcompare.
  destruct (Prim2SF x) as [[] | [] | | [] ? ?]; intros H; try discriminate H; auto.
Qed.

Lemma not_below_zero (x : float) :
  match Prim2SF x with
  | S754_nan | S754_zero _ => True
  | S754_infinity b | S754_finite b _ _ => b = false
  end ->
  (x <? 0)%float = false.
Proof.
  rewrite ltb_spec, Prim2SF_zero. unfold SFltb, SFcompare.
  destruct (Prim2SF x) as [[] | [] | | [] ? ?]; intros H; try discriminate H; auto.
Qed.

Lemma positive_not_below_zero (x : float) :
  match Prim2SF x with
  | S754_nan => True
  | S754_zero _ => False
  | S754_infinity b | S754_finite b _ _ => b = false
  end ->
  (x <? 0)%float = false.
Proof.
  intros H. apply not_below_zero. destruct (Prim2SF x); auto.
Qed.

Lemma binary_round_aux_sign (mx ex : Z) (lx : location) :
  match binary_round_aux prec emax false mx ex lx with
  | S754_nan | S754_zero _ => True
  | S754_infinity b | S754_finite b _ _ => b = false
  end.
Proof.
  unfold binary_round_aux.
  destruct (shr_fexp prec emax mx ex lx) as [mrs e'].
  destruct (shr_fexp prec emax _ e' loc_Exact) as [mrs' e''].
  destruct (shr_m mrs'); [exact I | | exact I].
  destruct (e'' <=? emax - prec); reflexivity.
Qed.

Lemma div_positive (x y : float) :
  match Prim2SF x with
  | S754_nan => True
  | S754_zero _ => False
  | S754_infinity b | S754_finite b _ _ => b = false
  end ->
  match Prim2SF y with
  | S754_nan => True
  | S754_zero _ => False
  | S754_infinity b | S754_finite b _ _ => b = false
  end ->
  ((x / y) <? 0)%float = false.
Proof.
  intros Hx Hy. apply not_below_zero. rewrite div_spec. unfold SF64div, SFdiv.
  destruct (Prim2SF x) as [sx | sx | | sx mx ex], (Prim2SF y) as [sy | sy | | sy my ey];
    try contradiction; subst; try exact I; try reflexivity.
  cbn [xorb].
  destruct (SFdiv_core_binary prec emax (Z.pos mx) ex (Z.pos my) ey) as [[mz ez] lz].
  apply binary_round_aux_sign.
Qed.

Lemma mul_positive (x y : float) :
  match Prim2SF x with
  | S754_nan => True
  | S754_zero _ => False
  | S754_infinity b | S754_finite b _ _ => b = false
  end ->
  match Prim2SF y with
  | S754_nan => True
  | S754_zero _ => False
  | S754_infinity b | S754_finite b _ _ => b = false
  end ->
  ((x * y) <? 0)%float = false.
Proof.
  intros Hx Hy. apply not_below_zero. rewrite mul_spec. unfold SF64mul, SFmul.
  destruct (Prim2SF x) as [sx | sx | | sx mx ex], (Prim2SF y) as [sy | sy | | sy my ey];
    try contradiction; subst; try exact I; try reflexivity.
  cbn [xorb]. apply binary_round_aux_sign.
Qed.

Lemma durationFromFrames_sign (nbFrames avgFrameRate : string) :
  (durationFromFrames nbFrames avgFrameRate <? 0)%float = false.
Proof.
  unfold durationFromFrames.
  destruct (ParseFloat nbFrames) as [frames |]; [| reflexivity].
  destruct (frames <=? 0)%float eqn:Hf; [reflexivity |].
  destruct (parseFraction avgFrameRate <=? 0)%float eqn:Hr; [reflexivity |].
  apply div_positive; now apply leb_false_positive.
Qed.

Lemma parseFrameCount_sign (stream : option ffprobeStream) :
  (parseFrameCount stream <? 0)%float = false.
Proof.
  destruct stream as [stream |]; [| reflexivity]. unfold parseFrameCount.
  assert (H : ((if (parseFraction (AvgFrameRate stream) <=? 0)%float then 0%float
                else if (parseDurationSeconds (Duration stream) <=? 0)%float then 0%float
                     else (parseDurationSeconds (Duration stream)
                           * parseFraction (AvgFrameRate stream))%float) <? 0)%float
               = false).
  { destruct (parseFraction (AvgFrameRate stream) <=? 0)%float eqn:Hr; [reflexivity |].
    destruct (parseDurationSeconds (Duration stream) <=? 0)%float eqn:Hd; [reflexivity |].
    apply mul_positive; now apply leb_false_positive. }
  destruct (ParseFloat (NbFrames stream)) as [frames |]; [| exact H].
  destruct (0 <? frames)%float eqn:Hf; [| exact H].
  apply positive_not_below_zero, ltb_true_positive, Hf.
Qed.

(** X18. The estimates are never below zero. The frame estimate and the
    duration derived from frames never are; the duration estimate never is
    when the probe lists a stream. Without a stream the container's value
    is used as it is, negative or not. (NaN is not below zero: see the
    statements on NaN above.) *)
Theorem estimates_not_negative (metadata : ffprobeData) :
  (estimateFrames metadata <? 0)%float = false
  /\ (forall nbFrames avgFrameRate : string,
        (durationFromFrames nbFrames avgFrameRate <? 0)%float = false)
  /\ (Streams metadata <> [] -> (estimateDuration metadata <? 0)%float = false)
  /\ (Streams metadata = [] ->
      estimateDuration metadata = parseDurationSeconds (FormatDuration (Format metadata)))
  /\ (estimateDuration
        {| Format := {| FormatDuration := "-5"; FormatSize := ""; FormatBitRate := "" |};
           Streams := [] |} <? 0)%float = true.
Proof.
  split; [apply parseFrameCount_sign |].
  split; [apply durationFromFrames_sign |].
  split; [| split; [| reflexivity]].
  - intros Hs. unfold estimateDuration.
    destruct (firstVideoStream (Streams metadata)) as [primaryStream |] eqn:Hf.
    + destruct (parseDurationSeconds (FormatDuration (Format metadata)) <=? 0)%float eqn:Hd.
      * destruct (parseDurationSeconds (Duration primaryStream) <=? 0)%float eqn:H2.
        -- apply durationFromFrames_sign.
        -- apply positive_not_below_zero, leb_false_positive, H2.
      * apply positive_not_below_zero, leb_false_positive, Hd.
    + exfalso. apply Hs. unfold firstVideoStream in Hf.
      destruct (List.find _ (Streams metadata)); [discriminate |].
      destruct (Streams metadata); [reflexivity | discriminate].
  - intros Hs. unfold estimateDuration. now rewrite Hs.
Qed.

(* ===================================================================== *)
(** * Part 12: file names, and the HTTP front of the handlers             *)
(* ===================================================================== *)

(** ** Reversal and the last path element *)

Lemma revString_append (s : string) :
  forall acc : string, revString acc s = (revString EmptyString s ++ acc)%string.
Proof.
  induction s as [| x s IH]; intros acc; [reflexivity |].
  cbn [revString]. rewrite (IH (String x acc)), (IH (String x EmptyString)).
  now rewrite append_cons_assoc.
Qed.

Lemma revString_revString (s : string) :
  forall a b : string, revString b (revString a s) = revString (s ++ b) a.
Proof.
  induction s as [| x s IH]; intros a b; [reflexivity |].
  cbn [revString]. rewrite IH. reflexivity.
Qed.

Lemma revString_involutive (s : string) :
  revString EmptyString (revString EmptyString s) = s.
Proof. rewrite revString_revString. cbn [revString]. apply append_empty_r. Qed.

Lemma revString_app (a b acc : string) :
  revString acc (a ++ b) = revString (revString acc a) b.
Proof.
  revert acc. induction a as [| x a IH]; intros acc; [reflexivity |].
  rewrite append_String. cbn [revString]. apply IH.
Qed.

Lemma Contains_char_rev (c : ascii) (s : string) :
  forall acc : string,
    Contains (revString acc s) (String c EmptyString)
    = Contains acc (String c EmptyString) || Contains s (String c EmptyString).
Proof.
  induction s as [| x s IH]; intros acc.
  - cbn [revString]. change (Contains "" (String c "")) with false. now rewrite orb_false_r.
  - cbn [revString]. rewrite IH, !Contains_char_cons.
    destruct (Ascii.eqb x c), (Contains acc (String c "")), (Contains s (String c ""));
      reflexivity.
Qed.

Lemma untilSlash_no_slash (s : string) : Contains (untilSlash s) "/" = false.
Proof.
  induction s as [| x s IH]; [reflexivity |]. cbn [untilSlash].
  destruct (Ascii.eqb x "/") eqn:E; [reflexivity |].
  rewrite Contains_char_cons, E, IH. reflexivity.
Qed.

Lemma untilSlash_prefix (a b : string) :
  Contains a "/" = false -> untilSlash (a ++ String "/" b) = a.
Proof.
  induction a as [| x a IH]; intros H; [reflexivity |].
  rewrite Contains_char_cons in H. apply orb_false_iff in H as [Hx Ha].
  rewrite append_String. cbn [untilSlash]. rewrite Hx. now rewrite IH.
Qed.

Lemma untilSlash_id (a : string) : Contains a "/" = false -> untilSlash a = a.
Proof.
  induction a as [| x a IH]; intros H; [reflexivity |].
  rewrite Contains_char_cons in H. apply orb_false_iff in H as [Hx Ha].
  cbn [untilSlash]. rewrite Hx. now rewrite IH.
Qed.

Lemma dropSlashes_id (a b : string) :
  a <> EmptyString -> Contains a "/" = false -> dropSlashes (a ++ b) = (a ++ b)%string.
Proof.
  destruct a as [| x a]; intros Hne H; [contradiction |].
  rewrite Contains_char_cons in H. apply orb_false_iff in H as [Hx _].
  rewrite append_String. cbn [dropSlashes]. now rewrite Hx.
Qed.

Lemma revString_nonempty (s : string) :
  s <> EmptyString -> revString EmptyString s <> EmptyString.
Proof.
  intros Hne H. apply Hne. rewrite <- (revString_involutive s), H. reflexivity.
Qed.

Lemma Base_no_slash (path : string) : Contains (Base path) "/" = false \/ Base path = "/".
Proof.
  unfold Base. destruct (String.eqb path ""); [now left |].
  destruct (String.eqb _ ""); [now right |]. left.
  rewrite Contains_char_rev. cbn [orb]. change (Contains "" "/") with false.
  apply untilSlash_no_slash.
Qed.

Lemma Base_last_element (dir file : string) :
  file <> EmptyString -> Contains file "/" = false ->
  Base (dir ++ "/" ++ file) = file /\ Base file = file.
Proof.
  intros Hne Hf.
  assert (Hr : Contains (revString EmptyString file) "/" = false).
  { rewrite Contains_char_rev. exact Hf. }
  assert (Hrn := revString_nonempty file Hne).
  assert (Hfile : String.eqb file "" = false) by now apply String.eqb_neq.
  split; unfold Base.
  - assert (Hp : String.eqb (dir ++ "/" ++ file) "" = false) by now destruct dir.
    rewrite Hp. change (dir ++ "/" ++ file)%string with (dir ++ String "/" file)%string.
    rewrite revString_app. cbn [revString].
    rewrite (revString_append file).
    rewrite dropSlashes_id by assumption.
    rewrite untilSlash_prefix by assumption.
    rewrite revString_involutive. now rewrite Hfile.
  - rewrite Hfile.
    rewrite <- (append_empty_r (revString EmptyString file)).
    rewrite dropSlashes_id by assumption.
    rewrite append_empty_r, untilSlash_id by assumption.
    rewrite revString_involutive. now rewrite Hfile.
Qed.

(** ** Replacing spaces and double dots *)

Lemma replaceSpace_cons (c : ascii) (s : string) :
  ReplaceAll (String c s) " " "_"
  = String (if Ascii.eqb c " " then "_"%char else c) (ReplaceAll s " " "_").
Proof.
  unfold ReplaceAll. cbn [replaceFrom HasPrefix]. rewrite HasPrefix_empty, andb_true_r.
  destruct (Ascii.eqb c " "); reflexivity.
Qed.

Lemma replaced_char_eqb (c x : ascii) :
  x <> " "%char -> x <> "_"%char ->
  Ascii.eqb (if Ascii.eqb c " " then "_"%char else c) x = Ascii.eqb c x.
Proof.
  intros H1 H2. destruct (Ascii.eqb_spec c " ") as [-> | _]; [| reflexivity].
  transitivity false; [| symmetry]; apply Ascii.eqb_neq; congruence.
Qed.

Lemma replaceSpace_no_space (s : string) : Contains (ReplaceAll s " " "_") " " = false.
Proof.
  induction s as [| c s IH]; [reflexivity |].
  rewrite replaceSpace_cons, Contains_char_cons, IH, orb_false_r.
  destruct (Ascii.eqb c " ") eqn:E; [reflexivity | exact E].
Qed.

Lemma replaceSpace_char (x : ascii) (s : string) :
  x <> " "%char -> x <> "_"%char ->
  Contains (ReplaceAll s " " "_") (String x EmptyString) = Contains s (String x EmptyString).
Proof.
  intros H1 H2. induction s as [| c s IH]; [reflexivity |].
  rewrite replaceSpace_cons, !Contains_char_cons, IH.
  now rewrite replaced_char_eqb.
Qed.

Lemma HasPrefix_dot (s : string) :
  HasPrefix s "." = match s with String y _ => Ascii.eqb y "." | EmptyString => false end.
Proof.
  destruct s as [| y s]; [reflexivity |]. cbn [HasPrefix].
  now rewrite HasPrefix_empty, andb_true_r.
Qed.

Lemma Contains_dotdot_cons (c : ascii) (s : string) :
  Contains (String c s) ".." = (Ascii.eqb c "." && HasPrefix s ".") || Contains s "..".
Proof. reflexivity. Qed.

Lemma replaceSpace_dotdot (s : string) :
  Contains (ReplaceAll s " " "_") ".." = Contains s "..".
Proof.
  induction s as [| c s IH]; [reflexivity |].
  rewrite replaceSpace_cons, !Contains_dotdot_cons, IH.
  rewrite replaced_char_eqb by discriminate.
  f_equal. f_equal. rewrite !HasPrefix_dot.
  destruct s as [| y s]; [reflexivity |].
  rewrite replaceSpace_cons. now rewrite replaced_char_eqb by discriminate.
Qed.

Lemma removeDots_match (r : string) :
  ReplaceAll (String "." (String "." r)) ".." "" = ReplaceAll r ".." "".
Proof.
  unfold ReplaceAll. cbn [replaceFrom HasPrefix Ascii.eqb Bool.eqb andb].
  rewrite HasPrefix_empty. reflexivity.
Qed.

Lemma removeDots_other (c : ascii) (r : string) :
  Ascii.eqb c "." && HasPrefix r "." = false ->
  ReplaceAll (String c r) ".." "" = String c (ReplaceAll r ".." "").
Proof.
  intros H. unfold ReplaceAll. cbn [replaceFrom].
  change (HasPrefix (String c r) "..") with (Ascii.eqb c "." && HasPrefix r ".").
  now rewrite H.
Qed.

Lemma removeDots_no_leading_dot (r : string) :
  HasPrefix r "." = false -> HasPrefix (ReplaceAll r ".." "") "." = false.
Proof.
  intros H. destruct r as [| y r]; [reflexivity |].
  rewrite HasPrefix_dot in H.
  rewrite removeDots_other by (rewrite H; reflexivity).
  rewrite HasPrefix_dot. exact H.
Qed.

Lemma removeDots_clean (n : nat) :
  forall s : string,
    (String.length s <= n)%nat ->
    Contains (ReplaceAll s ".." "") ".." = false
    /\ (Contains s "/" = false -> Contains (ReplaceAll s ".." "") "/" = false).
Proof.
  induction n as [| n IH]; intros s Hl.
  - destruct s; [split; reflexivity | simpl in Hl; lia].
  - destruct s as [| c s]; [split; reflexivity |].
    cbn [String.length] in Hl.
    destruct (Ascii.eqb c "." && HasPrefix s ".") eqn:E.
    + apply andb_true_iff in E as [Hc Hs]. apply Ascii.eqb_eq in Hc. subst c.
      destruct s as [| y r]; [discriminate Hs |].
      rewrite HasPrefix_dot in Hs. apply Ascii.eqb_eq in Hs. subst y.
      rewrite removeDots_match. cbn [String.length] in Hl.
      destruct (IH r ltac:(lia)) as [H1 H2]. split; [exact H1 |].
      intros H. apply H2. rewrite !Contains_char_cons in H.
      now apply orb_false_iff in H as [_ H%orb_false_iff].
    + rewrite removeDots_other by exact E.
      destruct (IH s ltac:(lia)) as [H1 H2]. split.
      * rewrite Contains_dotdot_cons, H1, orb_false_r.
        destruct (Ascii.eqb c ".") eqn:Hc; [| reflexivity]. cbn [andb] in E |- *.
        now apply removeDots_no_leading_dot.
      * intros H. rewrite Contains_char_cons in H |- *.
        apply orb_false_iff in H as [Hx Hr]. rewrite Hx. cbn [orb]. now apply H2.
Qed.

(** X19. [sanitizeFilename] keeps the last path element only, and its result
    holds no space, no ".." and no slash, the result "/" of a name made of
    slashes apart. It can be empty (for ".."), and is "." for the empty
    name. *)
Theorem sanitizeFilename_safe (name dir file : string) :
  Contains (sanitizeFilename name) " " = false
  /\ Contains (sanitizeFilename name) ".." = false
  /\ (Contains (sanitizeFilename name) "/" = false \/ sanitizeFilename name = "/")
  /\ (file <> "" -> Contains file "/" = false ->
      sanitizeFilename (dir ++ "/" ++ file) = sanitizeFilename file
      /\ sanitizeFilename file = ReplaceAll (ReplaceAll file ".." "") " " "_")
  /\ sanitizeFilename "" = "."
  /\ sanitizeFilename ".." = ""
  /\ sanitizeFilename "//" = "/".
Proof.
  unfold sanitizeFilename.
  split; [apply replaceSpace_no_space |].
  split.
  { rewrite replaceSpace_dotdot.
    apply (removeDots_clean (String.length (Base name)) (Base name) (Nat.le_refl _)). }
  split.
  { destruct (Base_no_slash name) as [H | ->]; [left | now right].
    rewrite replaceSpace_char by discriminate.
    now apply (removeDots_clean (String.length (Base name)) (Base name) (Nat.le_refl _)). }
  split; [| split; [| split]]; try reflexivity.
  intros Hne Hf. destruct (Base_last_element dir file Hne Hf) as [-> ->]. now split.
Qed.

Lemma sanitizeFilename_safe_witness :
  sanitizeFilename "../../etc/my video..mp4" = "my_videomp4"
  /\ sanitizeFilename "../../etc/my video..mp4" = sanitizeFilename "my video..mp4".
Proof.
  destruct (sanitizeFilename_safe "" "../../etc" "my video..mp4")
    as (_ & _ & _ & H & _).
  destruct (H ltac:(discriminate) eq_refl) as [H1 _].
  split; [reflexivity | exact H1].
Defined.

(** ** The CORS middleware *)

Lemma corsHeaders_other (r : HttpRequest) (h : Header) (key : string) :
  key <> "Access-Control-Allow-Origin" -> key <> "Access-Control-Allow-Credentials" ->
  key <> "Access-Control-Allow-Methods" -> key <> "Access-Control-Allow-Headers" ->
  corsHeaders r h !! key = h !! key.
Proof.
  intros H1 H2 H3 H4. unfold corsHeaders, headerSet, headerDel.
  rewrite !lookup_insert_ne by congruence.
  destruct (String.eqb _ "").
  - rewrite lookup_delete_ne by congruence. now rewrite lookup_insert_ne by congruence.
  - now rewrite !lookup_insert_ne by congruence.
Qed.

(** X20. The middleware answers a preflight itself: on OPTIONS it writes 204 and
    never calls the wrapped handler; every other request is handed on. In
    both cases the response carries the four CORS headers: the origin of
    the request, or "*" without one; credentials allowed exactly when the
    request names an origin (a credentials header left by an outer layer is
    deleted otherwise); the fixed methods and headers. No other header is
    touched. *)
Theorem corsMiddleware_spec (next other : HttpRequest -> ResponseWriter -> ResponseWriter)
    (r : HttpRequest) (w : ResponseWriter) :
  let origin := headerGet "Origin" (requestHeader r) in
  let h := corsHeaders r (respHeader w) in
  (requestMethod r = "OPTIONS" ->
   corsMiddleware next r w = WriteHeader StatusNoContent (setRespHeader w h)
   /\ corsMiddleware next r w = corsMiddleware other r w
   /\ (statusCode w = None -> statusCode (corsMiddleware next r w) = Some StatusNoContent))
  /\ (requestMethod r <> "OPTIONS" -> corsMiddleware next r w = next r (setRespHeader w h))
  /\ h !! "Access-Control-Allow-Origin"
     = Some [if String.eqb origin "" then "*" else origin]
  /\ h !! "Access-Control-Allow-Credentials"
     = (if String.eqb origin "" then None else Some ["true"])
  /\ h !! "Access-Control-Allow-Methods" = Some ["GET,POST,OPTIONS"]
  /\ h !! "Access-Control-Allow-Headers" = Some ["Content-Type, Authorization"]
  /\ (forall key : string,
        ~ In key ["Access-Control-Allow-Origin"; "Access-Control-Allow-Credentials";
                  "Access-Control-Allow-Methods"; "Access-Control-Allow-Headers"] ->
        h !! key = respHeader w !! key).
Proof.
  intros origin h.
  split.
  { intros Hm. unfold corsMiddleware. rewrite Hm. cbn [String.eqb Ascii.eqb Bool.eqb].
    cbn. split; [reflexivity |]. split; [reflexivity |].
    intros Hs. unfold WriteHeader. cbn. now rewrite Hs. }
  split.
  { intros Hm. unfold corsMiddleware.
    destruct (String.eqb_spec (requestMethod r) "OPTIONS"); [contradiction | reflexivity]. }
  unfold h, corsHeaders, headerSet, headerDel. fold origin.
  split.
  { rewrite !lookup_insert_ne by discriminate.
    destruct (String.eqb origin "").
    - rewrite lookup_delete_ne by discriminate. apply lookup_insert_eq.
    - rewrite lookup_insert_ne by discriminate. apply lookup_insert_eq. }
  split.
  { rewrite !lookup_insert_ne by discriminate.
    destruct (String.eqb origin "").
    - apply lookup_delete_eq.
    - apply lookup_insert_eq. }
  split.
  { rewrite lookup_insert_ne by discriminate. apply lookup_insert_eq. }
  split; [apply lookup_insert_eq |].
  intros key Hk. cbn [In] in Hk.
  apply corsHeaders_other; intros ->; apply Hk; tauto.
Qed.

(** ** The checks of an upload *)

Lemma respondUploadError_status {Body : Type} (e : uploadError) :
  exists message : string,
    @respondUploadError Body (Some e) = ErrorLine message StatusBadRequest.
Proof.
  unfold respondUploadError. destruct (isNotMultipart e); [eauto |].
  destruct (Contains _ _); eauto.
Qed.

(** X21. A convert request that fails a check (method, multipart body, output
    format, form file) is answered 204, 405 or 400 and changes nothing:
    no file, no event, no registry entry. Once the checks pass, the upload
    is stored; if [os.Create] fails nothing changes, if the copy fails the
    partial input file stays on disk (the deferred removal is not yet
    registered), and after a stored upload the conversion runs and the
    input file is gone at every return. Something is always written. *)
Theorem handleConvertRequest_outcomes (indef : float -> Z) (downloadsDir : string)
    (Join : string -> string -> string) (up : Upload) (ex : Externals)
    (during late : list Concurrent) (w : World) :
  let result := handleConvertRequest indef downloadsDir Join up ex during late w in
  (Method up <> "POST" \/ multipartError up <> None \/ formatValue up = ""
   \/ formFile up = None ->
   snd result = w
   /\ exists status : Z,
        (fst result = StatusOnly status
         \/ exists message : string, fst result = ErrorLine message status)
        /\ (status = StatusNoContent \/ status = StatusMethodNotAllowed
            \/ status = StatusBadRequest))
  /\ (forall fileName : string,
        Method up = "POST" -> multipartError up = None -> formatValue up <> "" ->
        formFile up = Some fileName ->
        let rq := requestOf downloadsDir Join up fileName in
        let stored := setFiles w ({[ inputPath rq ]} ∪ files w) in
        match storing up with
        | CreateFails =>
            result = (ErrorLine "Failed to store upload" StatusInternalServerError, w)
        | CopyFails =>
            result = (ErrorLine "Failed to store upload" StatusInternalServerError, stored)
            /\ inputPath rq ∈ files (snd result)
        | StoredAll =>
            result = (ofResponse (fst (handleConvert indef rq ex during late stored)),
                      snd (handleConvert indef rq ex during late stored))
            /\ (inputPath rq ∉ files (snd result))
        end)
  /\ fst result <> Nothing.
Proof.
  cbv zeta. unfold handleConvertRequest.
  split; [| split].
  - intros H.
    destruct (String.eqb_spec (Method up) "OPTIONS") as [Ho | Ho].
    { split; [reflexivity |]. exists StatusNoContent. split; [now left | now left]. }
    destruct (String.eqb_spec (Method up) "POST") as [Hp | Hp]; cbn [negb].
    2: { split; [reflexivity |]. exists StatusMethodNotAllowed.
         split; [right; eexists; reflexivity | right; now left]. }
    destruct (multipartError up) as [e |] eqn:He.
    { split; [reflexivity |]. exists StatusBadRequest.
      destruct (@respondUploadError_status convertResponse e) as (message & ->).
      split; [right; now exists message | right; now right]. }
    destruct (String.eqb_spec (formatValue up) "") as [Hf | Hf].
    { split; [reflexivity |]. exists StatusBadRequest.
      split; [right; eexists; reflexivity | right; now right]. }
    destruct (formFile up) as [fileName |] eqn:Hff.
    { exfalso. destruct H as [H | [H | [H | H]]]; congruence. }
    split; [reflexivity |]. exists StatusBadRequest.
    split; [right; eexists; reflexivity | right; now right].
  - intros fileName Hm He Hf Hff. rewrite Hm, He, Hff.
    destruct (String.eqb_spec (formatValue up) "") as [| _]; [contradiction |].
    cbn [String.eqb Ascii.eqb Bool.eqb negb]. cbn match.
    destruct (storing up); cbn [writeStreamToFile].
    + reflexivity.
    + split; [reflexivity |]. cbn [snd files setFiles].
      apply elem_of_union_l, elem_of_singleton. reflexivity.
    + split; [reflexivity |]. cbn [snd].
      destruct (handleConvert_cases indef (requestOf downloadsDir Join up fileName) ex
                  during late
                  (setFiles w ({[ inputPath (requestOf downloadsDir Join up fileName) ]}
                               ∪ files w)))
        as [(_ & ->) | [(message & _ & ->) | (metadata & p & _ & _ & _ & ->)]];
        cbn [snd]; apply osRemove_absent.
  - destruct (String.eqb (Method up) "OPTIONS"); [discriminate |].
    destruct (negb _); [discriminate |].
    destruct (multipartError up) as [e |].
    { destruct (@respondUploadError_status convertResponse e) as (message & ->).
      discriminate. }
    destruct (String.eqb (formatValue up) ""); [discriminate |].
    destruct (formFile up); [| discriminate].
    destruct (storing up); cbn [writeStreamToFile fst]; try discriminate.
    destruct (fst (handleConvert _ _ _ _ _ _)); discriminate.
Qed.

(** ** Analysis *)

Lemma ParseFloatValue_parsed (raw : string) (value : float) :
  ParseFloat raw = Some value -> ParseFloatValue raw = value.
Proof.
  unfold ParseFloat, ParseFloatValue.
  destruct (special raw) as [[f n] |].
  - destruct (n =? String.length raw)%nat; congruence.
  - destruct (readFloat raw) as [p |]; [| discriminate].
    destruct (round_scaled _ _ _ _); congruence.
Qed.

Lemma parseDurationSeconds_parsed (raw : string) (value : float) :
  ParseFloat raw = Some value -> parseDurationSeconds raw = value.
Proof.
  intros H. unfold parseDurationSeconds.
  destruct (String.eqb_spec raw "") as [-> | _]; [discriminate H |].
  now rewrite H.
Qed.

(** X22. An analysis never touches the socket, the registry or the processes,
    and unless the copy of the upload fails part of the way it leaves no
    file behind: the temporary file is removed at every return that
    follows its creation. It answers JSON only with status 200, and only
    to a POST whose upload was stored and probed. *)
Theorem handleAnalyze_leaves_no_trace (downloadsDir : string)
    (Join : string -> string -> string) (up : Upload) (probe : option ffprobeData)
    (w : World) :
  let result := handleAnalyze downloadsDir Join up probe w in
  socket (snd result) = socket w
  /\ conversions (snd result) = conversions w
  /\ heap (snd result) = heap w
  /\ killed (snd result) = killed w
  /\ (storing up <> CopyFails ->
      forall path : string, path ∈ files (snd result) -> path ∈ files w)
  /\ (forall fileName : string,
        Method up = "POST" -> multipartError up = None -> formFile up = Some fileName ->
        storing up = StoredAll ->
        Join downloadsDir ("temp-" ++ firstUUID up ++ "-" ++ sanitizeFilename fileName)
          ∉ files (snd result))
  /\ (forall (status : Z) (body : analyzeResponse),
        fst result = Json status body ->
        status = StatusOK /\ Method up = "POST" /\ storing up = StoredAll
        /\ probe <> None).
Proof.
  cbv zeta. unfold handleAnalyze.
  destruct (String.eqb_spec (Method up) "OPTIONS") as [Ho | Ho].
  { repeat split; try reflexivity; try (intros; assumption); try discriminate.
    intros fileName Hm. rewrite Hm in Ho. discriminate Ho. }
  destruct (String.eqb_spec (Method up) "POST") as [Hp | Hp]; cbn [negb].
  2: { repeat split; try reflexivity; try (intros; assumption); try discriminate.
       intros fileName Hm. contradiction. }
  destruct (multipartError up) as [e |] eqn:He.
  { destruct (@respondUploadError_status analyzeResponse e) as (message & ->).
    repeat split; try reflexivity; try (intros; assumption); try discriminate. }
  destruct (formFile up) as [fileName |] eqn:Hff.
  2: { repeat split; try reflexivity; try (intros; assumption); try discriminate. }
  destruct (storing up) eqn:Hst; cbn [writeStreamToFile].
  - repeat split; try reflexivity; try (intros; assumption); try discriminate.
  - repeat split; try reflexivity; try discriminate.
    intros H. contradiction.
  - assert (Hin : forall path : string,
               path ∈ files (osRemove
                               (Join downloadsDir
                                  ("temp-" ++ firstUUID up ++ "-" ++ sanitizeFilename fileName))
                               (setFiles w
                                  ({[ Join downloadsDir
                                        ("temp-" ++ firstUUID up ++ "-"
                                         ++ sanitizeFilename fileName) ]} ∪ files w))) ->
               path ∈ files w).
    { intros path. unfold osRemove. cbn [files setFiles].
      rewrite elem_of_difference, elem_of_union. tauto. }
    destruct probe as [metadata |]; cbn [fst snd];
      (split; [reflexivity |]); (split; [reflexivity |]); (split; [reflexivity |]);
      (split; [reflexivity |]); (split; [intros _; exact Hin |]);
      (split; [intros f _ _ [= <-] _; apply osRemove_absent |]).
    + intros status body H. unfold writeJSONAnalysis in H.
      destruct (is_finite _); [| discriminate H]. injection H as <- _.
      repeat split; [exact Hp | discriminate].
    + intros status body H. discriminate H.
Qed.

(** X23. Analysis and conversion describe a probe result alike: the same size,
    resolution and codec, and the same duration whenever the container's
    duration field parses. They differ where it does not: the analysis
    takes the value [ParseFloat] returns with its error (0, or an infinity
    for a number out of range), the conversion tries a colon duration. The
    analysis writes its body only when that duration is a number JSON can
    carry: for "1e999" its answer is the header with status 200 and no
    body, where the conversion reports the duration 0. *)
Theorem analyze_agrees_with_convert (downloadsDir : string)
    (Join : string -> string -> string) (up : Upload) (metadata : ffprobeData)
    (rq : Request) (fileName : string) (w : World) :
  Method up = "POST" -> multipartError up = None -> formFile up = Some fileName ->
  storing up = StoredAll ->
  (exists body : analyzeResponse,
     fst (handleAnalyze downloadsDir Join up (Some metadata) w)
     = (if is_finite (analyzedDuration body) then Json StatusOK body
        else JsonFailed StatusOK)
     /\ analyzedName body = fileName
     /\ analyzedBitrate body = FormatBitRate (Format metadata)
     /\ analyzedFileSize body = fileSize (successResponse rq metadata)
     /\ analyzedResolution body = resolution (successResponse rq metadata)
     /\ analyzedCodec body = codec (successResponse rq metadata)
     /\ analyzedDuration body = ParseFloatValue (FormatDuration (Format metadata))
     /\ (forall value : float,
           ParseFloat (FormatDuration (Format metadata)) = Some value ->
           analyzedDuration body = value
           /\ duration (successResponse rq metadata) = value))
  /\ (ParseFloatValue "00:01:30" = 0%float
      /\ parseDurationSeconds "00:01:30" = 90%float)
  /\ (ParseFloatValue "1e999" = infinity
      /\ is_finite (ParseFloatValue "1e999") = false
      /\ parseDurationSeconds "1e999" = 0%float).
Proof.
  intros Hm He Hff Hst. split; [| repeat split; vm_compute; reflexivity].
  unfold handleAnalyze. rewrite Hm, He, Hff, Hst.
  cbn [String.eqb Ascii.eqb Bool.eqb negb writeStreamToFile fst]. cbn match.
  unfold writeJSONAnalysis.
  eexists. split; [reflexivity |]. cbn [analyzedName analyzedBitrate analyzedFileSize
    analyzedResolution analyzedCodec analyzedDuration].
  unfold successResponse. cbn [fileSize resolution codec duration].
  repeat split; try reflexivity.
  - now apply ParseFloatValue_parsed.
  - now apply parseDurationSeconds_parsed.
Qed.

Lemma analyze_agrees_with_convert_witness :
  let up := {| Method := "POST"; multipartError := None; formatValue := "";
               formFile := Some "my clip.mov"; firstUUID := "u1"; secondUUID := "u2";
               storing := StoredAll |} in
  let join := fun dir file : string => (dir ++ "/" ++ file)%string in
  (exists body : analyzeResponse,
      fst (handleAnalyze "downloads" join up (Some (probeOf "12.5" "" "" "30/1"))
             (initialWorld ∅))
      = Json StatusOK body
      /\ analyzedName body = "my clip.mov"
      /\ analyzedDuration body = 12.5%float
      /\ analyzedResolution body = "1920x1080")
  /\ fst (handleAnalyze "downloads" join up (Some (probeOf "1e999" "" "" "30/1"))
            (initialWorld ∅))
     = JsonFailed StatusOK.
Proof.
  intros up join. split.
  - destruct (analyze_agrees_with_convert "downloads" join up
                (probeOf "12.5" "" "" "30/1") exampleRequest "my clip.mov" (initialWorld ∅)
                eq_refl eq_refl eq_refl eq_refl)
      as ((body & Hb & Hn & _ & _ & Hr & _ & _ & Hd) & _).
    destruct (Hd 12.5%float) as [Hd1 _]; [vm_compute; reflexivity |].
    exists body. rewrite Hd1 in Hb. split; [exact Hb |]. split; [exact Hn |].
    split; [exact Hd1 |].
    rewrite Hr. vm_compute. reflexivity.
  - destruct (analyze_agrees_with_convert "downloads" join up
                (probeOf "1e999" "" "" "30/1") exampleRequest "my clip.mov" (initialWorld ∅)
                eq_refl eq_refl eq_refl eq_refl)
      as ((body & Hb & _ & _ & _ & _ & _ & Hd & _) & _).
    rewrite Hd in Hb. exact Hb.
Defined.

(* ===================================================================== *)
(** * Part 13: races with the end of a run, and the role of the socket    *)
(* ===================================================================== *)

Lemma cancel_after_exit (name : string) (proc : loc) (p : pid) (w : World) :
  conversions w !! name = Some proc -> Process (cmd (heap w proc)) = Some p ->
  p ∈ reaped w ->
  onCancelConversion {| payloadFileName := name |} w = w.
Proof.
  intros Hc Hp Hr. unfold onCancelConversion. cbn [payloadFileName].
  destruct (String.eqb name ""); [reflexivity |].
  unfold cancel, Kill. rewrite Hc, Hp. now rewrite decide_True by exact Hr.
Qed.

Lemma cancel_unregistered (name : string) (w : World) :
  conversions w !! name = None ->
  onCancelConversion {| payloadFileName := name |} w = w.
Proof.
  intros Hc. unfold onCancelConversion. cbn [payloadFileName].
  destruct (String.eqb name ""); [reflexivity |].
  unfold cancel. now rewrite Hc.
Qed.

(** While no other conversion stores a job under the name, the name stays
    with the job's own process or with none, and the process keeps its
    command. *)
Lemma own_entry_kept (name : string) (proc : loc) (p : pid) (a : Concurrent) (w : World) :
  (forall c : Cmd, a <> OtherStore name c) ->
  (conversions w !! name = None \/ conversions w !! name = Some proc)
  /\ Process (cmd (heap w proc)) = Some p /\ (proc < next w)%nat ->
  (conversions (runConcurrent w a) !! name = None
   \/ conversions (runConcurrent w a) !! name = Some proc)
  /\ Process (cmd (heap (runConcurrent w a) proc)) = Some p
  /\ (proc < next (runConcurrent w a))%nat.
Proof.
  intros Ha (Hc & Hp & Hn). destruct a as [payload | n c | n]; cbn [runConcurrent].
  - destruct (onCancelConversion_cases payload w)
      as [-> | (l & q & Hl & _ & _ & ->)]; [auto |].
    rewrite emitError_conversions, emitError_heap, emitError_next.
    unfold cancelledWorld. cbn [conversions heap next setConversions setHeap setKilled].
    split; [| split; [| exact Hn]].
    + destruct (decide (payloadFileName payload = name)) as [-> | Hne].
      * left. apply lookup_delete_eq.
      * rewrite lookup_delete_ne by exact Hne. exact Hc.
    + destruct (decide (l = proc)) as [-> | Hne].
      * rewrite fn_lookup_insert. exact Hp.
      * rewrite fn_lookup_insert_ne by exact Hne. exact Hp.
  - assert (Hne : n <> name) by (intros ->; now apply (Ha c)).
    unfold store. cbn [snd conversions heap next setConversions setHeap].
    split; [| split; [| lia]].
    + rewrite lookup_insert_ne by exact Hne. exact Hc.
    + rewrite fn_lookup_insert_ne by lia. exact Hp.
  - unfold remove. cbn [conversions heap next setConversions].
    split; [| auto].
    destruct (decide (n = name)) as [-> | Hne].
    + left. apply lookup_delete_eq.
    + rewrite lookup_delete_ne by exact Hne. exact Hc.
Qed.

(** X11. A cancel request for the job that arrives after [Wait] has returned,
    but before the handler has removed the job from the registry, is
    ignored, whatever happened while ffmpeg ran, as long as no other
    conversion stored a job under the same file name meanwhile: the signal
    cannot be delivered to the reaped child (or the entry is gone already),
    so nothing changes, no cancellation event is broadcast for it, and the
    request is answered as if the late request had not been made. (After
    such a store the name belongs to the other job, and the late request
    cancels that one.) *)
Theorem late_cancel_is_ignored (indef : float -> Z) (rq : Request) (ex : Externals)
    (during late : list Concurrent) (w : World) :
  Forall (fun a => forall c : Cmd, a <> OtherStore (originalName rq) c) during ->
  Forall (fun a => a = CancelRequest {| payloadFileName := originalName rq |}) late ->
  handleConvert indef rq ex during late w = handleConvert indef rq ex during [] w.
Proof.
  intros Hduring Hlate.
  destruct (probeInput ex) as [metadata |] eqn:Hp;
    [| unfold handleConvert; now rewrite Hp].
  destruct (stdoutPipeOk ex) eqn:Hpipe;
    [| unfold handleConvert; now rewrite Hp, Hpipe].
  destruct (start ex) as [p | |] eqn:Hst;
    [| unfold handleConvert; now rewrite Hp, Hpipe, Hst
     | unfold handleConvert; now rewrite Hp, Hpipe, Hst].
  rewrite !(handleConvert_started indef rq ex during _ metadata p w Hp Hpipe Hst).
  assert (E : startedRun indef rq ex during late metadata p w
              = startedRun indef rq ex during [] metadata p w).
  { unfold startedRun. cbn [fold_left].
    set (w1 := emitProgress (originalName rq) 0 (outputName rq) false w).
    unfold progressReader.
    destruct (reader_fold_setSocket indef (originalName rq) (outputName rq)
                (estimateDuration metadata) (estimateFrames metadata) (progressLines ex)
                (- progressBroadcastStep)
                (snd (store (originalName rq) {| Process := Some p |} w1))) as (s & ->).
    set (w3 := setSocket _ s).
    assert (H3 : (conversions w3 !! originalName rq = None
                  \/ conversions w3 !! originalName rq = Some (next w1))
                 /\ Process (cmd (heap w3 (next w1))) = Some p
                 /\ (next w1 < next w3)%nat).
    { unfold w3. cbn. split; [right; apply lookup_insert_eq |].
      split; [now rewrite fn_lookup_insert | lia]. }
    assert (H4 : (conversions (fold_left runConcurrent during w3) !! originalName rq = None
                  \/ conversions (fold_left runConcurrent during w3) !! originalName rq
                     = Some (next w1))
                 /\ Process (cmd (heap (fold_left runConcurrent during w3) (next w1)))
                    = Some p
                 /\ (next w1 < next (fold_left runConcurrent during w3))%nat).
    { clearbody w3. revert w3 H3.
      induction Hduring as [| a rest Ha _ IH]; intros w3 H3; [exact H3 |].
      cbn [fold_left]. apply IH. now apply own_entry_kept. }
    clearbody w3. set (w4 := fold_left runConcurrent during w3) in *.
    set (w6 := setReaped _ _).
    assert (H6 : onCancelConversion {| payloadFileName := originalName rq |} w6 = w6).
    { destruct H4 as ([Hc | Hc] & Hproc & _).
      - apply cancel_unregistered. unfold w6. now destruct (outputWritten ex).
      - apply (cancel_after_exit (originalName rq) (next w1) p).
        + unfold w6. now destruct (outputWritten ex).
        + unfold w6. now destruct (outputWritten ex).
        + unfold w6. cbn [reaped setReaped].
          apply elem_of_union_l, elem_of_singleton. reflexivity. }
    clearbody w6. induction Hlate as [| a rest -> _ IH]; [reflexivity |].
    cbn [fold_left runConcurrent]. rewrite H6. exact IH. }
  now rewrite E.
Qed.

Lemma late_cancel_is_ignored_witness :
  let ex := exampleExternals ["frame=150"] false "" (Some (probeOf "10" "10" "300" "30/1")) in
  let late := [CancelRequest {| payloadFileName := "a.mov" |}] in
  let result := handleConvert indef_amd64 exampleRequest ex
                  [OtherStore "b.mov" {| Process := Some 8%nat |};
                   CancelRequest {| payloadFileName := "b.mov" |}]
                  late (initialWorld ∅) in
  let clash := handleConvert indef_amd64 exampleRequest ex
                 [OtherStore "a.mov" {| Process := Some 8%nat |}] late (initialWorld ∅) in
  (exists body : convertResponse, fst result = WriteJSON StatusOK body)
  /\ ~ In (cancelledEvent "a.mov") (sentEvents (snd result))
  /\ In (cancelledEvent "a.mov") (sentEvents (snd clash))
  /\ cancelled (heap (snd clash) 1%nat) = true.
Proof.
  intros ex late result clash. unfold result.
  rewrite (late_cancel_is_ignored indef_amd64 exampleRequest ex
             [OtherStore "b.mov" {| Process := Some 8%nat |};
              CancelRequest {| payloadFileName := "b.mov" |}]
             late (initialWorld ∅));
    [| repeat constructor; discriminate | repeat constructor].
  split; [eexists; vm_compute; reflexivity |].
  split; [| split; [vm_compute; tauto | reflexivity]].
  vm_compute. intros H.
  repeat (destruct H as [H | H]; [discriminate H |]). exact H.
Defined.

(** ** The socket does not steer the handlers *)

Lemma quiet_emitProgress (f : string) (c : Z) (o : string) (b : bool) (w : World) :
  setSocket (emitProgress f c o b w) None = setSocket w None.
Proof. unfold emitProgress. now destruct (socket w). Qed.

Lemma quiet_emitError (f m : string) (w : World) :
  setSocket (emitError f m w) None = setSocket w None.
Proof. unfold emitError. now destruct (socket w). Qed.

Lemma quiet_runConcurrent (a : Concurrent) (w : World) :
  setSocket (runConcurrent w a) None = runConcurrent (setSocket w None) a.
Proof.
  destruct a as [payload | n c | n]; [| reflexivity | reflexivity].
  cbn [runConcurrent]. unfold onCancelConversion.
  destruct (String.eqb (payloadFileName payload) ""); [reflexivity |].
  unfold cancel. cbn [conversions heap setSocket].
  destruct (conversions w !! payloadFileName payload) as [proc |]; [| reflexivity].
  destruct (Process (cmd (heap w proc))) as [p |]; [| reflexivity].
  unfold Kill. cbn [reaped setSocket].
  destruct (decide (p ∈ reaped w)); [reflexivity |].
  rewrite quiet_emitError. reflexivity.
Qed.

Lemma quiet_fold (l : list Concurrent) :
  forall w : World,
    setSocket (fold_left runConcurrent l w) None
    = fold_left runConcurrent l (setSocket w None).
Proof.
  induction l as [| a l IH]; intros w; [reflexivity |].
  cbn [fold_left]. now rewrite IH, quiet_runConcurrent.
Qed.

Lemma quiet_reader (indef : float -> Z) (originalName outputName : string)
    (durationSeconds totalFrames : float) (lines : list string) (w : World) :
  setSocket (snd (progressReader indef originalName outputName durationSeconds
                    totalFrames lines w)) None
  = setSocket w None.
Proof.
  unfold progressReader.
  destruct (reader_fold_setSocket indef originalName outputName durationSeconds
              totalFrames lines (- progressBroadcastStep) w) as (s & ->).
  reflexivity.
Qed.

Lemma reader_silent (indef : float -> Z) (originalName outputName : string)
    (durationSeconds totalFrames : float) (lines : list string) (w : World) :
  socket w = None ->
  snd (progressReader indef originalName outputName durationSeconds totalFrames lines w)
  = w.
Proof.
  intros Hs. unfold progressReader. generalize (- progressBroadcastStep).
  induction lines as [| line rest IH]; intros last; [reflexivity |].
  cbn [fold_left]. rewrite readerStep_classify.
  assert (He : forall c b, emitProgress originalName c outputName b w = w).
  { intros c b. unfold emitProgress. now rewrite Hs. }
  destruct (classifyLine indef durationSeconds totalFrames line) as [c | |];
    [destruct (shouldEmitProgress c last) | |]; rewrite ?He; apply IH.
Qed.

Lemma quiet_convertFinish (rq : Request) (ex : Externals) (proc : loc) (w : World) :
  fst (convertFinish rq ex proc w) = fst (convertFinish rq ex proc (setSocket w None))
  /\ setSocket (snd (convertFinish rq ex proc w)) None
     = snd (convertFinish rq ex proc (setSocket w None)).
Proof.
  unfold convertFinish. cbn [remove conversions heap setConversions setSocket].
  destruct (cancelled (heap w proc)); [split; reflexivity |].
  destruct (waitFailed ex).
  - destruct (mapFFmpegError (stderrText ex) (format rq)) as [message status].
    cbn [fst snd]. split; [reflexivity |].
    unfold osRemove. cbn [files setFiles].
    rewrite !emitError_files.
    change (setSocket (setFiles ?x ?f) None) with (setFiles (setSocket x None) f).
    rewrite quiet_emitError.
    unfold emitError. cbn [socket setSocket setConversions]. reflexivity.
  - destruct (probeOutput ex); split; reflexivity.
Qed.

(** X12. Broadcasting never steers a conversion: with or without a socket
    server, and whatever it has sent, [handleConvert] gives the same answer
    and leaves the same registry, processes and files; only the log of
    the socket differs. *)
Theorem handleConvert_independent_of_socket (indef : float -> Z) (rq : Request)
    (ex : Externals) (during late : list Concurrent) (w : World)
    (s : option (list Broadcast)) :
  let result := handleConvert indef rq ex during late w in
  let other := handleConvert indef rq ex during late (setSocket w s) in
  fst other = fst result
  /\ setSocket (snd other) None = setSocket (snd result) None
  /\ conversions (snd other) = conversions (snd result)
  /\ files (snd other) = files (snd result)
  /\ heap (snd other) = heap (snd result).
Proof.
  assert (Hquiet : forall w0 : World,
             fst (handleConvert indef rq ex during late w0)
             = fst (handleConvert indef rq ex during late (setSocket w0 None))
             /\ setSocket (snd (handleConvert indef rq ex during late w0)) None
                = snd (handleConvert indef rq ex during late (setSocket w0 None))).
  { intros w0.
    destruct (probeInput ex) as [metadata |] eqn:Hp;
      [| unfold handleConvert; rewrite Hp; split; reflexivity].
    destruct (stdoutPipeOk ex) eqn:Hpipe.
    2: { unfold handleConvert. rewrite Hp, Hpipe. cbn [negb fst snd]. split; [reflexivity |].
         unfold osRemove. rewrite emitProgress_files.
         change (setSocket (setFiles ?x ?f) None) with (setFiles (setSocket x None) f).
         now rewrite quiet_emitProgress. }
    destruct (start ex) as [p | |] eqn:Hst.
    2, 3: unfold handleConvert; rewrite Hp, Hpipe, Hst; cbn [negb fst snd];
      (split; [reflexivity |]); unfold osRemove; rewrite emitProgress_files;
      change (setSocket (setFiles ?x ?f) None) with (setFiles (setSocket x None) f);
      now rewrite quiet_emitProgress.
    rewrite !(handleConvert_started indef rq ex during late metadata p _ Hp Hpipe Hst).
    cbn [fst snd next setSocket].
    assert (Hrun : setSocket (startedRun indef rq ex during late metadata p w0) None
                   = startedRun indef rq ex during late metadata p (setSocket w0 None)).
    { unfold startedRun.
      rewrite quiet_fold.
      change (setSocket (setReaped ?x ?r) None) with (setReaped (setSocket x None) r).
      assert (H4 : forall w1 w1' : World,
                 setSocket w1 None = w1' ->
                 setSocket
                   (fold_left runConcurrent during
                      (snd (progressReader indef (originalName rq) (outputName rq)
                              (estimateDuration metadata) (estimateFrames metadata)
                              (progressLines ex)
                              (snd (store (originalName rq) {| Process := Some p |} w1)))))
                   None
                 = fold_left runConcurrent during
                     (snd (progressReader indef (originalName rq) (outputName rq)
                             (estimateDuration metadata) (estimateFrames metadata)
                             (progressLines ex)
                             (snd (store (originalName rq) {| Process := Some p |} w1'))))).
      { intros w1 w1' <-. rewrite quiet_fold. f_equal.
        rewrite quiet_reader. symmetry. apply reader_silent. reflexivity. }
      specialize (H4 (emitProgress (originalName rq) 0 (outputName rq) false w0)
                    (emitProgress (originalName rq) 0 (outputName rq) false
                       (setSocket w0 None))).
      rewrite quiet_emitProgress in H4. specialize (H4 eq_refl).
      rewrite <- H4. destruct (outputWritten ex); reflexivity. }
    destruct (quiet_convertFinish rq ex (next w0)
                (startedRun indef rq ex during late metadata p w0)) as [Hf Hs].
    rewrite Hrun in Hf, Hs. split; [exact Hf |].
    unfold osRemove.
    change (setSocket (setFiles ?x ?f) None) with (setFiles (setSocket x None) f).
    rewrite Hs. f_equal.
    rewrite <- Hs. reflexivity. }
  cbv zeta.
  destruct (Hquiet w) as [H1 H2]. destruct (Hquiet (setSocket w s)) as [H3 H4].
  change (setSocket (setSocket w s) None) with (setSocket w None) in H3, H4.
  assert (E : setSocket (snd (handleConvert indef rq ex during late (setSocket w s))) None
              = setSocket (snd (handleConvert indef rq ex during late w)) None)
    by congruence.
  split; [congruence |]. split; [exact E |].
  split; [exact (f_equal conversions E) |].
  split; [exact (f_equal files E) | exact (f_equal heap E)].
Qed.
